(** * MuseTalk scripts: model provisioner, inference orchestrator, repair utility

    A shallow embedding of [download_models.py], [musetalk_inference.py] and
    [troubleshooting_fixes.py].  The three scripts are sequential glue around
    the file system, the network and external processes, so the embedding is a
    state-and-exception monad over a world made of

    - a file-system tree (directories keep their listing order),
    - a trace of every primitive call that was made, with its outcome,
    - the lines of standard output that [download_file] prints.

    What the environment decides (whether a system call fails, what an
    external process leaves on disk, what a server answers) is an oracle
    [Env]; every theorem quantifies over it.

    Conventions.  Exceptions are the subclasses of Python's [Exception].
    Paths are resolved from one root, which is both [/] and the working
    directory; [..] is not interpreted.  A primitive that fails leaves the
    file system as it was.  [print] calls other than those of
    [download_file] are left out: no property depends on them. *)

From Stdlib Require Import ZArith Ascii.
From stdpp Require Import base option list strings pretty gmap.

Set Default Proof Using "Type".

(** ** Python string operations *)

Module Str.

Definition slash : ascii := "/"%char.

(** [s.startswith(p)] *)
Fixpoint startswith (p s : string) : bool :=
  match p, s with
  | EmptyString, _ => true
  | String a p', String b s' => if decide (a = b) then startswith p' s' else false
  | String _ _, EmptyString => false
  end.

(** [sub in s] *)
Fixpoint contains (sub s : string) : bool :=
  startswith sub s ||
  match s with
  | EmptyString => false
  | String _ s' => contains sub s'
  end.

(** [s.endswith(suf)] *)
Fixpoint endswith (s suf : string) : bool :=
  if decide (s = suf) then true
  else match s with
       | EmptyString => false
       | String _ s' => endswith s' suf
       end.

Fixpoint has_slash (s : string) : bool :=
  match s with
  | EmptyString => false
  | String c s' => if decide (c = slash) then true else has_slash s'
  end.

Fixpoint all_slashes (s : string) : bool :=
  match s with
  | EmptyString => true
  | String c s' => if decide (c = slash) then all_slashes s' else false
  end.

(** [s.rstrip('/')] *)
Fixpoint rstrip_slash (s : string) : string :=
  match s with
  | EmptyString => EmptyString
  | String c s' =>
      match rstrip_slash s' with
      | EmptyString => if decide (c = slash) then EmptyString else String c EmptyString
      | r => String c r
      end
  end.

(** [p[:p.rfind('/') + 1]] *)
Fixpoint upto_last_slash (p : string) : string :=
  match p with
  | EmptyString => EmptyString
  | String c p' => if has_slash p then String c (upto_last_slash p') else EmptyString
  end.

(** [p[p.rfind('/') + 1:]] *)
Fixpoint after_last_slash (p : string) : string :=
  match p with
  | EmptyString => EmptyString
  | String _ p' => if has_slash p then after_last_slash p' else p
  end.

End Str.

(** ** [os.path] (posixpath) *)

Module Path.

(** [os.path.dirname] *)
Definition dirname (p : string) : string :=
  let head := Str.upto_last_slash p in
  if Str.all_slashes head then head else Str.rstrip_slash head.

(** [os.path.basename] *)
Definition basename (p : string) : string := Str.after_last_slash p.

(** [os.path.join(a, b)] *)
Definition join (a b : string) : string :=
  if Str.startswith "/" b then b
  else if decide (a = "") then b
  else if Str.endswith a "/" then a +:+ b
  else a +:+ "/" +:+ b.

(** The components a path names, read from the root; empty components and
    [.] are skipped. *)
Fixpoint split_from (cur : string) (s : string) : list string :=
  let emit rest := if decide (cur = "" ∨ cur = ".") then rest else cur :: rest in
  match s with
  | EmptyString => emit []
  | String c s' =>
      if decide (c = Str.slash) then emit (split_from "" s')
      else split_from (cur +:+ String c EmptyString) s'
  end.

(** The empty string names nothing ([ENOENT]). *)
Definition resolve (p : string) : option (list string) :=
  if decide (p = "") then None else Some (split_from "" p).

End Path.

(** ** Exceptions and results *)

Inductive exn : Set :=
  | FileNotFoundError
  | FileExistsError
  | NotADirectoryError
  | IsADirectoryError
  | PermissionError
  | OSError
  | SameFileError
  | CalledProcessError
  | ImportError
  | RequestException
  | HTTPError
  | ValueError
  | TypeError
  | KeyError
  | RuntimeError.

Global Instance exn_eq_dec : EqDecision exn.
Proof. solve_decision. Defined.

Inductive Res (A : Type) : Type :=
  | Ok (a : A)
  | Raise (e : exn).
Arguments Ok {A} a.
Arguments Raise {A} e.

Definition res_bind {A B} (r : Res A) (k : A → Res B) : Res B :=
  match r with
  | Ok a => k a
  | Raise e => Raise e
  end.

Definition is_ok {A} (r : Res A) : bool :=
  match r with Ok _ => true | Raise _ => false end.

(** ** The file-system tree *)

#[warnings="-register-all"]
Inductive node : Type :=
  | File (data : string)
  | Dir (entries : list (string * node)).

Module FS.

Fixpoint assoc {A} (k : string) (l : list (string * A)) : option A :=
  match l with
  | [] => None
  | (k', v) :: l' => if decide (k = k') then Some v else assoc k l'
  end.

(** Replace the binding of [k], or add it at the end of the listing. *)
Fixpoint bind {A} (k : string) (v : A) (l : list (string * A)) : list (string * A) :=
  match l with
  | [] => [(k, v)]
  | (k', v') :: l' => if decide (k = k') then (k, v) :: l' else (k', v') :: bind k v l'
  end.

Fixpoint unbind {A} (k : string) (l : list (string * A)) : list (string * A) :=
  match l with
  | [] => []
  | (k', v') :: l' => if decide (k = k') then l' else (k', v') :: unbind k l'
  end.

Fixpoint lookup (p : list string) (n : node) : option node :=
  match p with
  | [] => Some n
  | c :: p' =>
      match n with
      | File _ => None
      | Dir es => match assoc c es with
                  | Some child => lookup p' child
                  | None => None
                  end
      end
  end.

(** [os.makedirs(p, exist_ok=True)] *)
Fixpoint mkdirs (p : list string) (n : node) : Res node :=
  match p with
  | [] => match n with
          | Dir _ => Ok n
          | File _ => Raise FileExistsError
          end
  | c :: p' =>
      match n with
      | File _ => Raise NotADirectoryError
      | Dir es =>
          res_bind (mkdirs p' (default (Dir []) (assoc c es)))
                   (λ child, Ok (Dir (bind c child es)))
      end
  end.

(** Create the file at [p] or replace its content: [open(p, "w")] followed
    by the writes. *)
Fixpoint put (p : list string) (d : string) (n : node) : Res node :=
  match p with
  | [] => Raise IsADirectoryError
  | c :: p' =>
      match n with
      | File _ => Raise NotADirectoryError
      | Dir es =>
          match p', assoc c es with
          | [], Some (Dir _) => Raise IsADirectoryError
          | [], _ => Ok (Dir (bind c (File d) es))
          | _ :: _, Some child =>
              res_bind (put p' d child) (λ child', Ok (Dir (bind c child' es)))
          | _ :: _, None => Raise FileNotFoundError
          end
      end
  end.

(** [os.remove] *)
Fixpoint remove (p : list string) (n : node) : Res node :=
  match p with
  | [] => Raise IsADirectoryError
  | c :: p' =>
      match n with
      | File _ => Raise NotADirectoryError
      | Dir es =>
          match p', assoc c es with
          | _, None => Raise FileNotFoundError
          | [], Some (Dir _) => Raise IsADirectoryError
          | [], Some (File _) => Ok (Dir (unbind c es))
          | _ :: _, Some child =>
              res_bind (remove p' child) (λ child', Ok (Dir (bind c child' es)))
          end
      end
  end.

Definition file_names (es : list (string * node)) : list string :=
  omap (λ e, match e.2 with File _ => Some e.1 | Dir _ => None end) es.

Definition dir_names (es : list (string * node)) : list string :=
  omap (λ e, match e.2 with Dir _ => Some e.1 | File _ => None end) es.

(** [os.walk(top)], top-down, from the node that [top] names.  A path that
    is not a directory yields nothing. *)
Fixpoint walk (top : string) (n : node) : list (string * list string * list string) :=
  match n with
  | File _ => []
  | Dir es =>
      (top, dir_names es, file_names es)
        :: flat_map (λ e, let '(name, child) := e in walk (Path.join top name) child) es
  end.

(** Three views of the node at a component path: the content of a regular
    file, whether it is a directory, whether there is anything. *)
Definition rd (q : list string) (n : node) : option string :=
  match lookup q n with Some (File d) => Some d | _ => None end.
Definition isd (q : list string) (n : node) : bool :=
  match lookup q n with Some (Dir _) => true | _ => false end.
Definition ex (q : list string) (n : node) : bool :=
  match lookup q n with Some _ => true | None => false end.

(** Reading through path strings. *)

Definition at_path (p : string) (root : node) : option node :=
  Path.resolve p ≫= λ cs, lookup cs root.

(** [os.path.exists] *)
Definition exists_ (p : string) (root : node) : bool :=
  bool_decide (is_Some (at_path p root)).

(** The content of the regular file at [p], if there is one. *)
Definition read (p : string) (root : node) : option string :=
  match at_path p root with
  | Some (File d) => Some d
  | _ => None
  end.

Definition isdir (p : string) (root : node) : bool :=
  match at_path p root with
  | Some (Dir _) => true
  | _ => false
  end.

(** [n'] has everything [n] has. *)
Definition grows (n n' : node) : Prop :=
  ∀ p, exists_ p n = true → exists_ p n' = true.

End FS.

(** ** Worlds, environments and the monad of the scripts *)

(** The primitive calls the scripts make. *)
Inductive Op : Type :=
  | OpMakedirs (path : string)
  | OpSaveConfig (path : string)
  | OpListdir (path : string)
  | OpRemove (path : string)
  | OpRun (cmd : list string)
  | OpCopy (src dst : string)
  | OpGetsize (path : string)
  | OpGet (url : string)
  | OpOpen (path : string)
  | OpWrite (path : string)
  | OpChmod (path : string)
  | OpImportTorch
  | OpQueryCuda.

Inductive event : Type :=
  | Done (op : Op)
  | Failed (op : Op) (e : exn).

(** The lines [download_file] prints. *)
Inductive line : Type :=
  | Downloading (description filepath : string)
  | Downloaded (description : string)
  | DownloadFailed (description : string).

Global Instance Op_eq_dec : EqDecision Op.
Proof. solve_decision. Defined.
Global Instance event_eq_dec : EqDecision event.
Proof. solve_decision. Defined.
Global Instance line_eq_dec : EqDecision line.
Proof. solve_decision. Defined.

Record World : Type := mkWorld {
  fs : node;
  trace : list event;   (* newest first *)
  stdout : list line    (* newest first *)
}.

(** What a server sends back for a streamed GET. *)
Record http_response : Type := mkResponse {
  status_ok : bool;               (* [raise_for_status] passes *)
  content_length : option Z;      (* [None]: the header is not an integer *)
  chunks : list string;           (* what [iter_content] yields *)
  stream_error : option exn       (* raised by the stream after the chunks *)
}.

(** The environment: each field may depend on everything that happened
    before (the trace). *)
Record Env : Type := mkEnv {
  fault : list event → Op → option exn;
  process : list event → list string → node → Z * node;  (* return code, disk afterwards *)
  http : list event → string → http_response;
  executable : string                                     (* [sys.executable] *)
}.

Definition M (A : Type) : Type := World → Res A * World.

Global Instance M_ret : MRet M := λ A a w, (Ok a, w).
Global Instance M_bind : MBind M := λ A B k m w,
  match m w with
  | (Ok a, w') => k a w'
  | (Raise e, w') => (Raise e, w')
  end.

Definition raise {A} (e : exn) : M A := λ w, (Raise e, w).

(** [try: m except Exception as e: h e] *)
Definition try_ {A} (m : M A) (h : exn → M A) : M A := λ w,
  match m w with
  | (Ok a, w') => (Ok a, w')
  | (Raise e, w') => h e w'
  end.

(** [try: m except <class>: h e], for the exception classes [sel] holds of. *)
Definition try_only {A} (sel : exn → bool) (m : M A) (h : exn → M A) : M A :=
  try_ m (λ e, if sel e then h e else raise e).

(** [for x in xs: body], threading the locals the body assigns. *)
Fixpoint for_ {A S} (xs : list A) (body : S → A → M S) (s : S) : M S :=
  match xs with
  | [] => mret s
  | x :: xs' => s' ← body s x; for_ xs' body s'
  end.

Definition log (ev : event) (w : World) : World :=
  mkWorld (fs w) (ev :: trace w) (stdout w).

Definition print (l : line) : M unit := λ w,
  (Ok tt, mkWorld (fs w) (trace w) (l :: stdout w)).

(** The exit status of a script whose last statement is
    [sys.exit(0 if success else 1)]; an uncaught exception exits with 1. *)
Definition exit_status_of_bool (r : Res bool) : Z :=
  match r with
  | Ok true => 0
  | Ok false => 1
  | Raise _ => 1
  end.

(** The exit status of a script that just runs to its end. *)
Definition exit_status_of_unit (r : Res unit) : Z :=
  match r with
  | Ok _ => 0
  | Raise _ => 1
  end.

Section Primitives.

Variable E : Env.

(** A call that the environment may make fail; otherwise [act] says what
    it does on the disk. *)
Definition syscall {A} (op : Op) (act : node → Res (A * node)) : M A := λ w,
  match fault E (trace w) op with
  | Some e => (Raise e, log (Failed op e) w)
  | None =>
      match act (fs w) with
      | Ok (a, n') => (Ok a, mkWorld n' (Done op :: trace w) (stdout w))
      | Raise e => (Raise e, log (Failed op e) w)
      end
  end.

Definition on_path {A} (p : string) (k : list string → Res A) : Res A :=
  match Path.resolve p with
  | Some cs => k cs
  | None => Raise FileNotFoundError
  end.

Definition os_path_exists (p : string) : M bool := λ w,
  (Ok (FS.exists_ p (fs w)), w).

Definition os_makedirs (p : string) : M unit :=
  syscall (OpMakedirs p) (λ n,
    on_path p (λ cs, res_bind (FS.mkdirs cs n) (λ n', Ok (tt, n')))).

Definition write_whole (op : Op) (p : string) (d : string) : M unit :=
  syscall op (λ n,
    on_path p (λ cs, res_bind (FS.put cs d n) (λ n', Ok (tt, n')))).

Definition os_listdir (p : string) : M (list string) :=
  syscall (OpListdir p) (λ n,
    match FS.at_path p n with
    | Some (Dir es) => Ok (es.*1, n)
    | Some (File _) => Raise NotADirectoryError
    | None => Raise FileNotFoundError
    end).

Definition os_remove (p : string) : M unit :=
  syscall (OpRemove p) (λ n,
    on_path p (λ cs, res_bind (FS.remove cs n) (λ n', Ok (tt, n')))).

Definition os_path_getsize (p : string) : M Z :=
  syscall (OpGetsize p) (λ n,
    match FS.at_path p n with
    | Some (File d) => Ok (Z.of_nat (String.length d), n)
    | Some (Dir _) => Ok (4096%Z, n)
    | None => Raise FileNotFoundError
    end).

Definition os_chmod (p : string) : M unit :=
  syscall (OpChmod p) (λ n,
    match FS.at_path p n with
    | Some _ => Ok (tt, n)
    | None => Raise FileNotFoundError
    end).

(** [shutil.copy] and [shutil.copy2]: into [dst], or into the directory
    [dst] under the source's name; same-file copies are refused. *)
Definition shutil_copy (src dst : string) : M unit :=
  syscall (OpCopy src dst) (λ n,
    let dst' := if FS.isdir dst n then Path.join dst (Path.basename src) else dst in
    if bool_decide (Path.resolve src = Path.resolve dst') && FS.exists_ src n
    then Raise SameFileError
    else match FS.at_path src n with
         | Some (File d) =>
             on_path dst' (λ cs, res_bind (FS.put cs d n) (λ n', Ok (tt, n')))
         | Some (Dir _) => Raise IsADirectoryError
         | None => Raise FileNotFoundError
         end).

(** [subprocess.run(cmd, capture_output=True, check=check)]: the process
    runs to its end and may have changed the disk. *)
Definition subprocess_run (cmd : list string) (check : bool) : M Z := λ w,
  match fault E (trace w) (OpRun cmd) with
  | Some e => (Raise e, log (Failed (OpRun cmd) e) w)
  | None =>
      let '(code, n') := process E (trace w) cmd (fs w) in
      if check && negb (bool_decide (code = 0%Z))
      then (Raise CalledProcessError,
            mkWorld n' (Failed (OpRun cmd) CalledProcessError :: trace w) (stdout w))
      else (Ok code, mkWorld n' (Done (OpRun cmd) :: trace w) (stdout w))
  end.

(** [requests.get(url, stream=True)] *)
Definition requests_get (url : string) : M http_response := λ w,
  match fault E (trace w) (OpGet url) with
  | Some e => (Raise e, log (Failed (OpGet url) e) w)
  | None => (Ok (http E (trace w) url), log (Done (OpGet url)) w)
  end.

(** An import or a query that touches no file. *)
Definition probe (op : Op) : M unit := syscall op (λ n, Ok (tt, n)).

End Primitives.

(** ** musetalk_inference.py *)

(** The Python values that parameters take. A float is kept as its [repr]:
    the scripts pass it around and never compute with it. *)
Inductive pyval : Type :=
  | VInt (z : Z)
  | VStr (s : string)
  | VFloat (repr : string).

Global Instance pyval_eq_dec : EqDecision pyval.
Proof. solve_decision. Defined.

(** [str(v)] *)
Definition py_str (v : pyval) : string :=
  match v with
  | VInt z => pretty z
  | VStr s => s
  | VFloat r => r
  end.

(** [d[k]] *)
Definition getitem (d : gmap string pyval) (k : string) : Res pyval :=
  match d !! k with
  | Some v => Ok v
  | None => Raise KeyError
  end.

Definition lift {A} (r : Res A) : M A := λ w, (r, w).

(** One entry of the inference config. *)
Record task : Type := mkTask {
  task_video_path : string;
  task_audio_path : string;
  task_bbox_shift : pyval;
  task_result_name : string
}.

(** The config is a mapping from task names to tasks, in insertion order. *)
Definition config : Type := list (string * task).

Definition newline : string := String "010"%char EmptyString.

Module MuseTalkInference.

(** [self.default_params] *)
Definition default_params : gmap string pyval :=
  {[ "bbox_shift" := VInt 0;
     "batch_size" := VInt 4;
     "fps" := VInt 25;
     "version" := VStr "v15";
     "expression_scale" := VFloat "1.0" ]}.

(** [{**a, **b}]: the entries of [b] win. *)
Definition merge (a b : gmap string pyval) : gmap string pyval := b ∪ a.

Definition create_config (video_path audio_path : string)
    (kwargs : gmap string pyval) : Res (config * gmap string pyval) :=
  let params := merge default_params kwargs in
  res_bind (getitem params "bbox_shift") (λ shift,
    Ok ([("task1", mkTask video_path audio_path shift "lipsync_output.mp4")], params)).

(** The text [OmegaConf.save] writes (quoting of scalars is not modelled). *)
Definition yaml_of_task (t : task) : string :=
  "  video_path: " +:+ task_video_path t +:+ newline
  +:+ "  audio_path: " +:+ task_audio_path t +:+ newline
  +:+ "  bbox_shift: " +:+ py_str (task_bbox_shift t) +:+ newline
  +:+ "  result_name: " +:+ task_result_name t +:+ newline.

Definition yaml_of_config (c : config) : string :=
  String.concat "" (map (λ e, e.1 +:+ ":" +:+ newline +:+ yaml_of_task e.2) c).

Definition config_dir : string := "configs/inference".
Definition config_path : string := Path.join config_dir "inference.yaml".

(** [f.endswith(".mp4") and "temp" not in f] *)
Definition is_old_output (f : string) : bool :=
  Str.endswith f ".mp4" && negb (Str.contains "temp" f).

(** [file.endswith((".mp4", ".avi")) and "temp" not in file] *)
Definition is_media (file : string) : bool :=
  (Str.endswith file ".mp4" || Str.endswith file ".avi")
  && negb (Str.contains "temp" file).

(** ["lipsync_output" in f or "task1" in f] *)
Definition has_marker (f : string) : bool :=
  Str.contains "lipsync_output" f || Str.contains "task1" f.

(** Lines 107-112: the paths the walk of [output_dir] collects. *)
Definition scan (output_dir : string) (root : node) : list string :=
  flat_map (λ '(top, _, files), Path.join top <$> filter (λ f, is_media f = true) files)
           (from_option (FS.walk output_dir) [] (FS.at_path output_dir root)).

(** Lines 116-120: the first marked path, else the first path. *)
Definition select_target (first : string) (output_files : list string) : string :=
  default first (find has_marker output_files).

Section Run.

Variable E : Env.

(** Lines 55-83: build the config, save it, prepare the command. *)
Definition prepare (video_path audio_path output_path : string)
    (kwargs : gmap string pyval) : M (list pyval) :=
  '(cfg, params) ← lift (create_config video_path audio_path kwargs);
  _ ← lift (getitem params "bbox_shift");
  _ ← lift (getitem params "batch_size");
  os_makedirs E config_dir;;
  write_whole E (OpSaveConfig config_path) config_path (yaml_of_config cfg);;
  version ← lift (getitem params "version");
  batch_size ← lift (getitem params "batch_size");
  fps ← lift (getitem params "fps");
  mret [ VStr "python"; VStr "-m"; VStr "scripts.inference";
         VStr "--inference_config"; VStr config_path;
         VStr "--result_dir"; VStr (Path.dirname output_path);
         VStr "--unet_model_path"; VStr "models/musetalkV15/unet.pth";
         VStr "--unet_config"; VStr "models/musetalkV15/musetalk.json";
         VStr "--version"; version;
         VStr "--ffmpeg_path"; VStr "/usr/bin/ffmpeg";
         VStr "--whisper_dir"; VStr "./models/whisper";
         VStr "--batch_size"; VStr (py_str batch_size);
         VStr "--fps"; VStr (py_str fps) ].

(** Lines 86-93 *)
Definition clean_old_outputs (output_dir : string) : M unit :=
  names ← os_listdir E output_dir;
  for_ names (λ _ f,
    if is_old_output f
    then try_ (os_remove E (Path.join output_dir f)) (λ _, mret tt)
    else mret tt) tt.

(** Line 96: every argument must be a string. *)
Definition run_command (cmd : list pyval) : M Z :=
  match mapM (λ v, match v with VStr s => Some s | _ => None end) cmd with
  | Some args => subprocess_run E args false
  | None => raise TypeError
  end.

(** Lines 106-112; [os.walk] swallows the errors of the directories it
    cannot list. *)
Definition find_generated_files (output_dir : string) : M (list string) := λ w,
  (Ok (scan output_dir (fs w)), w).

(** Lines 114-136 *)
Definition deliver (output_files : list string) (output_path : string) : M bool :=
  match output_files with
  | first :: _ =>
      shutil_copy E (select_target first output_files) output_path;;
      os_path_getsize E output_path;;
      mret true
  | [] => mret false
  end.

(** Lines 86-112: the body of the [try] up to the scan. *)
Definition produce (cmd : list pyval) (output_path : string) : M (list string) :=
  let output_dir := Path.dirname output_path in
  clean_old_outputs output_dir;;
  run_command cmd;;
  find_generated_files output_dir.

Definition run_inference (video_path audio_path output_path : string)
    (kwargs : gmap string pyval) : M bool :=
  v ← os_path_exists video_path;
  if negb v then mret false else
  a ← os_path_exists audio_path;
  if negb a then mret false else
  cmd ← prepare video_path audio_path output_path kwargs;
  try_ (output_files ← produce cmd output_path;
        deliver output_files output_path)
       (λ _, mret false).

End Run.

(** [main], lines 164-170: the presets override [--bbox_shift]. *)
Definition apply_presets (natural subtle : bool) (bbox_shift : Z) : Z :=
  if natural then (-3)%Z else if subtle then (-5)%Z else bbox_shift.

End MuseTalkInference.

(** ** Writing through an open file *)

Section OpenFiles.

Variable E : Env.

(** [open(p, "w")] / [open(p, "wb")]: the file is created or emptied. *)
Definition open_w (p : string) : M unit := write_whole E (OpOpen p) p "".

(** [f.write(data)] on the file opened at [p]. *)
Definition f_write (p : string) (data : string) : M unit :=
  syscall E (OpWrite p) (λ n,
    match FS.read p n with
    | Some d => on_path p (λ cs, res_bind (FS.put cs (d +:+ data) n) (λ n', Ok (tt, n')))
    | None => Raise OSError
    end).

End OpenFiles.

(** ** download_models.py *)

(** The value of one entry of a [models] dictionary. *)
Record info : Type := mkInfo {
  info_url : string;
  info_description : string
}.

Module DownloadModels.

Definition musetalk_models : list (string * info) :=
  [ ("models/musetalkV15/musetalk.json",
     mkInfo "https://huggingface.co/TMElyralab/MuseTalk/resolve/main/musetalkV15/musetalk.json"
            "MuseTalk 1.5 config");
    ("models/musetalkV15/unet.pth",
     mkInfo "https://huggingface.co/TMElyralab/MuseTalk/resolve/main/musetalkV15/unet.pth"
            "MuseTalk 1.5 model weights (3.2GB)") ].

Definition other_models : list (string * info) :=
  [ ("models/dwpose/dw-ll_ucoco_384.pth",
     mkInfo "https://huggingface.co/yzd-v/DWPose/resolve/main/dw-ll_ucoco_384.pth"
            "DWPose model");
    ("models/face-parse-bisent/79999_iter.pth",
     mkInfo "https://huggingface.co/vivym/face-parsing-bisenet/resolve/main/79999_iter.pth"
            "Face parsing model");
    ("models/face-parse-bisent/resnet18-5c106cde.pth",
     mkInfo "https://download.pytorch.org/models/resnet18-5c106cde.pth"
            "ResNet-18 backbone");
    ("models/sd-vae/diffusion_pytorch_model.bin",
     mkInfo "https://huggingface.co/stabilityai/sd-vae-ft-mse/resolve/main/diffusion_pytorch_model.bin"
            "Stable Diffusion VAE");
    ("models/sd-vae/config.json",
     mkInfo "https://huggingface.co/stabilityai/sd-vae-ft-mse/resolve/main/config.json"
            "VAE config") ].

Definition whisper_files : list (string * string) :=
  [ ("config.json",
     "https://huggingface.co/openai/whisper-tiny/resolve/main/config.json");
    ("preprocessor_config.json",
     "https://huggingface.co/openai/whisper-tiny/resolve/main/preprocessor_config.json");
    ("pytorch_model.bin",
     "https://huggingface.co/openai/whisper-tiny/resolve/main/pytorch_model.bin") ].

Definition critical_files : list string :=
  [ "models/musetalkV15/unet.pth";
    "models/musetalkV15/musetalk.json";
    "models/whisper/config.json";
    "models/dwpose/dw-ll_ucoco_384.pth" ].

Section Run.

Variable E : Env.

(** Lines 18-33: the body of the [try]. *)
Definition fetch (url filepath description : string) : M bool :=
  response ← requests_get E url;
  (if status_ok response then mret tt else raise HTTPError);;
  _ ← lift (from_option Ok (Raise ValueError) (content_length response));
  open_w E filepath;;
  for_ (chunks response) (λ _ chunk,
    if decide (chunk = "") then mret tt else f_write E filepath chunk) tt;;
  from_option raise (mret tt) (stream_error response);;
  print (Downloaded description);;
  mret true.

Definition download_file (url filepath description : string) : M bool :=
  print (Downloading description filepath);;
  os_makedirs E (Path.dirname filepath);;
  try_ (fetch url filepath description)
       (λ _, print (DownloadFailed description);; mret false).

Definition download_with_hf_cli : M bool :=
  try_ (subprocess_run E ["pip"; "install"; "huggingface_hub[cli]"] true;;
        subprocess_run E ["hf"; "download"; "TMElyralab/MuseTalk";
                          "--local-dir"; "./models/";
                          "--include"; "musetalk/*";
                          "--include"; "musetalkV15/*"] true;;
        mret true)
       (λ _, mret false).

(** Lines 77-83 and 111-117: one loop, written twice in the source. *)
Definition download_models (models : list (string * info)) : M bool :=
  for_ models (λ success '(filepath, i),
    present ← os_path_exists filepath;
    if negb present then
      ok ← download_file (info_url i) filepath (info_description i);
      if negb ok then mret false else mret success
    else mret success) true.

Definition manual_download_musetalk : M bool :=
  os_makedirs E "models/musetalkV15";;
  download_models musetalk_models.

Definition download_other_models : M bool :=
  download_models other_models.

Definition setup_whisper_models : M bool :=
  os_makedirs E "models/whisper";;
  for_ whisper_files (λ success '(filename, url),
    let filepath := "models/whisper/" +:+ filename in
    present ← os_path_exists filepath;
    if negb present then
      ok ← download_file url filepath ("Whisper " +:+ filename);
      if negb ok then mret false else mret success
    else mret success) true.

(** Lines 170-178 *)
Definition verify_critical_files : M (list string) :=
  for_ critical_files (λ (missing_files : list string) filepath,
    present ← os_path_exists filepath;
    if (present : bool) then os_path_getsize E filepath;; mret missing_files
    else mret (missing_files ++ [filepath])) [].

Definition main : M bool :=
  hf_success ← download_with_hf_cli;
  (if negb hf_success then manual_download_musetalk;; mret tt else mret tt);;
  download_other_models;;
  setup_whisper_models;;
  missing_files ← verify_critical_files;
  match missing_files with
  | _ :: _ => mret false
  | [] => mret true
  end.

(** Lines 188-190 *)
Definition script (w : World) : Z * World :=
  let '(r, w') := main w in (exit_status_of_bool r, w').

End Run.

End DownloadModels.

(** ** troubleshooting_fixes.py *)

Module TroubleshootingFixes.

Definition paths_to_create : list string :=
  [ "models/whisper"; "models/whisper-tiny"; "models/openai/whisper-tiny" ].

Definition whisper_file_names : list string :=
  [ "config.json"; "preprocessor_config.json"; "pytorch_model.bin" ].

Definition directories : list string :=
  [ "models/musetalk"; "models/musetalkV15"; "models/syncnet"; "models/dwpose";
    "models/face-parse-bisent"; "models/sd-vae"; "models/whisper";
    "configs/inference"; "output"; "input" ].

Definition runtime_deps : list string :=
  [ "gdown"; "ffmpeg-python"; "moviepy"; "beautifulsoup4"; "PySocks";
    "librosa"; "imageio[ffmpeg]" ].

Definition required_files : list (string * string) :=
  [ ("models/musetalkV15/unet.pth", "MuseTalk 1.5 model weights");
    ("models/musetalkV15/musetalk.json", "MuseTalk 1.5 config");
    ("models/whisper/config.json", "Whisper config");
    ("models/whisper/preprocessor_config.json", "Whisper preprocessor config");
    ("models/dwpose/dw-ll_ucoco_384.pth", "DWPose model");
    ("models/face-parse-bisent/79999_iter.pth", "Face parsing model");
    ("models/sd-vae/diffusion_pytorch_model.bin", "VAE model");
    ("models/sd-vae/config.json", "VAE config") ].

Definition test_script_path : string := "/app/test_setup.py".

(** Lines 27-35: the three paths under the first directory that holds a
    [config.json]; the loop stops at the first hit. *)
Definition source_files (root : node) : list string :=
  match find (λ check_path, FS.exists_ (Path.join check_path "config.json") root)
             paths_to_create with
  | Some check_path => Path.join check_path <$> whisper_file_names
  | None => []
  end.

Section Run.

Variable E : Env.

(** The text of lines 172-236, written to [/app/test_setup.py]. *)
Variable test_script : string.

(** Lines 39-48: the body of the two nested loops. *)
Definition copy_if_missing (target_path src_file : string) : M unit :=
  have_src ← os_path_exists src_file;
  if (have_src : bool) then
    let filename := Path.basename src_file in
    let dst_file := Path.join target_path filename in
    have_dst ← os_path_exists dst_file;
    if negb have_dst
    then try_ (shutil_copy E src_file dst_file) (λ _, mret tt)
    else mret tt
  else mret tt.

Definition fix_whisper_paths : M unit :=
  for_ paths_to_create (λ _ path, os_makedirs E path) tt;;
  srcs ← (λ w, (Ok (source_files (fs w)), w));
  match srcs with
  | _ :: _ =>
      for_ paths_to_create (λ _ target_path,
        for_ srcs (λ _ src_file, copy_if_missing target_path src_file) tt) tt
  | [] => mret tt
  end.

Definition create_missing_directories : M unit :=
  for_ directories (λ _ directory,
    present ← os_path_exists directory;
    if negb present then os_makedirs E directory else mret tt) tt.

Definition pip (args : list string) (check : bool) : M Z :=
  subprocess_run E ([executable E; "-m"; "pip"] ++ args) check.

Definition install_missing_dependencies : M unit :=
  for_ runtime_deps (λ _ dep,
    try_only (λ e, bool_decide (e = CalledProcessError))
             (pip ["install"; dep] true;; mret tt)
             (λ _, mret tt)) tt.

Definition fix_xformers_warnings : M unit :=
  try_ (pip ["uninstall"; "-y"; "xformers"] false;;
        pip ["install"; "xformers==0.0.20"; "--no-deps"] true;;
        mret tt)
       (λ _, mret tt).

Definition check_gpu_setup : M unit :=
  try_only (λ e, bool_decide (e = ImportError))
           (probe E OpImportTorch;; probe E OpQueryCuda)
           (λ _, mret tt).

Definition verify_model_files : M bool :=
  missing_files ← for_ required_files (λ (missing_files : list string) '(filepath, _),
    present ← os_path_exists filepath;
    if (present : bool) then os_path_getsize E filepath;; mret missing_files
    else mret (missing_files ++ [filepath])) [];
  match missing_files with
  | _ :: _ => mret false
  | [] => mret true
  end.

Definition create_test_script : M unit :=
  open_w E test_script_path;;
  f_write E test_script_path test_script;;
  os_chmod E test_script_path.

Definition main : M unit :=
  create_missing_directories;;
  install_missing_dependencies;;
  fix_whisper_paths;;
  fix_xformers_warnings;;
  check_gpu_setup;;
  models_ok ← verify_model_files;
  create_test_script;;
  mret tt.

(** Lines 270-271 *)
Definition script (w : World) : Z * World :=
  let '(r, w') := main w in (exit_status_of_unit r, w').

End Run.

End TroubleshootingFixes.

(** * Specifications of computations *)

(** [inv I m]: running [m] in a world where [I] holds ends in one where it
    holds, whether [m] returns or raises. *)
Definition inv (I : World → Prop) {A} (m : M A) : Prop :=
  ∀ w, I w → I (m w).2.

(** [emits P m]: [m] only adds events that satisfy [P] to the trace. *)
Definition emits (P : event → Prop) {A} (m : M A) : Prop :=
  ∀ w, ∃ new, trace (m w).2 = new ++ trace w ∧ Forall P new.

(** [fails_by Q m]: when [m] raises [e], the last primitive call is one that
    failed with [e], and [Q] holds of the call and of [e]. *)
Definition fails_by (Q : Op → exn → Prop) {A} (m : M A) : Prop :=
  ∀ w, match m w with
       | (Ok _, _) => True
       | (Raise e, w') => ∃ op rest, trace w' = Failed op e :: rest ∧ Q op e
       end.

(** ** Classes of primitive calls *)

Definition op_of (ev : event) : Op :=
  match ev with
  | Done op => op
  | Failed op _ => op
  end.

(** The two calls [run_inference] makes before its [try]. *)
Definition config_ops (op : Op) : Prop :=
  op = OpMakedirs MuseTalkInference.config_dir
  ∨ op = OpSaveConfig MuseTalkInference.config_path.

(** The calls [run_inference] makes before it copies anything. *)
Definition before_copy (ev : event) : Prop :=
  match op_of ev with
  | OpMakedirs _ | OpSaveConfig _ | OpListdir _ | OpRemove _ | OpRun _ => True
  | _ => False
  end.

(** ** Per-file outcomes of the provisioner *)

(** The specification's reading of a download loop, to compare the loops of
    the source with: every file of the list is attempted, in order and
    whatever became of the files before it; a file that is present counts
    as a success; the overall success is the conjunction of the per-file
    successes. *)
Section PerFile.

Variable E : Env.

Definition attempt (item : string * string * string) : M bool :=
  let '(filepath, url, description) := item in
  present ← os_path_exists filepath;
  if (present : bool) then mret true
  else DownloadModels.download_file E url filepath description.

Fixpoint attempt_all (items : list (string * string * string)) : M (list bool) :=
  match items with
  | [] => mret []
  | item :: rest =>
      b ← attempt item;
      bs ← attempt_all rest;
      mret (b :: bs)
  end.

Definition spec_conjunction (items : list (string * string * string)) : M bool :=
  bs ← attempt_all items;
  mret (forallb id bs).

End PerFile.

(** The (path, URL, description) triples of the three download lists. *)
Definition items_of_models (models : list (string * info)) : list (string * string * string) :=
  (λ m, (m.1, info_url m.2, info_description m.2)) <$> models.

Definition whisper_items : list (string * string * string) :=
  (λ f, ("models/whisper/" +:+ f.1, f.2, "Whisper " +:+ f.1))
    <$> DownloadModels.whisper_files.

(** [p] is on disk, and [download_file] has been called for [p] only as
    often as [before] records. *)
Definition kept_present (p : string) (before : list line) (w : World) : Prop :=
  FS.exists_ p (fs w) = true
  ∧ ∀ d, Downloading d p ∈ stdout w → Downloading d p ∈ before.

(** External processes do not remove anything. *)
Definition processes_keep_files (E : Env) : Prop :=
  ∀ h cmd n, FS.grows n (process E h cmd n).2.

(** The failures that leave the main procedure of troubleshooting_fixes.py:
    those of creating a directory, of asking a file's size, of writing or
    chmod-ing the test script, of starting pip for a runtime dependency with
    anything but [CalledProcessError], and of the torch probe with anything
    but [ImportError]. *)
Definition escaping (E : Env) (op : Op) (e : exn) : Prop :=
  match op with
  | OpMakedirs _ | OpGetsize _ | OpOpen _ | OpWrite _ | OpChmod _ => True
  | OpRun cmd =>
      e ≠ CalledProcessError
      ∧ ∃ dep, dep ∈ TroubleshootingFixes.runtime_deps
               ∧ cmd = [executable E; "-m"; "pip"; "install"; dep]
  | OpImportTorch | OpQueryCuda => e ≠ ImportError
  | _ => False
  end.

(** Where [fix_whisper_paths] copies [src_file] to under [target_path]
    (lines 41-42). *)
Definition dst_of (target_path src_file : string) : string :=
  Path.join target_path (Path.basename src_file).

(** The (target, source) pairs in the order the nested loops of
    [fix_whisper_paths] visit them. *)
Definition pairs_of (targets srcs : list string) : list (string * string) :=
  targets ≫= λ t, pair t <$> srcs.

(** * Sample environments and worlds *)

Module Sample.

Definition one_chunk : http_response := mkResponse true (Some 4%Z) ["data"] None.

(** Nothing fails, processes exit with 0 and leave the disk alone, servers
    answer with one chunk. *)
Definition quiet : Env :=
  mkEnv (λ _ _, None) (λ _ _ n, (0%Z, n)) (λ _ _, one_chunk) "/usr/bin/python3".

Definition inputs : list (string * node) :=
  [ ("in", Dir [("v.mp4", File "video"); ("a.wav", File "audio")]) ].

Definition kw0 : gmap string pyval := ∅.

(** An earlier result is still at the default output path. *)
Definition with_old_result : World :=
  mkWorld (Dir (inputs ++
             [("app", Dir [("output", Dir [("lipsync_result.mp4", File "old")])])]))
          [] [].

(** [configs] is a regular file, so [configs/inference] cannot be made. *)
Definition configs_is_a_file : World :=
  mkWorld (Dir (inputs ++ [("configs", File "")])) [] [].

(** What a process leaves behind: the files [files], in this listing
    order, in the directory [dir]. *)
Definition leave (dir : list string) (files : list (string * string)) (n : node) : node :=
  foldl (λ n f, match FS.put (dir ++ [f.1]) f.2 n with
                | Ok n' => n'
                | Raise _ => n
                end) n files.


(** The inference process leaves the three files of the specification's
    example in [/app/output]. *)
Definition renderer3 : Env :=
  mkEnv (λ _ _, None)
        (λ _ _ n, (0%Z, leave ["app"; "output"]
                          [("a.mp4", "frames"); ("b_temp.mp4", "scratch");
                           ("lipsync_output.mp4", "result")] n))
        (λ _ _, one_chunk) "/usr/bin/python3".

Definition with_task1_dir : World :=
  mkWorld (Dir (inputs ++ [("data", Dir [("task1", Dir [])])])) [] [].


Definition empty_disk : World := mkWorld (Dir []) [] [].

Definition vae_config_url : string :=
  "https://huggingface.co/stabilityai/sd-vae-ft-mse/resolve/main/config.json".

(** The HuggingFace CLI cannot be installed (pip exits with 1) and the
    server has no VAE config (status 404); every other download works. *)
Definition vae_config_unavailable : Env :=
  mkEnv (λ _ _, None) (λ _ _ n, (1%Z, n))
        (λ _ url, if decide (url = vae_config_url)
                  then mkResponse false None [] None
                  else one_chunk)
        "/usr/bin/python3".

(** The connection drops after two chunks of data. *)
Definition dropped_stream : Env :=
  mkEnv (λ _ _, None) (λ _ _ n, (1%Z, n))
        (λ _ _, mkResponse true (Some 1000%Z) ["abc"; ""; "def"]
                  (Some RequestException))
        "/usr/bin/python3".

(** Of the two MuseTalk files, the config is on disk. *)
Definition config_present : World :=
  mkWorld (Dir [("models", Dir [("musetalkV15",
             Dir [("musetalk.json", File "{}")])])]) [] [].


(** [models/whisper] holds only a [config.json]; the complete set of
    whisper files is in [models/whisper-tiny]. *)
Definition partial_whisper : World :=
  mkWorld (Dir [("models", Dir [
             ("whisper", Dir [("config.json", File "c1")]);
             ("whisper-tiny", Dir [("config.json", File "c2");
                                   ("preprocessor_config.json", File "p2");
                                   ("pytorch_model.bin", File "m2")])])])
          [] [].

(** The directory [/app] exists. *)
Definition with_app_dir : World := mkWorld (Dir [("app", Dir [])]) [] [].

End Sample.

(** * The command line of musetalk_inference.py *)

Module InferenceMain.

(** What [parser.parse_args()] returns (lines 143-162). *)
Record args : Type := mkArgs {
  video : string;
  audio : string;
  output : string;
  bbox_shift : Z;
  batch_size : Z;
  fps : Z;
  natural : bool;
  subtle : bool
}.

(** The keyword arguments of the call at lines 177-184. *)
Definition kwargs (a : args) : gmap string pyval :=
  {[ "bbox_shift" :=
       VInt (MuseTalkInference.apply_presets (natural a) (subtle a) (bbox_shift a));
     "batch_size" := VInt (batch_size a);
     "fps" := VInt (fps a) ]}.

Section Run.

Variable E : Env.

(** Lines 164-184 *)
Definition main (a : args) : M bool :=
  os_makedirs E (Path.dirname (output a));;
  MuseTalkInference.run_inference E (video a) (audio a) (output a) (kwargs a).

(** Line 186 *)
Definition script (a : args) (w : World) : Z * World :=
  let '(r, w') := main a w in (exit_status_of_bool r, w').

End Run.

End InferenceMain.

(** * More specifications *)

(** The [bbox_shift] that [create_config] puts in the config. *)
Definition shift_of (kwargs : gmap string pyval) : pyval :=
  default (VInt 0) (kwargs !! "bbox_shift").

(** The config [create_config] builds. *)
Definition config_of (video_path audio_path : string) (kwargs : gmap string pyval) : config :=
  [("task1", mkTask video_path audio_path (shift_of kwargs) "lipsync_output.mp4")].

(** The command of lines 72-83, for the parameters [version], [batch_size]
    and [fps]. *)
Definition command (output_path : string) (version batch_size fps : pyval) : list pyval :=
  [ VStr "python"; VStr "-m"; VStr "scripts.inference";
    VStr "--inference_config"; VStr MuseTalkInference.config_path;
    VStr "--result_dir"; VStr (Path.dirname output_path);
    VStr "--unet_model_path"; VStr "models/musetalkV15/unet.pth";
    VStr "--unet_config"; VStr "models/musetalkV15/musetalk.json";
    VStr "--version"; version;
    VStr "--ffmpeg_path"; VStr "/usr/bin/ffmpeg";
    VStr "--whisper_dir"; VStr "./models/whisper";
    VStr "--batch_size"; VStr (py_str batch_size);
    VStr "--fps"; VStr (py_str fps) ].

(** The argument vector [main] of musetalk_inference.py starts the
    inference with. *)
Definition command_line (a : InferenceMain.args) : list string :=
  [ "python"; "-m"; "scripts.inference";
    "--inference_config"; "configs/inference/inference.yaml";
    "--result_dir"; Path.dirname (InferenceMain.output a);
    "--unet_model_path"; "models/musetalkV15/unet.pth";
    "--unet_config"; "models/musetalkV15/musetalk.json";
    "--version"; "v15";
    "--ffmpeg_path"; "/usr/bin/ffmpeg";
    "--whisper_dir"; "./models/whisper";
    "--batch_size"; pretty (InferenceMain.batch_size a);
    "--fps"; pretty (InferenceMain.fps a) ].

(** The two commands of [download_with_hf_cli]. *)
Definition pip_install_hf : list string := ["pip"; "install"; "huggingface_hub[cli]"].
Definition hf_download : list string :=
  ["hf"; "download"; "TMElyralab/MuseTalk"; "--local-dir"; "./models/";
   "--include"; "musetalk/*"; "--include"; "musetalkV15/*"].

(** The pip command that installs one runtime dependency. *)
Definition pip_install (E : Env) (dep : string) : Op :=
  OpRun [executable E; "-m"; "pip"; "install"; dep].

(** The primitive calls in the order they were made. *)
Definition calls (new : list event) : list Op := op_of <$> reverse new.

(** A name as a directory listing has it: one path component. *)
Definition is_name (f : string) : Prop :=
  Str.has_slash f = false ∧ f ≠ "" ∧ f ≠ ".".

(** The failures that leave [main] of download_models.py. *)
Definition download_escaping (op : Op) : Prop :=
  (∃ p, op = OpMakedirs p) ∨ (∃ p, p ∈ DownloadModels.critical_files ∧ op = OpGetsize p).

(** An event that is not the start of a process, unless [args] holds the
    argument vector and the process is started with it. *)
Definition runs_only (args : option (list string)) (ev : event) : Prop :=
  ∀ cmd, op_of ev = OpRun cmd → args = Some cmd.

(** The strings of a command, if all its elements are strings (what
    [run_command] passes to [subprocess.run]). *)
Definition strings_of (cmd : list pyval) : option (list string) :=
  mapM (λ v, match v with VStr s => Some s | _ => None end) cmd.

(** [download_file] has been called for [p], with the description [d], only
    as often as [before] records. *)
Definition no_new_download (d p : string) (before : list line) (w : World) : Prop :=
  Downloading d p ∈ stdout w → Downloading d p ∈ before.

(** The ten files that [main] of download_models.py provides. *)
Definition all_model_paths : list string :=
  DownloadModels.musetalk_models.*1 ++ DownloadModels.other_models.*1
  ++ ((λ f, "models/whisper/" +:+ f.1) <$> DownloadModels.whisper_files).

(** The ten files are on disk, [download_file] has not been called since
    the standard output was [before], and no request has been made since
    the trace was [t0]. *)
Definition nothing_to_download (before : list line) (t0 : list event) (w : World) : Prop :=
  (∀ p, p ∈ all_model_paths → FS.exists_ p (fs w) = true)
  ∧ stdout w = before
  ∧ ∃ new, trace w = new ++ t0 ∧ Forall (λ ev, ∀ url, op_of ev ≠ OpGet url) new.

(** The environment [E], except that a process that exits with [c] is
    reported to exit with [f c]. *)
Definition with_exit_code (f : Z → Z) (E : Env) : Env :=
  mkEnv (fault E)
        (λ h cmd n, let '(c, n') := process E h cmd n in (f c, n'))
        (http E) (executable E).

(** * More sample worlds *)

Module Scenario.

(** A command line that names the output file without a directory. *)
Definition bare_output : InferenceMain.args :=
  InferenceMain.mkArgs "in/v.mp4" "in/a.wav" "result.mp4" 0 4 25 false false.


(** The output directory holds an earlier result, a scratch file of an
    earlier run, a thumbnail and a directory of frames. *)
Definition output_listing : list (string * node) :=
  [ ("lipsync_result.mp4", File "old");
    ("b_temp.mp4", File "scratch");
    ("thumb.png", File "png");
    ("frames", Dir [("0.mp4", File "f0")]) ].

Definition used_output_dir : World :=
  mkWorld (Dir (Sample.inputs ++ [("app", Dir [("output", Dir output_listing)])]))
          [] [].

(** [output] is a regular file; [models] and [input] are directories. *)
Definition output_is_a_file : World :=
  mkWorld (Dir [("models", Dir []); ("output", File "notes"); ("input", Dir [])]) [] [].

(** pip cannot install anything: every process exits with 1. *)
Definition no_pip : Env :=
  mkEnv (λ _ _, None) (λ _ _ n, (1%Z, n)) (λ _ _, Sample.one_chunk) "/usr/bin/python3".

(** The server answers with three chunks, the second one empty. *)
Definition three_chunks : Env :=
  mkEnv (λ _ _, None) (λ _ _ n, (0%Z, n))
        (λ _ _, mkResponse true (Some 6%Z) ["abc"; ""; "def"] None)
        "/usr/bin/python3".

(** The server answers every request with an error status. *)
Definition not_found : Env :=
  mkEnv (λ _ _, None) (λ _ _ n, (0%Z, n))
        (λ _ _, mkResponse false None [] None)
        "/usr/bin/python3".

(** An older copy of a model file is on disk. *)
Definition stale_model : World :=
  mkWorld (Dir [("models", Dir [("dwpose", Dir [("dw-ll_ucoco_384.pth", File "stale")])])])
          [] [].

(** The ten model files are on disk. *)
Definition provisioned : World :=
  mkWorld (foldl (λ n p,
             match Path.resolve p with
             | Some cs =>
                 match FS.mkdirs (removelast cs) n with
                 | Ok n1 => match FS.put cs "x" n1 with Ok n2 => n2 | Raise _ => n1 end
                 | Raise _ => n
                 end
             | None => n
             end) (Dir []) all_model_paths) [] [].

End Scenario.

(** * Facts about the file-system tree *)

Module FSFacts.
Import FS.

Lemma assoc_bind_eq {A} k (v : A) l : assoc k (bind k v l) = Some v.
Proof.
  induction l as [|[k' v'] l IH]; simpl.
  - by rewrite decide_True.
  - destruct (decide (k = k')) as [->|Hne]; simpl.
    + by rewrite decide_True.
    + by rewrite decide_False.
Qed.

Lemma assoc_bind_ne {A} k k' (v : A) l : k ≠ k' → assoc k' (bind k v l) = assoc k' l.
Proof.
  intros Hne. induction l as [|[k2 v2] l IH]; simpl.
  - by rewrite decide_False.
  - destruct (decide (k = k2)) as [->|Hne2]; simpl.
    + by rewrite !decide_False.
    + destruct (decide (k' = k2)); [done | apply IH].
Qed.

Lemma assoc_bind {A} k k' (v : A) l :
  assoc k' (bind k v l) = if decide (k' = k) then Some v else assoc k' l.
Proof.
  destruct (decide (k' = k)) as [->|Hne].
  - apply assoc_bind_eq.
  - by apply assoc_bind_ne.
Qed.

Lemma lookup_file_cons c q d : lookup (c :: q) (File d) = None.
Proof. done. Qed.

Lemma lookup_dir_cons c q es :
  lookup (c :: q) (Dir es) = assoc c es ≫= lookup q.
Proof. simpl. by destruct (assoc c es). Qed.

Lemma lookup_bind_cons c c' q child es :
  lookup (c' :: q) (Dir (bind c child es)) =
    if decide (c' = c) then lookup q child else lookup (c' :: q) (Dir es).
Proof.
  rewrite !lookup_dir_cons, assoc_bind. by destruct (decide (c' = c)).
Qed.

(** *** [put] *)

Lemma put_inv c cs d n n' :
  put (c :: cs) d n = Ok n' →
  ∃ es, n = Dir es ∧
    match cs with
    | [] => isd [c] n = false ∧ n' = Dir (bind c (File d) es)
    | _ :: _ => ∃ child child', assoc c es = Some child ∧
                  put cs d child = Ok child' ∧ n' = Dir (bind c child' es)
    end.
Proof.
  destruct n as [d0|es]; [done|]. intros H. exists es. split; [done|].
  unfold isd. simpl in *. destruct cs as [|c2 cs].
  - destruct (assoc c es) as [[?|?]|]; naive_solver.
  - destruct (assoc c es) as [child|]; [|done].
    destruct (put (c2 :: cs) d child) as [child'|] eqn:Hput; [|done].
    simpl in H. naive_solver.
Qed.

Lemma put_rd cs d n n' :
  put cs d n = Ok n' →
  ∀ q, rd q n' = if decide (q = cs) then Some d else rd q n.
Proof.
  revert n n'. induction cs as [|c cs IH]; intros n n' H q; [done|].
  apply put_inv in H as (es & -> & H).
  destruct q as [|c' q].
  { rewrite decide_False by done. by destruct cs; [destruct H as [_ ->]|destruct H as (?&?&?&?&->)]. }
  destruct cs as [|c2 cs].
  - destruct H as [Hnd ->]. unfold rd. rewrite lookup_bind_cons.
    destruct (decide (c' = c)) as [->|Hne].
    + destruct q as [|c3 q]; simpl.
      * by rewrite decide_True.
      * rewrite decide_False by naive_solver.
        unfold isd in Hnd. simpl in Hnd.
        destruct (assoc c es) as [[?|?]|]; done.
    + by rewrite decide_False by naive_solver.
  - destruct H as (child & child' & Hc & Hput & ->). unfold rd.
    rewrite lookup_bind_cons.
    destruct (decide (c' = c)) as [->|Hne].
    + specialize (IH _ _ Hput q). unfold rd in IH. rewrite IH.
      simpl. rewrite Hc.
      destruct (decide (q = c2 :: cs)) as [->|Hq].
      * by rewrite decide_True.
      * by rewrite decide_False by naive_solver.
    + by rewrite decide_False by naive_solver.
Qed.

Lemma put_isd cs d n n' :
  put cs d n = Ok n' → ∀ q, isd q n' = isd q n.
Proof.
  revert n n'. induction cs as [|c cs IH]; intros n n' H q; [done|].
  apply put_inv in H as (es & -> & H).
  destruct q as [|c' q].
  { by destruct cs; [destruct H as [_ ->]|destruct H as (?&?&?&?&->)]. }
  destruct cs as [|c2 cs].
  - destruct H as [Hnd ->]. unfold isd. rewrite lookup_bind_cons.
    destruct (decide (c' = c)) as [->|Hne]; [|done].
    unfold isd in Hnd. simpl in *.
    destruct q; destruct (assoc c es) as [[?|?]|]; done.
  - destruct H as (child & child' & Hc & Hput & ->). unfold isd.
    rewrite lookup_bind_cons.
    destruct (decide (c' = c)) as [->|Hne]; [|done].
    specialize (IH _ _ Hput q). unfold isd in IH. rewrite IH.
    simpl. by rewrite Hc.
Qed.

Lemma put_ex cs d n n' :
  put cs d n = Ok n' →
  ∀ q, ex q n' = ex q n || bool_decide (q = cs).
Proof.
  revert n n'. induction cs as [|c cs IH]; intros n n' H q; [done|].
  apply put_inv in H as (es & -> & H).
  destruct q as [|c' q].
  { rewrite bool_decide_eq_false_2 by done. by destruct cs; [destruct H as [_ ->]|destruct H as (?&?&?&?&->)]. }
  destruct cs as [|c2 cs].
  - destruct H as [Hnd ->]. unfold ex. rewrite lookup_bind_cons.
    destruct (decide (c' = c)) as [->|Hne].
    + unfold isd in Hnd. simpl in *.
      destruct q as [|c3 q]; simpl.
      * rewrite bool_decide_eq_true_2 by done. by rewrite orb_true_r.
      * rewrite bool_decide_eq_false_2 by naive_solver.
        destruct (assoc c es) as [[?|?]|]; done.
    + rewrite bool_decide_eq_false_2 by naive_solver. by rewrite orb_false_r.
  - destruct H as (child & child' & Hc & Hput & ->). unfold ex.
    rewrite lookup_bind_cons.
    destruct (decide (c' = c)) as [->|Hne].
    + specialize (IH _ _ Hput q). unfold ex in IH. rewrite IH.
      simpl. rewrite Hc. f_equal. apply bool_decide_ext. naive_solver.
    + rewrite bool_decide_eq_false_2 by naive_solver. by rewrite orb_false_r.
Qed.


Lemma put_cons2 c c2 cs d es :
  put (c :: c2 :: cs) d (Dir es) =
    match assoc c es with
    | Some child => res_bind (put (c2 :: cs) d child) (λ child', Ok (Dir (bind c child' es)))
    | None => Raise FileNotFoundError
    end.
Proof. done. Qed.

Lemma put_cons1 c d es :
  put [c] d (Dir es) =
    match assoc c es with
    | Some (Dir _) => Raise IsADirectoryError
    | _ => Ok (Dir (bind c (File d) es))
    end.
Proof. done. Qed.

(** Writing succeeds where a regular file already is, and where the parent
    is a directory that has nothing of that name. *)
Lemma put_ok_file c cs d n :
  is_Some (rd (c :: cs) n) → ∃ n', put (c :: cs) d n = Ok n'.
Proof.
  revert c n. induction cs as [|c2 cs IH]; intros c n [d0 H]; unfold rd in H;
    (destruct n as [|es]; [done|]); rewrite lookup_dir_cons in H.
  - rewrite put_cons1. destruct (assoc c es) as [[?|?]|]; by eauto.
  - rewrite put_cons2. destruct (assoc c es) as [child|] eqn:Hc; [|done].
    destruct (IH c2 child) as [child' ->]; [by exists d0 | simpl; eauto].
Qed.

Lemma put_ok_new cs c d n :
  isd cs n = true → ex (cs ++ [c]) n = false → ∃ n', put (cs ++ [c]) d n = Ok n'.
Proof.
  revert n. induction cs as [|c2 cs IH]; intros n Hd Hx; unfold isd, ex in Hd, Hx;
    (destruct n as [|es]; [done|]).
  - simpl app in *. rewrite lookup_dir_cons in Hx. rewrite put_cons1.
    destruct (assoc c es) as [[?|?]|]; by eauto.
  - rewrite lookup_dir_cons in Hd. simpl app in *. rewrite lookup_dir_cons in Hx.
    destruct (cs ++ [c]) as [|c3 rest] eqn:Happ; [by destruct cs|].
    rewrite put_cons2.
    destruct (assoc c2 es) as [child|] eqn:Hc; [|done]. simpl in Hd, Hx.
    destruct (IH child) as [child' Hput]; [done..|].
    rewrite Hput. simpl. eauto.
Qed.

(** *** [mkdirs] *)

Lemma mkdirs_inv c cs n n' :
  mkdirs (c :: cs) n = Ok n' →
  ∃ es child', n = Dir es ∧
    mkdirs cs (default (Dir []) (assoc c es)) = Ok child' ∧
    n' = Dir (bind c child' es).
Proof.
  destruct n as [|es]; [done|]. simpl.
  destruct (mkdirs cs _) as [child'|] eqn:Hm; [|done].
  simpl. intros [= <-]. eauto.
Qed.

Lemma mkdirs_rd cs n n' :
  mkdirs cs n = Ok n' → ∀ q, rd q n' = rd q n.
Proof.
  revert n n'. induction cs as [|c cs IH]; intros n n' H q.
  - destruct n; by simplify_eq/=.
  - apply mkdirs_inv in H as (es & child' & -> & Hm & ->).
    destruct q as [|c' q]; [done|]. unfold rd. rewrite lookup_bind_cons.
    destruct (decide (c' = c)) as [->|Hne]; [|done].
    specialize (IH _ _ Hm q). unfold rd in IH. rewrite IH.
    simpl. destruct (assoc c es); [done|]. by destruct q.
Qed.

Lemma mkdirs_isd_mono cs n n' :
  mkdirs cs n = Ok n' → ∀ q, isd q n = true → isd q n' = true.
Proof.
  revert n n'. induction cs as [|c cs IH]; intros n n' H q.
  - destruct n; by simplify_eq/=.
  - apply mkdirs_inv in H as (es & child' & -> & Hm & ->).
    destruct q as [|c' q]; [done|]. unfold isd. rewrite lookup_bind_cons.
    destruct (decide (c' = c)) as [->|Hne]; [|done].
    specialize (IH _ _ Hm q). unfold isd in IH. simpl.
    destruct (assoc c es); [done|]. by destruct q.
Qed.

Lemma mkdirs_isd cs n n' : mkdirs cs n = Ok n' → isd cs n' = true.
Proof.
  revert n n'. induction cs as [|c cs IH]; intros n n' H.
  - destruct n; by simplify_eq/=.
  - apply mkdirs_inv in H as (es & child' & -> & Hm & ->).
    unfold isd. rewrite lookup_bind_cons, decide_True by done.
    by apply IH in Hm.
Qed.

Lemma mkdirs_ex cs n n' :
  mkdirs cs n = Ok n' →
  ∀ q, ex q n' = ex q n || bool_decide (q `prefix_of` cs).
Proof.
  revert n n'. induction cs as [|c cs IH]; intros n n' H q.
  - destruct n; simplify_eq/=. destruct q as [|c' q].
    + done.
    + rewrite bool_decide_eq_false_2; [by rewrite orb_false_r|].
      intros [k Hk]. by destruct q.
  - apply mkdirs_inv in H as (es & child' & -> & Hm & ->).
    destruct q as [|c' q].
    { unfold ex. simpl. done. }
    unfold ex. rewrite lookup_bind_cons.
    destruct (decide (c' = c)) as [->|Hne].
    + specialize (IH _ _ Hm q). unfold ex in IH. rewrite IH. simpl.
      assert (bool_decide (q `prefix_of` cs)
              = bool_decide (c :: q `prefix_of` c :: cs)) as <-.
      { apply bool_decide_ext. split.
        - by apply prefix_cons.
        - by intros ?%prefix_cons_inv_2. }
      destruct (assoc c es); [done|]. by destruct q.
    + rewrite bool_decide_eq_false_2; [by rewrite orb_false_r|].
      by intros ?%prefix_cons_inv_1.
Qed.

(** *** Through path strings *)

Lemma exists_resolve p cs n : Path.resolve p = Some cs → exists_ p n = ex cs n.
Proof.
  intros Hp. unfold exists_, at_path, ex. rewrite Hp. simpl.
  destruct (lookup cs n).
  - by apply bool_decide_eq_true_2.
  - apply bool_decide_eq_false_2. by intros [??].
Qed.

Lemma exists_unresolved p n : Path.resolve p = None → exists_ p n = false.
Proof.
  intros Hp. unfold exists_, at_path. by rewrite Hp.
Qed.

Lemma read_resolve p cs n : Path.resolve p = Some cs → read p n = rd cs n.
Proof. intros Hp. unfold read, at_path, rd. by rewrite Hp. Qed.

Lemma read_unresolved p n : Path.resolve p = None → read p n = None.
Proof. intros Hp. unfold read, at_path. by rewrite Hp. Qed.

Lemma isdir_resolve p cs n : Path.resolve p = Some cs → isdir p n = isd cs n.
Proof. intros Hp. unfold isdir, at_path, isd. by rewrite Hp. Qed.

Lemma read_exists p n d : read p n = Some d → exists_ p n = true.
Proof.
  unfold read, exists_. destruct (at_path p n) as [[?|?]|]; [|done..].
  intros _. by apply bool_decide_eq_true_2.
Qed.

Lemma read_not_isdir p n d : read p n = Some d → isdir p n = false.
Proof. unfold read, isdir. by destruct (at_path p n) as [[?|?]|]. Qed.

Lemma grows_refl n : grows n n.
Proof. by intros p. Qed.

Lemma put_grows cs d n n' : put cs d n = Ok n' → grows n n'.
Proof.
  intros Hput p. destruct (Path.resolve p) as [q|] eqn:Hp.
  - rewrite !(exists_resolve _ _ _ Hp), (put_ex _ _ _ _ Hput). by intros ->.
  - by rewrite (exists_unresolved _ _ Hp).
Qed.

Lemma mkdirs_grows cs n n' : mkdirs cs n = Ok n' → grows n n'.
Proof.
  intros Hm p. destruct (Path.resolve p) as [q|] eqn:Hp.
  - rewrite !(exists_resolve _ _ _ Hp), (mkdirs_ex _ _ _ Hm). by intros ->.
  - by rewrite (exists_unresolved _ _ Hp).
Qed.

(** What [put] does to the regular files. *)
Lemma put_read cs d n n' p :
  put cs d n = Ok n' →
  read p n' = if decide (Path.resolve p = Some cs) then Some d else read p n.
Proof.
  intros Hput. destruct (Path.resolve p) as [q|] eqn:Hp.
  - rewrite !(read_resolve _ _ _ Hp), (put_rd _ _ _ _ Hput).
    destruct (decide (q = cs)) as [->|Hne].
    + by rewrite decide_True.
    + rewrite decide_False; [done|]. by intros [= ?].
  - rewrite !(read_unresolved _ _ Hp). by destruct (decide (None = Some cs)).
Qed.

Lemma mkdirs_read cs n n' p : mkdirs cs n = Ok n' → read p n' = read p n.
Proof.
  intros Hm. destruct (Path.resolve p) as [q|] eqn:Hp.
  - rewrite !(read_resolve _ _ _ Hp). by apply (mkdirs_rd cs).
  - by rewrite !(read_unresolved _ _ Hp).
Qed.

End FSFacts.

(** * Reasoning about the monad *)

Lemma bind_unfold {A B} (m : M A) (k : A → M B) w :
  (m ≫= k) w =
    match m w with
    | (Ok a, w') => k a w'
    | (Raise e, w') => (Raise e, w')
    end.
Proof. done. Qed.

Lemma ret_unfold {A} (a : A) w : (mret a : M A) w = (Ok a, w).
Proof. done. Qed.

Lemma lift_ok_bind {A B} (x : A) (k : A → M B) : (lift (Ok x) ≫= k) = k x.
Proof. done. Qed.

Lemma bind_ok_inv {A B} (m : M A) (k : A → M B) w b w' :
  (m ≫= k) w = (Ok b, w') → ∃ a w1, m w = (Ok a, w1) ∧ k a w1 = (Ok b, w').
Proof.
  rewrite bind_unfold. destruct (m w) as [[a|e] w1]; [eauto|done].
Qed.

Lemma bind_inv {A B} (m : M A) (k : A → M B) w r w' :
  (m ≫= k) w = (r, w') →
  (∃ a w1, m w = (Ok a, w1) ∧ k a w1 = (r, w')) ∨
  (∃ e, m w = (Raise e, w') ∧ r = Raise e).
Proof.
  rewrite bind_unfold. destruct (m w) as [[a|e] w1]; [eauto|].
  intros [= <- <-]. eauto.
Qed.

Lemma try_unfold {A} (m : M A) h w :
  try_ m h w =
    match m w with
    | (Ok a, w') => (Ok a, w')
    | (Raise e, w') => h e w'
    end.
Proof. done. Qed.

Lemma for_ext {A S} (xs : list A) (body1 body2 : S → A → M S) s w :
  (∀ s x w, body1 s x w = body2 s x w) → for_ xs body1 s w = for_ xs body2 s w.
Proof.
  intros Hb. revert s w. induction xs as [|x xs IH]; intros s w; [done|].
  cbn [for_]. rewrite !bind_unfold, Hb.
  destruct (body2 s x w) as [[s'|e] w']; [apply IH|done].
Qed.

Lemma for_app {A S} (xs ys : list A) (body : S → A → M S) s w :
  for_ (xs ++ ys) body s w = (s' ← for_ xs body s; for_ ys body s') w.
Proof.
  revert s w. induction xs as [|x xs IH]; intros s w; [done|].
  cbn [for_ app]. rewrite !bind_unfold.
  destruct (body s x w) as [[s'|e] w']; [|done].
  by rewrite IH, bind_unfold.
Qed.

Lemma for_fmap {A B S} (f : A → B) (xs : list A) (body : S → B → M S) s w :
  for_ (f <$> xs) body s w = for_ xs (λ s x, body s (f x)) s w.
Proof.
  revert s w. induction xs as [|x xs IH]; intros s w; [done|].
  cbn [for_ fmap list_fmap]. rewrite !bind_unfold.
  destruct (body s (f x) w) as [[s'|e] w']; [apply IH|done].
Qed.

(** A property of outcomes that every raise satisfies holds of [m ≫= k] as
    soon as it holds of [k]. *)
Lemma bind_post {A B} (m : M A) (k : A → M B) (Q : Res B * World → Prop) w :
  (∀ e w', Q (Raise e, w')) → (∀ a w1, Q (k a w1)) → Q ((m ≫= k) w).
Proof.
  intros Hr Hk. rewrite bind_unfold. destruct (m w) as [[a|e] w1]; [apply Hk|apply Hr].
Qed.

(** What one primitive call does. *)
Lemma syscall_inv E {A} op (act : node → Res (A * node)) w r w' :
  syscall E op act w = (r, w') →
  stdout w' = stdout w ∧
  ((∃ e, r = Raise e ∧ fs w' = fs w ∧ trace w' = Failed op e :: trace w) ∨
   (∃ a, r = Ok a ∧ act (fs w) = Ok (a, fs w') ∧ trace w' = Done op :: trace w)).
Proof.
  unfold syscall. destruct (fault E (trace w) op) as [e|].
  - intros [= <- <-]. split; [done|]. left. by exists e.
  - destruct (act (fs w)) as [[a n']|e] eqn:Hact; intros [= <- <-];
      (split; [done|]); [right; by exists a | left; by exists e].
Qed.

(** ** Invariants *)


Section Inv.

Context (I : World → Prop).

Lemma inv_ret {A} (a : A) : inv I (mret a).
Proof. by intros w. Qed.

Lemma inv_raise {A} e : inv I (@raise A e).
Proof. by intros w. Qed.

Lemma inv_lift {A} (r : Res A) : inv I (lift r).
Proof. by intros w. Qed.

Lemma inv_bind {A B} (m : M A) (k : A → M B) :
  inv I m → (∀ a, inv I (k a)) → inv I (m ≫= k).
Proof.
  intros Hm Hk w Hw. rewrite bind_unfold. specialize (Hm w Hw).
  destruct (m w) as [[a|e] w1]; simpl in *; [by apply Hk|done].
Qed.

Lemma inv_try {A} (m : M A) h :
  inv I m → (∀ e, inv I (h e)) → inv I (try_ m h).
Proof.
  intros Hm Hh w Hw. rewrite try_unfold. specialize (Hm w Hw).
  destruct (m w) as [[a|e] w1]; simpl in *; [done|by apply Hh].
Qed.

Lemma inv_try_only {A} sel (m : M A) h :
  inv I m → (∀ e, inv I (h e)) → inv I (try_only sel m h).
Proof.
  intros Hm Hh. apply inv_try; [done|]. intros e.
  destruct (sel e); [done|apply inv_raise].
Qed.

Lemma inv_for {A S} (xs : list A) (body : S → A → M S) s :
  (∀ s x, x ∈ xs → inv I (body s x)) → inv I (for_ xs body s).
Proof.
  revert s. induction xs as [|x xs IH]; intros s Hb; simpl.
  - apply inv_ret.
  - apply inv_bind.
    + apply Hb. by left.
    + intros s'. apply IH. intros ???. apply Hb. by right.
Qed.

Lemma inv_if {A} (b : bool) (m1 m2 : M A) :
  inv I m1 → inv I m2 → inv I (if b then m1 else m2).
Proof. by destruct b. Qed.

End Inv.

(** ** Which primitive calls a computation makes *)


Section Emits.

Context (P : event → Prop).

Lemma emits_pure {A} (f : World → Res A) : emits P (λ w, (f w, w)).
Proof. intros w. by exists []. Qed.

Lemma emits_ret {A} (a : A) : emits P (mret a).
Proof. apply (emits_pure (λ _, Ok a)). Qed.

Lemma emits_print l : emits P (print l).
Proof. intros w. by exists []. Qed.

Lemma emits_bind {A B} (m : M A) (k : A → M B) :
  emits P m → (∀ a, emits P (k a)) → emits P (m ≫= k).
Proof.
  intros Hm Hk w. rewrite bind_unfold. destruct (Hm w) as (new & Ht & Hnew).
  destruct (m w) as [[a|e] w1]; simpl in *; [|eauto].
  destruct (Hk a w1) as (new' & Ht' & Hnew').
  exists (new' ++ new). rewrite Ht', Ht, (assoc_L (++)).
  split; [done|]. by apply Forall_app.
Qed.

Lemma emits_try {A} (m : M A) h :
  emits P m → (∀ e, emits P (h e)) → emits P (try_ m h).
Proof.
  intros Hm Hh w. rewrite try_unfold. destruct (Hm w) as (new & Ht & Hnew).
  destruct (m w) as [[a|e] w1]; simpl in *; [eauto|].
  destruct (Hh e w1) as (new' & Ht' & Hnew').
  exists (new' ++ new). rewrite Ht', Ht, (assoc_L (++)).
  split; [done|]. by apply Forall_app.
Qed.

Lemma emits_for {A S} (xs : list A) (body : S → A → M S) s :
  (∀ s x, emits P (body s x)) → emits P (for_ xs body s).
Proof.
  intros Hb. revert s. induction xs as [|x xs IH]; intros s; simpl.
  - apply emits_ret.
  - by apply emits_bind.
Qed.

Lemma emits_syscall E {A} op (act : node → Res (A * node)) :
  P (Done op) → (∀ e, P (Failed op e)) → emits P (syscall E op act).
Proof.
  intros Hd Hf w. destruct (syscall E op act w) as [r w'] eqn:Hs.
  apply syscall_inv in Hs as (_ & [(e & _ & _ & Ht)|(a & _ & _ & Ht)]); simpl;
    rewrite Ht; eexists [_]; split; try done; by apply Forall_singleton.
Qed.

Lemma emits_subprocess_run E cmd check :
  P (Done (OpRun cmd)) → (∀ e, P (Failed (OpRun cmd) e)) →
  emits P (subprocess_run E cmd check).
Proof.
  intros Hd Hf w. unfold subprocess_run.
  destruct (fault E (trace w) (OpRun cmd)) as [e|]; simpl.
  - eexists [_]. split; [done|]. by apply Forall_singleton.
  - destruct (process E (trace w) cmd (fs w)) as [code n'].
    destruct (check && _); simpl; eexists [_]; split; try done;
      by apply Forall_singleton.
Qed.

End Emits.

Lemma emits_weaken (P Q : event → Prop) {A} (m : M A) :
  (∀ ev, P ev → Q ev) → emits P m → emits Q m.
Proof.
  intros HPQ Hm w. destruct (Hm w) as (new & Ht & Hnew).
  exists new. split; [done|]. by eapply Forall_impl.
Qed.

(** ** Which failures escape a computation *)


Section FailsBy.

Context (Q : Op → exn → Prop).

Lemma fails_by_ok {A} (f : World → A * World) :
  fails_by Q (λ w, (Ok (f w).1, (f w).2)).
Proof. by intros w. Qed.

Lemma fails_by_ret {A} (a : A) : fails_by Q (mret a).
Proof. by intros w. Qed.

Lemma fails_by_bind {A B} (m : M A) (k : A → M B) :
  fails_by Q m → (∀ a, fails_by Q (k a)) → fails_by Q (m ≫= k).
Proof.
  intros Hm Hk w. rewrite bind_unfold. specialize (Hm w).
  destruct (m w) as [[a|e] w1]; [apply Hk|done].
Qed.

Lemma fails_by_for {A S} (xs : list A) (body : S → A → M S) s :
  (∀ s x, x ∈ xs → fails_by Q (body s x)) → fails_by Q (for_ xs body s).
Proof.
  revert s. induction xs as [|x xs IH]; intros s Hb; simpl.
  - apply fails_by_ret.
  - apply fails_by_bind.
    + apply Hb. by left.
    + intros s'. apply IH. intros ???. apply Hb. by right.
Qed.

(** A handler that cannot fail absorbs everything. *)
Lemma fails_by_try_ret {A} (m : M A) (a : A) :
  fails_by Q (try_ m (λ _, mret a)).
Proof. intros w. rewrite try_unfold. by destruct (m w) as [[?|?] ?]. Qed.

Lemma fails_by_syscall E {A} op (act : node → Res (A * node)) :
  (∀ e, Q op e) → fails_by Q (syscall E op act).
Proof.
  intros HQ w. destruct (syscall E op act w) as [r w'] eqn:Hs.
  apply syscall_inv in Hs as (_ & [(e & -> & _ & Ht)|(a & -> & _ & Ht)]); eauto.
Qed.

Lemma fails_by_subprocess_run E cmd check :
  (∀ e, Q (OpRun cmd) e) → fails_by Q (subprocess_run E cmd check).
Proof.
  intros HQ w. unfold subprocess_run.
  destruct (fault E (trace w) (OpRun cmd)) as [e|]; simpl; [eauto|].
  destruct (process E (trace w) cmd (fs w)) as [code n'].
  destruct (check && _); simpl; eauto.
Qed.

End FailsBy.

Lemma fails_by_weaken (Q Q' : Op → exn → Prop) {A} (m : M A) :
  (∀ op e, Q op e → Q' op e) → fails_by Q m → fails_by Q' m.
Proof.
  intros HQ Hm w. specialize (Hm w). destruct (m w) as [[?|e] w']; [done|].
  destruct Hm as (op & rest & ? & ?). eauto.
Qed.

(** [except <class>] lets through what is not of the class. *)
Lemma fails_by_try_only (Q : Op → exn → Prop) {A} sel (m : M A) (a : A) :
  fails_by Q m →
  fails_by (λ op e, Q op e ∧ sel e = false) (try_only sel m (λ _, mret a)).
Proof.
  intros Hm w. unfold try_only. rewrite try_unfold. specialize (Hm w).
  destruct (m w) as [[?|e] w']; [done|].
  destruct (sel e) eqn:Hsel; [done|]. simpl.
  destruct Hm as (op & rest & ? & ?). eauto.
Qed.

(** * The inference orchestrator *)

Section InferenceFacts.
Import MuseTalkInference.

(** ** Strings *)


Lemma app_nil_str (s : string) : "" +:+ s = s.
Proof. done. Qed.

Lemma app_cons_str c (a b : string) : String c a +:+ b = String c (a +:+ b).
Proof. done. Qed.




Lemma endswith_slash_inv s :
  Str.endswith s "/" = true → ∃ s0, s = s0 +:+ "/".
Proof.
  induction s as [|c s IH]; simpl; [done|].
  destruct (decide (String c s = "/")) as [->|_]; [by exists ""|].
  intros [s0 ->]%IH. by exists (String c s0).
Qed.

Lemma app_assoc_str (a b c : string) : (a +:+ b) +:+ c = a +:+ b +:+ c.
Proof. induction a as [|x a IH]; [done|]. by rewrite !app_cons_str, IH. Qed.



(** ** The scan and the choice *)


Lemma find_elem {A} (P : A → bool) l x : find P l = Some x → x ∈ l ∧ P x = true.
Proof.
  induction l as [|y l IH]; simpl; [done|].
  destruct (P y) eqn:Hy.
  - intros [= ->]. split; [by left|done].
  - intros [??]%IH. split; [by right|done].
Qed.



Lemma select_target_elem first files :
  first ∈ files → select_target first files ∈ files.
Proof.
  unfold select_target. destruct (find has_marker files) eqn:Hf; [|done].
  by apply find_elem in Hf as [? _].
Qed.


Lemma select_target_unmarked first files :
  (∀ f, f ∈ files → has_marker f = false) → select_target first files = first.
Proof.
  unfold select_target. intros Hall. destruct (find has_marker files) eqn:Hfind; [|done].
  apply find_elem in Hfind as [Hin Hm]. by rewrite (Hall _ Hin) in Hm.
Qed.




(** ** The stages of [run_inference] *)

Context (E : Env).

Lemma run_inference_after_prepare v a o kw w cmd w1 :
  FS.exists_ v (fs w) = true → FS.exists_ a (fs w) = true →
  prepare E v a o kw w = (Ok cmd, w1) →
  run_inference E v a o kw w =
    try_ (output_files ← produce E cmd o; deliver E output_files o)
         (λ _, mret false) w1.
Proof.
  intros Hv Ha Hp. unfold run_inference.
  rewrite bind_unfold. unfold os_path_exists at 1. rewrite Hv. change (negb true) with false. cbv iota.
  rewrite bind_unfold. unfold os_path_exists at 1. rewrite Ha. change (negb true) with false. cbv iota.
  rewrite bind_unfold, Hp. done.
Qed.

Lemma run_inference_prepare_raises v a o kw w e w1 :
  FS.exists_ v (fs w) = true → FS.exists_ a (fs w) = true →
  prepare E v a o kw w = (Raise e, w1) →
  run_inference E v a o kw w = (Raise e, w1).
Proof.
  intros Hv Ha Hp. unfold run_inference.
  rewrite bind_unfold. unfold os_path_exists at 1. rewrite Hv. change (negb true) with false. cbv iota.
  rewrite bind_unfold. unfold os_path_exists at 1. rewrite Ha. change (negb true) with false. cbv iota.
  rewrite bind_unfold, Hp. done.
Qed.

Lemma run_inference_after_produce v a o kw w cmd w1 files w2 :
  FS.exists_ v (fs w) = true → FS.exists_ a (fs w) = true →
  prepare E v a o kw w = (Ok cmd, w1) →
  produce E cmd o w1 = (Ok files, w2) →
  run_inference E v a o kw w = try_ (deliver E files o) (λ _, mret false) w2.
Proof.
  intros Hv Ha Hp Hs. rewrite (run_inference_after_prepare _ _ _ _ _ _ _ Hv Ha Hp).
  rewrite !try_unfold, bind_unfold, Hs. done.
Qed.

Lemma produce_scan cmd o w1 files w2 :
  produce E cmd o w1 = (Ok files, w2) → files = scan (Path.dirname o) (fs w2).
Proof.
  unfold produce. intros (? & wa & _ & H)%bind_ok_inv.
  apply bind_ok_inv in H as (? & wb & _ & H).
  unfold find_generated_files in H. by simplify_eq.
Qed.

End InferenceFacts.

Section InferenceTheorems.
Import MuseTalkInference.

Context (E : Env).

(** ** What [prepare] and [produce] may do *)

Lemma getitem_merge_default kw k :
  is_Some (default_params !! k) → ∃ x, getitem (merge default_params kw) k = Ok x.
Proof.
  intros Hk. unfold getitem, merge.
  destruct (lookup_union_is_Some kw default_params k) as [_ [x ->]]; eauto.
Qed.

(** The parameter look-ups of [prepare] cannot fail: what is left is the
    creation of the directory and the writing of the file. *)
Lemma prepare_eq v a o kw :
  ∃ cfg cmd,
    prepare E v a o kw =
      (os_makedirs E config_dir;;
       write_whole E (OpSaveConfig config_path) config_path (yaml_of_config cfg);;
       mret cmd).
Proof.
  destruct (getitem_merge_default kw "bbox_shift") as [x1 H1]; [by eexists|].
  destruct (getitem_merge_default kw "batch_size") as [x2 H2]; [by eexists|].
  destruct (getitem_merge_default kw "version") as [x3 H3]; [by eexists|].
  destruct (getitem_merge_default kw "fps") as [x4 H4]; [by eexists|].
  unfold prepare, create_config. cbv zeta. rewrite H1. cbn [res_bind].
  rewrite lift_ok_bind. cbv beta iota. rewrite H1, H2, H3, H4.
  by eexists _, _.
Qed.

Lemma prepare_fails_by v a o kw :
  fails_by (λ op _, config_ops op) (prepare E v a o kw).
Proof.
  destruct (prepare_eq v a o kw) as (cfg & cmd & ->).
  apply fails_by_bind; [apply fails_by_syscall; by left|]. intros _.
  apply fails_by_bind; [apply fails_by_syscall; by right|]. intros _.
  apply fails_by_ret.
Qed.

Lemma prepare_emits v a o kw : emits before_copy (prepare E v a o kw).
Proof.
  destruct (prepare_eq v a o kw) as (cfg & cmd & ->).
  apply emits_bind; [by apply emits_syscall|]. intros _.
  apply emits_bind; [by apply emits_syscall|]. intros _.
  apply emits_ret.
Qed.

Lemma produce_emits cmd o : emits before_copy (produce E cmd o).
Proof.
  unfold produce.
  apply emits_bind.
  { unfold clean_old_outputs. apply emits_bind; [by apply emits_syscall|].
    intros names. apply emits_for. intros _ f.
    destruct (is_old_output f); [|apply emits_ret].
    apply emits_try; [by apply emits_syscall|]. intros _. apply emits_ret. }
  intros _. apply emits_bind.
  { unfold run_command. destruct (mapM _ cmd).
    - by apply emits_subprocess_run.
    - apply (emits_pure _ (λ _, Raise TypeError)). }
  intros _. apply (emits_pure _ (λ w, Ok (scan (Path.dirname o) (fs w)))).
Qed.

(** ** The claims *)


(** C2, as amended. Once the inputs are validated, the only exceptions
    that escape [run_inference] are those of creating the config directory
    and of saving the config file, which happen before the [try]; every
    exception of the later steps (cleanup, process, scan, copy, size) is
    turned into the result [False]. *)
Theorem run_inference_exception_scope v a o kw w :
  FS.exists_ v (fs w) = true → FS.exists_ a (fs w) = true →
  match prepare E v a o kw w with
  | (Raise e, w1) =>
      run_inference E v a o kw w = (Raise e, w1) ∧
      ∃ op rest, trace w1 = Failed op e :: rest ∧ config_ops op
  | (Ok cmd, w1) =>
      match (output_files ← produce E cmd o; deliver E output_files o) w1 with
      | (Ok b, w2) => run_inference E v a o kw w = (Ok b, w2)
      | (Raise _, w2) => run_inference E v a o kw w = (Ok false, w2)
      end
  end.
Proof.
  intros Hv Ha. pose proof (prepare_fails_by v a o kw w) as Hf.
  destruct (prepare E v a o kw w) as [[cmd|e] w1] eqn:Hp.
  - rewrite (run_inference_after_prepare E _ _ _ _ _ _ _ Hv Ha Hp), try_unfold.
    by destruct (@mbind M _ _ _ _ _ w1) as [[b|e] w2].
  - split; [|done]. by apply run_inference_prepare_raises.
Qed.


(** C4, as amended. When the scan finds no media file, [run_inference]
    returns [False] straight after the scan: no copy is made, so nothing
    is created or truncated at [output_path], and every primitive call of
    the run is one of the earlier steps (config directory, config file,
    listing and cleaning of the output directory, the process). What
    the cleaning step deleted stays deleted. *)
Theorem run_inference_no_output v a o kw w cmd w1 w2 :
  FS.exists_ v (fs w) = true → FS.exists_ a (fs w) = true →
  prepare E v a o kw w = (Ok cmd, w1) →
  produce E cmd o w1 = (Ok [], w2) →
  run_inference E v a o kw w = (Ok false, w2)
  ∧ scan (Path.dirname o) (fs w2) = []
  ∧ ∃ new, trace w2 = new ++ trace w ∧ Forall before_copy new.
Proof.
  intros Hv Ha Hp Hs.
  split; [by rewrite (run_inference_after_produce E _ _ _ _ _ _ _ _ _ Hv Ha Hp Hs)|].
  split; [symmetry; by eapply produce_scan|].
  destruct (prepare_emits v a o kw w) as (new1 & Ht1 & Hn1).
  destruct (produce_emits cmd o w1) as (new2 & Ht2 & Hn2).
  rewrite Hp in Ht1. rewrite Hs in Ht2. simpl in Ht1, Ht2.
  exists (new2 ++ new1). rewrite Ht2, Ht1, (assoc_L (++)).
  split; [done|]. by apply Forall_app.
Qed.

End InferenceTheorems.

Section ParameterMerge.
Import MuseTalkInference.

Lemma merge_no_overrides : merge default_params ∅ = default_params.
Proof. unfold merge. apply (left_id_L ∅ (∪)). Qed.

Lemma merge_one_override k x :
  merge default_params {[ k := x ]} = <[ k := x ]> default_params.
Proof. unfold merge. symmetry. apply insert_union_singleton_l. Qed.

(** C5. With no overrides [create_config] yields the defaults
    bbox_shift=0, batch_size=4, fps=25, version="v15",
    expression_scale=1.0; with the single override bbox_shift=-3, which is
    what the natural preset resolves to, it yields bbox_shift=-3 and the
    other four defaults. *)
Theorem create_config_merges_defaults v a :
  let natural : gmap string pyval := {[ "bbox_shift" := VInt (-3) ]} in
  let overridden := <[ "bbox_shift" := VInt (-3) ]> default_params in
  create_config v a ∅
    = Ok ([("task1", mkTask v a (VInt 0) "lipsync_output.mp4")], default_params)
  ∧ default_params !! "bbox_shift" = Some (VInt 0)
  ∧ default_params !! "batch_size" = Some (VInt 4)
  ∧ default_params !! "fps" = Some (VInt 25)
  ∧ default_params !! "version" = Some (VStr "v15")
  ∧ default_params !! "expression_scale" = Some (VFloat "1.0")
  ∧ create_config v a natural
    = Ok ([("task1", mkTask v a (VInt (-3)) "lipsync_output.mp4")], overridden)
  ∧ overridden !! "bbox_shift" = Some (VInt (-3))
  ∧ overridden !! "batch_size" = Some (VInt 4)
  ∧ overridden !! "fps" = Some (VInt 25)
  ∧ overridden !! "version" = Some (VStr "v15")
  ∧ overridden !! "expression_scale" = Some (VFloat "1.0")
  ∧ (∀ subtle shift, apply_presets true subtle shift = (-3)%Z).
Proof.
  intros natural overridden.
  assert (∀ k x, default_params !! k = Some x →
                 getitem default_params k = Ok x) as Hget.
  { intros k x Hk. unfold getitem. by rewrite Hk. }
  split.
  { unfold create_config. cbv zeta. rewrite merge_no_overrides.
    by rewrite (Hget "bbox_shift" (VInt 0)). }
  do 5 (split; [vm_compute; reflexivity|]).
  split.
  { unfold create_config, natural. cbv zeta. rewrite merge_one_override.
    unfold getitem. by rewrite lookup_insert_eq. }
  split; [apply lookup_insert_eq|].
  do 4 (split; [unfold overridden; rewrite lookup_insert_ne by done;
                vm_compute; reflexivity|]).
  done.
Qed.

End ParameterMerge.

(** ** The claims on the sample worlds *)

Section InferenceExamples.
Import MuseTalkInference Sample.


(** C2 as stated fails: with [configs] a regular file the config
    directory cannot be created, and the exception leaves
    [run_inference] although both inputs exist. *)
Lemma config_error_escapes :
  FS.exists_ "in/v.mp4" (fs configs_is_a_file) = true
  ∧ FS.exists_ "in/a.wav" (fs configs_is_a_file) = true
  ∧ (run_inference quiet "in/v.mp4" "in/a.wav"
       "/app/output/lipsync_result.mp4" kw0 configs_is_a_file).1
    = Raise NotADirectoryError.
Proof. by vm_compute. Qed.

Lemma run_inference_exception_scope_witness :
  FS.exists_ "in/v.mp4" (fs configs_is_a_file) = true
  ∧ FS.exists_ "in/a.wav" (fs configs_is_a_file) = true
  ∧ match prepare quiet "in/v.mp4" "in/a.wav" "/app/output/r.mp4" kw0
            configs_is_a_file with
    | (Raise e, w1) =>
        run_inference quiet "in/v.mp4" "in/a.wav" "/app/output/r.mp4" kw0
          configs_is_a_file = (Raise e, w1)
        ∧ ∃ op rest, trace w1 = Failed op e :: rest ∧ config_ops op
    | (Ok cmd, w1) =>
        match (output_files ← produce quiet cmd "/app/output/r.mp4";
               deliver quiet output_files "/app/output/r.mp4") w1 with
        | (Ok b, w2) =>
            run_inference quiet "in/v.mp4" "in/a.wav" "/app/output/r.mp4" kw0
              configs_is_a_file = (Ok b, w2)
        | (Raise _, w2) =>
            run_inference quiet "in/v.mp4" "in/a.wav" "/app/output/r.mp4" kw0
              configs_is_a_file = (Ok false, w2)
        end
    end.
Proof.
  split; [reflexivity|]. split; [reflexivity|].
  apply (run_inference_exception_scope quiet); reflexivity.
Defined.



(** C4 as stated fails: the result of an earlier run is at the default
    output path; the run finds no media file, returns [False], and the
    earlier result is gone, deleted by the cleaning step. *)
Lemma failed_run_deletes_old_result :
  let o := "/app/output/lipsync_result.mp4" in
  let r := run_inference quiet "in/v.mp4" "in/a.wav" o kw0 with_old_result in
  FS.read o (fs with_old_result) = Some "old"
  ∧ r.1 = Ok false
  ∧ scan (Path.dirname o) (fs r.2) = []
  ∧ FS.exists_ o (fs r.2) = false
  ∧ trace r.2 !! 1%nat = Some (Done (OpRemove o)).
Proof. by vm_compute. Qed.

Lemma run_inference_no_output_witness :
  ∃ cmd w1 w2,
    FS.exists_ "in/v.mp4" (fs with_old_result) = true
    ∧ FS.exists_ "in/a.wav" (fs with_old_result) = true
    ∧ prepare quiet "in/v.mp4" "in/a.wav" "/app/output/lipsync_result.mp4"
        kw0 with_old_result = (Ok cmd, w1)
    ∧ produce quiet cmd "/app/output/lipsync_result.mp4" w1 = (Ok [], w2)
    ∧ run_inference quiet "in/v.mp4" "in/a.wav" "/app/output/lipsync_result.mp4"
        kw0 with_old_result = (Ok false, w2).
Proof.
  eexists _, _, _.
  split; [reflexivity|]. split; [reflexivity|].
  split; [vm_compute; reflexivity|]. split; [vm_compute; reflexivity|].
  refine (proj1 (run_inference_no_output quiet
            "in/v.mp4" "in/a.wav" "/app/output/lipsync_result.mp4" kw0
            with_old_result _ _ _ eq_refl eq_refl _ _));
    vm_compute; reflexivity.
Defined.

End InferenceExamples.

(** * The model provisioner *)

Section DownloadFacts.
Import DownloadModels FSFacts.

Context (E : Env).

(** ** Primitive calls that only add to the disk *)

Lemma makedirs_act_grows p n a n' :
  on_path p (λ cs, res_bind (FS.mkdirs cs n) (λ n', Ok (tt, n'))) = Ok (a, n') →
  FS.grows n n'.
Proof.
  unfold on_path. destruct (Path.resolve p) as [cs|]; [|done].
  destruct (FS.mkdirs cs n) as [n1|] eqn:Hm; [|done].
  intros [= _ <-]. by eapply mkdirs_grows.
Qed.

Lemma put_act_grows p d n a n' :
  on_path p (λ cs, res_bind (FS.put cs d n) (λ n', Ok (tt, n'))) = Ok (a, n') →
  FS.grows n n'.
Proof.
  unfold on_path. destruct (Path.resolve p) as [cs|]; [|done].
  destruct (FS.put cs d n) as [n1|] eqn:Hm; [|done].
  intros [= _ <-]. by eapply put_grows.
Qed.

Section Kept.

Context (p : string) (before : list line).

Lemma kept_syscall {A} op (act : node → Res (A * node)) :
  (∀ n a n', act n = Ok (a, n') → FS.grows n n') →
  inv (kept_present p before) (syscall E op act).
Proof.
  intros Hact w [Hp Hout]. destruct (syscall E op act w) as [r w'] eqn:Hs.
  apply syscall_inv in Hs as (Hstd & [(e & _ & Hfs & _)|(a & _ & Ha & _)]);
    simpl; split; rewrite ?Hstd, ?Hfs; try done.
  by eapply Hact.
Qed.

Lemma kept_print l :
  (∀ d, l ≠ Downloading d p) → inv (kept_present p before) (print l).
Proof.
  intros Hl w [Hp Hout]. split; [done|]. simpl.
  intros d [Heq|Hin]%elem_of_cons; [by destruct (Hl d)|by apply Hout].
Qed.

Lemma kept_get url : inv (kept_present p before) (requests_get E url).
Proof.
  intros w Hw. unfold requests_get.
  by destruct (fault E (trace w) (OpGet url)).
Qed.

Lemma kept_exists q : inv (kept_present p before) (os_path_exists q).
Proof. by intros w Hw. Qed.

Lemma kept_run cmd check :
  processes_keep_files E → inv (kept_present p before) (subprocess_run E cmd check).
Proof.
  intros HE w [Hp Hout]. unfold subprocess_run.
  destruct (fault E (trace w) (OpRun cmd)); [done|].
  specialize (HE (trace w) cmd (fs w) p Hp).
  destruct (process E (trace w) cmd (fs w)) as [code n'].
  by destruct (check && _).
Qed.

Lemma kept_makedirs q : inv (kept_present p before) (os_makedirs E q).
Proof. apply kept_syscall. intros n a n'. apply makedirs_act_grows. Qed.

Lemma kept_open q : inv (kept_present p before) (open_w E q).
Proof. apply kept_syscall. intros n a n'. apply put_act_grows. Qed.

Lemma kept_write q data : inv (kept_present p before) (f_write E q data).
Proof.
  apply kept_syscall. intros n a n'. destruct (FS.read q n); [|done].
  apply put_act_grows.
Qed.

Lemma kept_getsize q : inv (kept_present p before) (os_path_getsize E q).
Proof.
  apply kept_syscall. intros n a n' H.
  destruct (FS.at_path q n) as [[?|?]|]; simplify_eq; apply grows_refl.
Qed.

(** A download to another path leaves [p] alone. *)
Lemma kept_download_file url filepath description :
  filepath ≠ p →
  inv (kept_present p before) (download_file E url filepath description).
Proof.
  intros Hne. unfold download_file.
  apply inv_bind; [apply kept_print; congruence|]. intros _.
  apply inv_bind; [apply kept_makedirs|]. intros _.
  apply inv_try.
  - unfold fetch.
    apply inv_bind; [apply kept_get|]. intros response.
    apply inv_bind; [apply inv_if; [apply inv_ret|apply inv_raise]|]. intros _.
    apply inv_bind; [apply inv_lift|]. intros _.
    apply inv_bind; [apply kept_open|]. intros _.
    apply inv_bind.
    { apply inv_for. intros _ chunk _.
      destruct (decide (chunk = "")); [apply inv_ret|apply kept_write]. }
    intros _. apply inv_bind.
    { destruct (stream_error response); [apply inv_raise|apply inv_ret]. }
    intros _. apply inv_bind; [by apply kept_print|]. intros _. apply inv_ret.
  - intros _. apply inv_bind; [by apply kept_print|]. intros _. apply inv_ret.
Qed.

(** One turn of a download loop: a present file is skipped. *)
Lemma kept_turn url filepath description (success : bool) :
  inv (kept_present p before)
    (present ← os_path_exists filepath;
     if negb present then
       ok ← download_file E url filepath description;
       if negb ok then mret false else mret success
     else mret success).
Proof.
  intros w Hw. rewrite bind_unfold. unfold os_path_exists at 1.
  destruct (decide (filepath = p)) as [->|Hne].
  - destruct Hw as [Hp Hout]. rewrite Hp. by split.
  - destruct (FS.exists_ filepath (fs w)); [done|]. simpl negb. cbv iota.
    revert w Hw. apply inv_bind; [by apply kept_download_file|].
    intros ok. destruct ok; apply inv_ret.
Qed.

Lemma kept_download_models models :
  inv (kept_present p before) (download_models E models).
Proof.
  unfold download_models. apply inv_for. intros success [filepath i] _.
  apply kept_turn.
Qed.

Lemma kept_manual : inv (kept_present p before) (manual_download_musetalk E).
Proof.
  unfold manual_download_musetalk.
  apply inv_bind; [apply kept_makedirs|]. intros _. apply kept_download_models.
Qed.

Lemma kept_whisper : inv (kept_present p before) (setup_whisper_models E).
Proof.
  unfold setup_whisper_models.
  apply inv_bind; [apply kept_makedirs|]. intros _.
  apply inv_for. intros success [filename url] _. apply kept_turn.
Qed.

Lemma kept_main :
  processes_keep_files E → inv (kept_present p before) (main E).
Proof.
  intros HE. unfold main.
  apply inv_bind.
  { unfold download_with_hf_cli. apply inv_try.
    - apply inv_bind; [by apply kept_run|]. intros _.
      apply inv_bind; [by apply kept_run|]. intros _. apply inv_ret.
    - intros _. apply inv_ret. }
  intros hf. apply inv_bind.
  { destruct hf; simpl; [apply inv_ret|].
    apply inv_bind; [apply kept_manual|]. intros _. apply inv_ret. }
  intros _. apply inv_bind; [apply kept_download_models|]. intros _.
  apply inv_bind; [apply kept_whisper|]. intros _.
  apply inv_bind.
  { unfold verify_critical_files. apply inv_for. intros missing q _.
    apply inv_bind; [apply kept_exists|]. intros present.
    destruct present; [|apply inv_ret].
    apply inv_bind; [apply kept_getsize|]. intros _. apply inv_ret. }
  intros missing. destruct missing; apply inv_ret.
Qed.

End Kept.

Lemma kept_present_start p w :
  FS.exists_ p (fs w) = true → kept_present p (stdout w) w.
Proof. by split. Qed.

(** C7. A file that exists at the target path of an artifact is not
    downloaded again: the three per-file download functions never call
    [download_file] for a path that is on disk when they start, whatever
    the file holds. The same holds of a whole run of the script as long
    as the external tools it starts do not remove files. *)
Theorem present_file_not_downloaded p w :
  FS.exists_ p (fs w) = true →
  (∀ d, Downloading d p ∈ stdout (manual_download_musetalk E w).2 →
        Downloading d p ∈ stdout w)
  ∧ (∀ d, Downloading d p ∈ stdout (download_other_models E w).2 →
          Downloading d p ∈ stdout w)
  ∧ (∀ d, Downloading d p ∈ stdout (setup_whisper_models E w).2 →
          Downloading d p ∈ stdout w)
  ∧ (processes_keep_files E →
     ∀ d, Downloading d p ∈ stdout (main E w).2 → Downloading d p ∈ stdout w).
Proof.
  intros Hp. pose proof (kept_present_start p w Hp) as Hw.
  split; [apply (kept_manual p _ w Hw)|].
  split; [apply (kept_download_models p _ _ w Hw)|].
  split; [apply (kept_whisper p _ w Hw)|].
  intros HE. apply (kept_main p _ HE w Hw).
Qed.

End DownloadFacts.

Section DownloadTheorems.
Import DownloadModels FSFacts.

Context (E : Env).

(** ** The loops against the specification's reading *)

Lemma download_loop_conjunction (items : list (string * string * string)) acc w :
  for_ items (λ (success : bool) item,
      present ← os_path_exists item.1.1;
      if negb present then
        ok ← download_file E item.1.2 item.1.1 item.2;
        if negb ok then mret false else mret success
      else mret success) acc w
  = (bs ← attempt_all E items; mret (acc && forallb id bs)) w.
Proof.
  revert acc w. induction items as [|[[filepath url] description] items IH];
    intros acc w.
  - cbn [for_ attempt_all]. rewrite bind_unfold, !ret_unfold. cbn [forallb].
    by rewrite andb_true_r.
  - cbn [for_ attempt_all attempt]. rewrite !bind_unfold.
    unfold os_path_exists. cbn [fst snd].
    destruct (FS.exists_ filepath (fs w)); cbn [negb].
    + rewrite !ret_unfold, IH, !bind_unfold.
      destruct (attempt_all E items w) as [[bs|e] w']; [|done].
      by rewrite !ret_unfold.
    + rewrite !bind_unfold.
      destruct (download_file E url filepath description w) as [[ok|e] w1]; [|done].
      destruct ok; cbn [negb]; rewrite !ret_unfold, IH, !bind_unfold;
        (destruct (attempt_all E items w1) as [[bs|e] w']; [|done]);
        rewrite !ret_unfold; cbn [forallb id]; [done|].
      by rewrite andb_false_r.
Qed.

Lemma download_models_conjunction models w :
  download_models E models w = spec_conjunction E (items_of_models models) w.
Proof.
  etrans; [|exact (download_loop_conjunction (items_of_models models) true w)].
  unfold download_models, items_of_models. rewrite for_fmap.
  apply for_ext. by intros success [filepath i] w'.
Qed.

Lemma setup_whisper_conjunction w :
  setup_whisper_models E w
  = (os_makedirs E "models/whisper";; spec_conjunction E whisper_items) w.
Proof.
  unfold setup_whisper_models. rewrite !bind_unfold.
  destruct (os_makedirs E "models/whisper" w) as [[[]|e] w1]; [|done].
  etrans; [|exact (download_loop_conjunction whisper_items true w1)].
  unfold whisper_items. rewrite for_fmap.
  apply for_ext. by intros success [filename url] w'.
Qed.

(** ** The value of [main] *)

Lemma verify_loop files acc w :
  match for_ files (λ (missing_files : list string) filepath,
          present ← os_path_exists filepath;
          if (present : bool) then os_path_getsize E filepath;; mret missing_files
          else mret (missing_files ++ [filepath])) acc w with
  | (Ok missing, w') =>
      fs w' = fs w
      ∧ missing = acc ++ filter (λ q, FS.exists_ q (fs w) = false) files
  | (Raise _, _) => True
  end.
Proof.
  revert acc w. induction files as [|q files IH]; intros acc w.
  - cbn [for_]. rewrite ret_unfold. by rewrite filter_nil, app_nil_r.
  - cbn [for_]. rewrite !bind_unfold. unfold os_path_exists at 1.
    destruct (FS.exists_ q (fs w)) eqn:Hq.
    + rewrite bind_unfold.
      destruct (os_path_getsize E q w) as [[z|e] w1] eqn:Hsz; [|done].
      rewrite ret_unfold.
      apply syscall_inv in Hsz as (_ & [(e & ? & _)|(a & _ & Hact & _)]); [done|].
      assert (fs w1 = fs w) as Hfs.
      { destruct (FS.at_path q (fs w)) as [[?|?]|]; by simplify_eq. }
      specialize (IH acc w1). destruct (for_ files _ acc w1) as [[m|e] w2]; [|done].
      destruct IH as [-> ->]. rewrite Hfs. split; [done|].
      rewrite filter_cons_False; [done|]. by rewrite Hq.
    + rewrite ret_unfold. specialize (IH (acc ++ [q]) w).
      destruct (for_ files _ (acc ++ [q]) w) as [[m|e] w2]; [|done].
      destruct IH as [-> ->]. split; [done|].
      rewrite filter_cons_True by done. by rewrite <-(assoc_L (++)).
Qed.

Lemma forallb_exists_filter files n :
  forallb (λ q, FS.exists_ q n) files = true
  ↔ filter (λ q, FS.exists_ q n = false) files = [].
Proof.
  induction files as [|q files IH]; [done|]. cbn [forallb].
  destruct (FS.exists_ q n) eqn:Hq.
  - rewrite filter_cons_False by (by rewrite Hq). done.
  - rewrite filter_cons_True by done. done.
Qed.

Lemma main_value w :
  match main E w with
  | (Ok b, w') => b = forallb (λ q, FS.exists_ q (fs w')) critical_files
  | (Raise _, _) => True
  end.
Proof.
  unfold main.
  apply (bind_post _ _ (λ r, match r with (Ok b, w') => _ | _ => _ end)); [done|].
  intros hf w1.
  apply (bind_post _ _ (λ r, match r with (Ok b, w') => _ | _ => _ end)); [done|].
  intros _ w2.
  apply (bind_post _ _ (λ r, match r with (Ok b, w') => _ | _ => _ end)); [done|].
  intros _ w3.
  apply (bind_post _ _ (λ r, match r with (Ok b, w') => _ | _ => _ end)); [done|].
  intros _ w4. rewrite bind_unfold. unfold verify_critical_files.
  pose proof (verify_loop critical_files [] w4) as Hv.
  destruct (for_ critical_files _ [] w4) as [[missing|e] w5]; [|done].
  destruct Hv as [Hfs ->]. rewrite app_nil_l.
  destruct (filter _ critical_files) as [|q rest] eqn:Hf; rewrite ret_unfold, Hfs.
  - symmetry. by apply forallb_exists_filter.
  - symmetry. apply not_true_is_false. intros Hall%forallb_exists_filter.
    by rewrite Hall in Hf.
Qed.

(** C6, as amended. Each of the three per-file download functions returns
    the conjunction of its per-file successes, and a failed download does
    not keep the later files of its list from being attempted. The run
    as a whole does not use these values: the value of [main], and with
    it the exit status, is whether the four critical files exist once
    the downloads are over. *)
Theorem download_success_values w :
  manual_download_musetalk E w
    = (os_makedirs E "models/musetalkV15";;
       spec_conjunction E (items_of_models musetalk_models)) w
  ∧ download_other_models E w
    = spec_conjunction E (items_of_models other_models) w
  ∧ setup_whisper_models E w
    = (os_makedirs E "models/whisper";; spec_conjunction E whisper_items) w
  ∧ match main E w with
    | (Ok b, w') =>
        b = forallb (λ q, FS.exists_ q (fs w')) critical_files
        ∧ (script E w).1 = (if b then 0 else 1)%Z
    | (Raise _, _) => (script E w).1 = 1%Z
    end.
Proof.
  split.
  { unfold manual_download_musetalk. rewrite !bind_unfold.
    destruct (os_makedirs E "models/musetalkV15" w) as [[[]|e] w1]; [|done].
    apply download_models_conjunction. }
  split; [apply download_models_conjunction|].
  split; [apply setup_whisper_conjunction|].
  pose proof (main_value w) as Hm. unfold script.
  destruct (main E w) as [[b|e] w']; [|done].
  split; [done|]. by destruct b.
Qed.

End DownloadTheorems.

Section PartialDownload.
Import DownloadModels FSFacts.

Context (E : Env).

(** Once the file is there, the writes and the end of the stream leave a
    regular file at [p]. *)
Lemma written_file_stays p (chunks : list string) (err : option exn) description :
  inv (λ w, is_Some (FS.read p (fs w)))
    (for_ chunks (λ _ chunk,
       if decide (chunk = "") then mret tt else f_write E p chunk) tt;;
     from_option raise (mret tt) err;;
     print (Downloaded description);;
     (mret true : M bool)).
Proof.
  apply inv_bind.
  { apply inv_for. intros _ chunk _.
    destruct (decide (chunk = "")); [apply inv_ret|].
    intros w Hw. destruct (f_write E p chunk w) as [r w'] eqn:Hs.
    apply syscall_inv in Hs as (_ & [(e & _ & Hfs & _)|(a & _ & Hact & _)]);
      simpl; [by rewrite Hfs|].
    destruct (FS.read p (fs w)) as [d|] eqn:Hr; [|done].
    unfold on_path in Hact. destruct (Path.resolve p) as [cs|] eqn:Hp; [|done].
    destruct (FS.put cs (d +:+ chunk) (fs w)) as [n1|] eqn:Hput; [|done].
    simplify_eq/=. rewrite (put_read _ _ _ _ p Hput), decide_True by done.
    by eexists. }
  intros _. apply inv_bind; [destruct err; [apply inv_raise|apply inv_ret]|].
  intros _. apply inv_bind; [by intros w|]. intros _. apply inv_ret.
Qed.

(** If the body of the [try] got as far as creating the file, a regular
    file is at [p] when it ends. *)
Lemma fetch_keeps_created url p description w1 r w2 new :
  fetch E url p description w1 = (r, w2) →
  trace w2 = new ++ trace w1 → Done (OpOpen p) ∈ new →
  is_Some (FS.read p (fs w2)).
Proof.
  unfold fetch. rewrite bind_unfold. unfold requests_get at 1.
  destruct (fault E (trace w1) (OpGet url)) as [e|].
  { intros [= <- <-] Ht Hin. simpl in Ht.
    apply (app_inv_tail _ [_]) in Ht as <-.
    by apply list_elem_of_singleton in Hin. }
  set (response := http E (trace w1) url). rewrite bind_unfold.
  destruct (status_ok response).
  2:{ intros [= <- <-] Ht Hin. simpl in Ht.
      apply (app_inv_tail _ [_]) in Ht as <-.
      by apply list_elem_of_singleton in Hin. }
  rewrite ret_unfold, bind_unfold.
  destruct (content_length response); simpl.
  2:{ intros [= <- <-] Ht Hin. simpl in Ht.
      apply (app_inv_tail _ [_]) in Ht as <-.
      by apply list_elem_of_singleton in Hin. }
  rewrite bind_unfold.
  destruct (open_w E p (log (Done (OpGet url)) w1)) as [[[]|e] wo] eqn:Hopen.
  2:{ apply syscall_inv in Hopen as (_ & [(e' & _ & _ & Hto)|(a & ? & _)]); [|done].
      intros [= <- <-] Ht Hin. rewrite Hto in Ht. simpl in Ht.
      apply (app_inv_tail _ [_; _]) in Ht as <-.
      apply elem_of_cons in Hin as [?|Hin]; [done|].
      by apply list_elem_of_singleton in Hin. }
  intros Hrest _ _.
  assert (is_Some (FS.read p (fs wo))) as Hfile.
  { apply syscall_inv in Hopen as (_ & [(e' & ? & _)|(a & _ & Hact & _)]); [done|].
    unfold on_path in Hact. destruct (Path.resolve p) as [cs|] eqn:Hp; [|done].
    simpl in Hact.
    destruct (FS.put cs "" (fs w1)) as [n1|] eqn:Hput; [|done].
    simplify_eq/=. rewrite (put_read _ _ _ _ p Hput), decide_True by done.
    by eexists. }
  pose proof (written_file_stays p (chunks response) (stream_error response)
                description wo Hfile) as Hend.
  by rewrite Hrest in Hend.
Qed.

(** C10. When the body of the [try] in [download_file] raises after the
    target file has been created, [download_file] returns [False] and
    the file, with whatever was written to it, stays where it is; a later
    run of any of the per-file download functions finds it present and
    does not call [download_file] for it again. *)
Theorem partial_download_is_kept url p description w w1 e w2 new :
  (print (Downloading description p);; os_makedirs E (Path.dirname p)) w
    = (Ok tt, w1) →
  fetch E url p description w1 = (Raise e, w2) →
  trace w2 = new ++ trace w1 → Done (OpOpen p) ∈ new →
  let r := download_file E url p description w in
  r.1 = Ok false
  ∧ fs r.2 = fs w2
  ∧ is_Some (FS.read p (fs r.2))
  ∧ FS.exists_ p (fs r.2) = true
  ∧ ∀ E' d,
      (Downloading d p ∈ stdout (manual_download_musetalk E' r.2).2 →
       Downloading d p ∈ stdout r.2)
      ∧ (Downloading d p ∈ stdout (download_other_models E' r.2).2 →
         Downloading d p ∈ stdout r.2)
      ∧ (Downloading d p ∈ stdout (setup_whisper_models E' r.2).2 →
         Downloading d p ∈ stdout r.2).
Proof.
  intros Hpre Hfetch Ht Hin r.
  pose proof (fetch_keeps_created _ _ _ _ _ _ _ Hfetch Ht Hin) as [data Hfile].
  assert (download_file E url p description w
          = (Ok false, mkWorld (fs w2) (trace w2)
                         (DownloadFailed description :: stdout w2))) as Hr.
  { unfold download_file. rewrite bind_unfold in Hpre.
    rewrite bind_unfold. destruct (print _ w) as [[[]|?] w0]; [|done].
    rewrite bind_unfold. destruct (os_makedirs E _ w0) as [[[]|?] w1']; [|done].
    injection Hpre as ->. by rewrite try_unfold, Hfetch. }
  unfold r. rewrite Hr. simpl.
  assert (FS.exists_ p (fs w2) = true) as Hex by (by eapply read_exists).
  split; [done|]. split; [done|]. split; [by eexists|]. split; [done|].
  intros E' d.
  set (w3 := mkWorld _ _ _).
  assert (kept_present p (stdout w3) w3) as Hk by (by apply kept_present_start).
  split; [apply (kept_manual E' p _ w3 Hk)|].
  split; [apply (kept_download_models E' p _ _ w3 Hk)|].
  apply (kept_whisper E' p _ w3 Hk).
Qed.

End PartialDownload.

(** ** The provisioner on the sample worlds *)

Section DownloadExamples.
Import DownloadModels Sample.

(** C6 as stated fails: the download of the VAE config fails, so
    [download_other_models] returns [False] and the file is missing, yet
    [main] returns [True] and the script exits with 0, because the VAE
    config is not one of the critical files. *)
Lemma failed_download_exit_zero :
  let r := main vae_config_unavailable empty_disk in
  (download_other_models vae_config_unavailable empty_disk).1 = Ok false
  ∧ stdout r.2 !! 6%nat = Some (DownloadFailed "VAE config")
  ∧ FS.exists_ "models/sd-vae/config.json" (fs r.2) = false
  ∧ r.1 = Ok true
  ∧ (script vae_config_unavailable empty_disk).1 = 0%Z.
Proof. by vm_compute. Qed.

Lemma present_file_not_downloaded_witness :
  FS.exists_ "models/musetalkV15/musetalk.json" (fs config_present) = true
  ∧ (∀ d, Downloading d "models/musetalkV15/musetalk.json"
            ∈ stdout (manual_download_musetalk quiet config_present).2 →
          Downloading d "models/musetalkV15/musetalk.json" ∈ stdout config_present)
  ∧ stdout (manual_download_musetalk quiet config_present).2
    = [ Downloaded "MuseTalk 1.5 model weights (3.2GB)";
        Downloading "MuseTalk 1.5 model weights (3.2GB)"
                    "models/musetalkV15/unet.pth" ].
Proof.
  split; [vm_compute; reflexivity|]. split; [|vm_compute; reflexivity].
  refine (proj1 (present_file_not_downloaded quiet
                   "models/musetalkV15/musetalk.json" config_present _)).
  vm_compute; reflexivity.
Defined.

Lemma partial_download_is_kept_witness :
  let p := "models/musetalkV15/unet.pth" in
  ∃ w1 e w2 new,
    (print (Downloading "weights" p);; os_makedirs dropped_stream (Path.dirname p))
      empty_disk = (Ok tt, w1)
    ∧ fetch dropped_stream "u" p "weights" w1 = (Raise e, w2)
    ∧ trace w2 = new ++ trace w1
    ∧ Done (OpOpen p) ∈ new
    ∧ (download_file dropped_stream "u" p "weights" empty_disk).1 = Ok false
    ∧ FS.read p (fs (download_file dropped_stream "u" p "weights" empty_disk).2)
      = Some "abcdef".
Proof.
  intros p.
  eexists _, _, _, [Done (OpWrite p); Done (OpWrite p); Done (OpOpen p); Done (OpGet "u")].
  split; [vm_compute; reflexivity|]. split; [vm_compute; reflexivity|].
  split; [vm_compute; reflexivity|].
  split; [rewrite !elem_of_cons; auto|].
  split; [|vm_compute; reflexivity].
  refine (proj1 (partial_download_is_kept dropped_stream "u" p "weights"
                   empty_disk _ _ _
                   [Done (OpWrite p); Done (OpWrite p); Done (OpOpen p); Done (OpGet "u")]
                   _ _ _ _));
    [vm_compute; reflexivity ..|rewrite !elem_of_cons; auto].
Defined.

End DownloadExamples.

(** * The repair utility *)

Section RepairExit.
Import TroubleshootingFixes.

Context (E : Env) (test_script : string).

Lemma fails_by_exists Q p : fails_by Q (os_path_exists p).
Proof. by intros w. Qed.

Lemma fails_by_if Q {A} (b : bool) (m1 m2 : M A) :
  fails_by Q m1 → fails_by Q m2 → fails_by Q (if b then m1 else m2).
Proof. by destruct b. Qed.

Lemma create_missing_directories_fails_by :
  fails_by (escaping E) (create_missing_directories E).
Proof.
  apply fails_by_for. intros _ directory _.
  apply fails_by_bind; [apply fails_by_exists|]. intros present.
  apply fails_by_if; [by apply fails_by_syscall|apply fails_by_ret].
Qed.

Lemma install_missing_dependencies_fails_by :
  fails_by (escaping E) (install_missing_dependencies E).
Proof.
  apply fails_by_for. intros _ dep Hdep. cbv beta.
  apply (fails_by_weaken
           (λ op e, op = OpRun [executable E; "-m"; "pip"; "install"; dep]
                    ∧ bool_decide (e = CalledProcessError) = false)).
  - intros op e [-> Hsel%bool_decide_eq_false_1]. split; [done|]. by exists dep.
  - apply (fails_by_try_only (λ op _, op = OpRun _)).
    apply fails_by_bind; [|intros _; apply fails_by_ret].
    by apply fails_by_subprocess_run.
Qed.

Lemma copy_if_missing_fails_by Q target_path src_file :
  fails_by Q (copy_if_missing E target_path src_file).
Proof.
  unfold copy_if_missing.
  apply fails_by_bind; [apply fails_by_exists|]. intros have_src.
  apply fails_by_if; [|apply fails_by_ret].
  apply fails_by_bind; [apply fails_by_exists|]. intros have_dst.
  apply fails_by_if; [apply fails_by_try_ret|apply fails_by_ret].
Qed.

Lemma fix_whisper_paths_fails_by :
  fails_by (escaping E) (fix_whisper_paths E).
Proof.
  unfold fix_whisper_paths.
  apply fails_by_bind.
  { apply fails_by_for. intros _ path _. by apply fails_by_syscall. }
  intros _. apply fails_by_bind; [by intros w|]. intros srcs.
  destruct srcs as [|src srcs]; [apply fails_by_ret|].
  apply fails_by_for. intros _ target_path _.
  apply fails_by_for. intros _ src_file _. apply copy_if_missing_fails_by.
Qed.

Lemma check_gpu_setup_fails_by : fails_by (escaping E) (check_gpu_setup E).
Proof.
  apply (fails_by_weaken
           (λ op e, (op = OpImportTorch ∨ op = OpQueryCuda)
                    ∧ bool_decide (e = ImportError) = false)).
  - by intros op e [[-> | ->] Hsel%bool_decide_eq_false_1].
  - apply (fails_by_try_only (λ op _, op = OpImportTorch ∨ op = OpQueryCuda)).
    apply fails_by_bind; [|intros _]; apply fails_by_syscall; auto.
Qed.

Lemma verify_model_files_fails_by : fails_by (escaping E) (verify_model_files E).
Proof.
  apply fails_by_bind.
  - apply fails_by_for. intros missing [filepath description] _.
    apply fails_by_bind; [apply fails_by_exists|]. intros present.
    apply fails_by_if; [|apply fails_by_ret].
    apply fails_by_bind; [by apply fails_by_syscall|]. intros _. apply fails_by_ret.
  - intros missing. destruct missing; apply fails_by_ret.
Qed.

Lemma create_test_script_fails_by :
  fails_by (escaping E) (create_test_script E test_script).
Proof.
  unfold create_test_script.
  apply fails_by_bind; [by apply fails_by_syscall|]. intros _.
  apply fails_by_bind; [by apply fails_by_syscall|]. intros _.
  by apply fails_by_syscall.
Qed.

Lemma main_fails_by : fails_by (escaping E) (main E test_script).
Proof.
  unfold main.
  apply fails_by_bind; [apply create_missing_directories_fails_by|]. intros _.
  apply fails_by_bind; [apply install_missing_dependencies_fails_by|]. intros _.
  apply fails_by_bind; [apply fix_whisper_paths_fails_by|]. intros _.
  apply fails_by_bind; [apply fails_by_try_ret|]. intros _.
  apply fails_by_bind; [apply check_gpu_setup_fails_by|]. intros _.
  apply fails_by_bind; [apply verify_model_files_fails_by|]. intros models_ok.
  apply fails_by_bind; [apply create_test_script_fails_by|]. intros _.
  apply fails_by_ret.
Qed.

(** C9, as amended. The troubleshooting script exits with 0 unless one of
    a few primitive calls fails: creating a directory, asking the size of
    a model file, writing or chmod-ing [/app/test_setup.py], starting pip
    for a runtime dependency with an error other than
    [CalledProcessError], or the torch probe with an error other than
    [ImportError]. Such an exception leaves [main] and the exit status
    is 1. No other failure changes the exit status: not a pip run that
    ends with a non-zero code, not a failed copy of a whisper file, not
    the xformers fix, not a missing torch, not missing model files. *)
Theorem troubleshooting_exit_status w :
  match main E test_script w with
  | (Ok _, _) => (script E test_script w).1 = 0%Z
  | (Raise e, w') =>
      (script E test_script w).1 = 1%Z
      ∧ ∃ op rest, trace w' = Failed op e :: rest ∧ escaping E op e
  end.
Proof.
  pose proof (main_fails_by w) as Hm. unfold script.
  by destruct (main E test_script w) as [[[]|e] w'].
Qed.

End RepairExit.

Section WhisperCopies.
Import TroubleshootingFixes FSFacts.

Context (E : Env).

(** ** One primitive call at a time *)

(** [os.makedirs] changes the disk by [FS.mkdirs] or not at all. *)
Lemma os_makedirs_fs p w :
  let r := os_makedirs E p w in
  (fs r.2 = fs w ∧ ∃ e, r.1 = Raise e)
  ∨ (r.1 = Ok tt ∧ ∃ cs, Path.resolve p = Some cs ∧ FS.mkdirs cs (fs w) = Ok (fs r.2)).
Proof.
  intros r. unfold r. destruct (os_makedirs E p w) as [res w'] eqn:Hs.
  apply syscall_inv in Hs as (_ & [(e & -> & Hfs & _)|([] & -> & Hact & _)]);
    [left; eauto|right].
  split; [done|]. unfold on_path in Hact.
  destruct (Path.resolve p) as [cs|]; [|done].
  destruct (FS.mkdirs cs (fs w)) as [n1|] eqn:Hm; [|done].
  simplify_eq/=. eauto.
Qed.

Lemma isdir_exists p n : FS.isdir p n = true → FS.exists_ p n = true.
Proof.
  unfold FS.isdir, FS.exists_. destruct (FS.at_path p n) as [[?|?]|]; [done| |done].
  intros _. by apply bool_decide_eq_true_2.
Qed.

(** What one turn of the copying loops does to the disk: nothing, or it
    puts the content of the source at a destination that did not exist. *)
Lemma copy_if_missing_fs t s w r w' :
  copy_if_missing E t s w = (r, w') →
  fs w' = fs w
  ∨ ∃ cs d, Path.resolve (dst_of t s) = Some cs
            ∧ FS.exists_ (dst_of t s) (fs w) = false
            ∧ FS.put cs d (fs w) = Ok (fs w').
Proof.
  unfold copy_if_missing. rewrite bind_unfold. unfold os_path_exists at 1.
  destruct (FS.exists_ s (fs w)) eqn:Hs; [|intros [= _ <-]; by left].
  rewrite bind_unfold. unfold os_path_exists at 1. fold (dst_of t s).
  destruct (FS.exists_ (dst_of t s) (fs w)) eqn:Hd; [intros [= _ <-]; by left|].
  cbn [negb]. rewrite try_unfold.
  destruct (shutil_copy E s (dst_of t s) w) as [res w1] eqn:Hc.
  apply syscall_inv in Hc as (_ & [(e & -> & Hfs & _)|([] & -> & Hact & _)]);
    intros [= _ <-]; [by left|right].
  assert (FS.isdir (dst_of t s) (fs w) = false) as Hnd.
  { apply not_true_is_false. intros H%isdir_exists. congruence. }
  rewrite Hnd in Hact. cbv zeta in Hact.
  destruct (bool_decide _ && FS.exists_ s (fs w)); [done|].
  destruct (FS.at_path s (fs w)) as [[d|?]|]; [|done..].
  unfold on_path in Hact. destruct (Path.resolve (dst_of t s)) as [cs|]; [|done].
  destruct (FS.put cs d (fs w)) as [n1|] eqn:Hput; [|done].
  simplify_eq/=. eauto.
Qed.

(** A file that is there keeps its content. *)
Lemma copy_if_missing_keeps t s q d :
  inv (λ w, FS.read q (fs w) = Some d) (copy_if_missing E t s).
Proof.
  intros w Hq. destruct (copy_if_missing E t s w) as [r w'] eqn:Hstep.
  simpl. apply copy_if_missing_fs in Hstep as [Hfs|(cs & d' & Hr & Hx & Hput)];
    [by rewrite Hfs|].
  rewrite (put_read _ _ _ _ q Hput).
  destruct (decide (Path.resolve q = Some cs)) as [Heq|]; [|done].
  apply read_exists in Hq.
  rewrite (exists_resolve _ _ _ Heq) in Hq. rewrite (exists_resolve _ _ _ Hr) in Hx.
  congruence.
Qed.

(** Directories stay directories, and what is not there and is not the
    destination is still not there. *)
Lemma copy_if_missing_isdir t s q w :
  FS.isdir q (fs (copy_if_missing E t s w).2) = FS.isdir q (fs w).
Proof.
  destruct (copy_if_missing E t s w) as [r w'] eqn:Hstep.
  simpl. apply copy_if_missing_fs in Hstep as [Hfs|(cs & d' & Hr & Hx & Hput)];
    [by rewrite Hfs|]. destruct (Path.resolve q) as [cq|] eqn:Hq.
  - rewrite !(isdir_resolve _ _ _ Hq). by apply (put_isd cs d').
  - unfold FS.isdir, FS.at_path. by rewrite Hq.
Qed.

Lemma copy_if_missing_absent t s q w :
  Path.resolve q ≠ Path.resolve (dst_of t s) →
  FS.exists_ q (fs (copy_if_missing E t s w).2) = FS.exists_ q (fs w).
Proof.
  intros Hne. destruct (copy_if_missing E t s w) as [r w'] eqn:Hstep.
  simpl. apply copy_if_missing_fs in Hstep as [Hfs|(cs & d' & Hr & Hx & Hput)];
    [by rewrite Hfs|]. destruct (Path.resolve q) as [cq|] eqn:Hq.
  - rewrite !(exists_resolve _ _ _ Hq), (put_ex _ _ _ _ Hput).
    rewrite bool_decide_eq_false_2; [by rewrite orb_false_r|]. congruence.
  - by rewrite !(exists_unresolved _ _ Hq).
Qed.

(** When the source is a regular file, the destination is missing, its
    directory is there and the copy does not fail, the copy lands. *)
Lemma copy_if_missing_lands t s d cs c w :
  FS.read s (fs w) = Some d →
  FS.exists_ (dst_of t s) (fs w) = false →
  Path.resolve (dst_of t s) = Some (cs ++ [c]) →
  FS.isd cs (fs w) = true →
  fault E (trace w) (OpCopy s (dst_of t s)) = None →
  FS.read (dst_of t s) (fs (copy_if_missing E t s w).2) = Some d.
Proof.
  intros Hs Hd Hr Hdir Hfault.
  unfold copy_if_missing. rewrite bind_unfold. unfold os_path_exists at 1.
  rewrite (read_exists _ _ _ Hs).
  rewrite bind_unfold. unfold os_path_exists at 1. fold (dst_of t s).
  rewrite Hd. cbn [negb]. rewrite try_unfold.
  unfold shutil_copy, syscall. rewrite Hfault.
  assert (FS.isdir (dst_of t s) (fs w) = false) as ->.
  { apply not_true_is_false. intros H%isdir_exists. congruence. }
  assert (bool_decide (Path.resolve s = Path.resolve (dst_of t s)) = false) as ->.
  { apply bool_decide_eq_false_2. intros Heq.
    assert (FS.exists_ s (fs w) = true) as Hx by (by eapply read_exists).
    destruct (Path.resolve s) as [q|] eqn:Hq.
    - rewrite (exists_resolve _ _ _ Hq) in Hx.
      rewrite (exists_resolve _ q) in Hd by congruence. congruence.
    - by rewrite (exists_unresolved _ _ Hq) in Hx. }
  cbn [andb]. unfold FS.read in Hs.
  destruct (FS.at_path s (fs w)) as [[d0|?]|]; [|done..]. injection Hs as ->.
  unfold on_path. rewrite Hr.
  rewrite (exists_resolve _ _ _ Hr) in Hd.
  destruct (put_ok_new cs c d (fs w) Hdir Hd) as [n' Hput].
  rewrite Hput. cbn. rewrite (put_read _ _ _ _ _ Hput). by rewrite decide_True.
Qed.

(** ** The two phases of [fix_whisper_paths] *)

(** Creating the directories: regular files are untouched, a path that is
    not on the way to one of the directories is neither made nor removed,
    and when all calls succeed the directories are there. *)
Lemma makedirs_phase ps w :
  let r := for_ ps (λ _ p, os_makedirs E p) tt w in
  (∀ q, FS.read q (fs r.2) = FS.read q (fs w))
  ∧ (∀ q cq, Path.resolve q = Some cq →
       forallb (λ p, match Path.resolve p with
                     | Some cp => negb (bool_decide (cq `prefix_of` cp))
                     | None => true
                     end) ps = true →
       FS.exists_ q (fs r.2) = FS.exists_ q (fs w))
  ∧ (∀ c, FS.isd c (fs w) = true → FS.isd c (fs r.2) = true)
  ∧ (r.1 = Ok tt →
     ∀ p, p ∈ ps → ∃ cp, Path.resolve p = Some cp ∧ FS.isd cp (fs r.2) = true).
Proof.
  revert w. induction ps as [|p ps IH]; intros w r.
  { unfold r. cbn [for_]. rewrite ret_unfold. simpl.
    repeat split; try done. intros _ p Hp. by apply elem_of_nil in Hp. }
  unfold r. cbn [for_]. rewrite bind_unfold.
  pose proof (os_makedirs_fs p w) as Hp.
  destruct (os_makedirs E p w) as [r1 w1]. simpl in Hp.
  destruct Hp as [[Hfs [e ->]]|[-> (cp & Hcp & Hm)]].
  { simpl. rewrite Hfs. repeat split; done. }
  specialize (IH w1). cbv zeta in IH.
  destruct (for_ ps _ tt w1) as [r2 w2]. simpl in IH |- *.
  destruct IH as (IH1 & IH2 & IH3 & IH4).
  split; [|split; [|split]].
  - intros q. rewrite IH1. by apply (mkdirs_read cp).
  - intros q cq Hq Hall. cbn [forallb] in Hall. rewrite Hcp in Hall.
    apply andb_true_iff in Hall as [Hpre Hall].
    rewrite (IH2 q cq Hq Hall), !(exists_resolve _ _ _ Hq), (mkdirs_ex _ _ _ Hm).
    apply negb_true_iff in Hpre. rewrite Hpre. apply orb_false_r.
  - intros c Hc. apply IH3. by apply (mkdirs_isd_mono cp (fs w)).
  - intros Hok q [->|Hq]%elem_of_cons; [|by apply IH4].
    exists cp. split; [done|]. apply IH3. by apply (mkdirs_isd _ (fs w)).
Qed.

(** The nested loops, as one loop over the pairs. *)
Lemma copy_loops_flat targets srcs w :
  for_ targets (λ _ target_path,
    for_ srcs (λ _ src_file, copy_if_missing E target_path src_file) tt) tt w
  = for_ (pairs_of targets srcs) (λ _ x, copy_if_missing E x.1 x.2) tt w.
Proof.
  revert w. induction targets as [|t targets IH]; intros w; [done|].
  change (pairs_of (t :: targets) srcs)
    with ((pair t <$> srcs) ++ pairs_of targets srcs).
  rewrite for_app. cbn [for_]. rewrite !bind_unfold, for_fmap. cbn [fst snd].
  destruct (for_ srcs _ tt w) as [[[]|e] w1]; [apply IH|done].
Qed.

Lemma copy_loop_keeps pairs q d :
  inv (λ w, FS.read q (fs w) = Some d)
      (for_ pairs (λ _ x, copy_if_missing E x.1 x.2) tt).
Proof. apply inv_for. intros _ x _. apply copy_if_missing_keeps. Qed.

Lemma copy_loop_ok pairs w :
  (for_ pairs (λ _ x, copy_if_missing E x.1 x.2) tt w).1 = Ok tt.
Proof.
  revert w. induction pairs as [|x pairs IH]; intros w; [done|].
  cbn [for_]. rewrite bind_unfold.
  pose proof (copy_if_missing_fails_by E (λ _ _, False) x.1 x.2 w) as Hx.
  destruct (copy_if_missing E x.1 x.2 w) as [[[]|e] w1]; [apply IH|].
  by destruct Hx as (? & ? & _ & ?).
Qed.

(** The copy of the pair [(t, s)] lands, provided no other pair of the
    loop has the same destination. *)
Lemma copy_loop_lands pairs t s d cs c w :
  (∀ h a b, fault E h (OpCopy a b) = None) →
  (t, s) ∈ pairs →
  forallb (λ x, bool_decide (Path.resolve (dst_of x.1 x.2) = Path.resolve (dst_of t s)
                             → x = (t, s))) pairs = true →
  Path.resolve (dst_of t s) = Some (cs ++ [c]) →
  FS.isd cs (fs w) = true →
  FS.read s (fs w) = Some d →
  FS.exists_ (dst_of t s) (fs w) = false →
  FS.read (dst_of t s) (fs (for_ pairs (λ _ x, copy_if_missing E x.1 x.2) tt w).2)
    = Some d.
Proof.
  intros Hfault Hin Hdistinct Hr. revert w Hin Hdistinct.
  induction pairs as [|x pairs IH]; intros w Hin Hdistinct Hdir Hs Hd.
  { by apply elem_of_nil in Hin. }
  cbn [forallb] in Hdistinct. apply andb_true_iff in Hdistinct as [Hx Hdistinct].
  apply bool_decide_eq_true_1 in Hx.
  cbn [for_]. rewrite bind_unfold.
  destruct (decide (x = (t, s))) as [->|Hne].
  - pose proof (copy_if_missing_lands t s d cs c w Hs Hd Hr Hdir (Hfault _ _ _))
      as Hland. cbn [fst snd].
    destruct (copy_if_missing E t s w) as [[[]|e] w1]; simpl in Hland |- *; [|done].
    by apply (copy_loop_keeps pairs).
  - apply elem_of_cons in Hin as [Heq|Hin]; [congruence|].
    pose proof (copy_if_missing_keeps x.1 x.2 s d w Hs) as Hs1.
    pose proof (copy_if_missing_isdir x.1 x.2) as Hdir1.
    pose proof (copy_if_missing_absent x.1 x.2 (dst_of t s) w) as Hd1.
    pose proof (copy_if_missing_fs x.1 x.2 w) as Hfs1.
    pose proof (copy_if_missing_fails_by E (λ _ _, False) x.1 x.2 w) as Hno.
    destruct (copy_if_missing E x.1 x.2 w) as [[[]|e] w1]; simpl in *;
      [|by destruct Hno as (? & ? & _ & ?)].
    apply IH; try done.
    + destruct (Hfs1 _ _ eq_refl) as [->|(cx & dx & _ & _ & Hput)]; [done|].
      by rewrite (put_isd _ _ _ _ Hput).
    + rewrite Hd1; [done|]. intros Heq. by apply Hne, Hx.
Qed.

Lemma copy_loop_lands_at pairs t s q d cs c w :
  (∀ h a b, fault E h (OpCopy a b) = None) →
  q = dst_of t s →
  bool_decide ((t, s) ∈ pairs) = true →
  forallb (λ x, bool_decide (Path.resolve (dst_of x.1 x.2) = Path.resolve (dst_of t s)
                             → x = (t, s))) pairs = true →
  Path.resolve q = Some (cs ++ [c]) →
  FS.isd cs (fs w) = true →
  FS.read s (fs w) = Some d →
  FS.exists_ q (fs w) = false →
  FS.read q (fs (for_ pairs (λ _ x, copy_if_missing E x.1 x.2) tt w).2) = Some d.
Proof.
  intros Hfault -> Hin%bool_decide_eq_true_1. by apply copy_loop_lands.
Qed.

Lemma source_files_ext n n' :
  (∀ c, c ∈ paths_to_create →
     FS.exists_ (Path.join c "config.json") n' = FS.exists_ (Path.join c "config.json") n) →
  source_files n' = source_files n.
Proof.
  intros H. unfold source_files, paths_to_create. cbn [find].
  rewrite !H; [done|..]; unfold paths_to_create; rewrite !elem_of_cons; auto.
Qed.

Lemma source_files_found n src_dir :
  find (λ c, FS.exists_ (Path.join c "config.json") n) paths_to_create = Some src_dir →
  src_dir ∈ paths_to_create
  ∧ source_files n = Path.join src_dir <$> whisper_file_names.
Proof.
  intros Hf. split; [by apply find_elem in Hf as [? _]|].
  unfold source_files. by rewrite Hf.
Qed.

(** C8, as amended. [fix_whisper_paths] takes as source the first alias
    directory that holds a [config.json], whether or not the other two
    files are there too. It never overwrites: every regular file that
    exists before the call has the same content after it. When no alias
    directory holds a [config.json], nothing is copied. Otherwise, when
    the directories can be created and no copy fails, every one of the
    three files that the source directory has is copied into every alias
    directory that lacks a file of that name. *)
Theorem fix_whisper_paths_copies w :
  let r := fix_whisper_paths E w in
  (∀ q d, FS.read q (fs w) = Some d → FS.read q (fs r.2) = Some d)
  ∧ (find (λ c, FS.exists_ (Path.join c "config.json") (fs w)) paths_to_create = None →
     ∀ q, FS.read q (fs r.2) = FS.read q (fs w))
  ∧ (r.1 = Ok tt →
     (∀ h a b, fault E h (OpCopy a b) = None) →
     ∀ src_dir t f d,
       find (λ c, FS.exists_ (Path.join c "config.json") (fs w)) paths_to_create
         = Some src_dir →
       t ∈ paths_to_create → f ∈ whisper_file_names →
       FS.read (Path.join src_dir f) (fs w) = Some d →
       FS.exists_ (Path.join t f) (fs w) = false →
       FS.read (Path.join t f) (fs r.2) = Some d).
Proof.
  intros r. unfold r, fix_whisper_paths. rewrite bind_unfold.
  pose proof (makedirs_phase paths_to_create w) as Hm. cbv zeta in Hm.
  destruct (for_ paths_to_create _ tt w) as [[[]|e] w1]; cbn [fst snd] in Hm;
    destruct Hm as (M1 & M2 & M3 & M4).
  2:{ simpl. split; [intros q d; by rewrite M1|]. split; [intros _ q; apply M1|done]. }
  specialize (M4 eq_refl).
  assert (source_files (fs w1) = source_files (fs w)) as Hsrc.
  { apply source_files_ext. intros c Hc. unfold paths_to_create in Hc.
    repeat (apply elem_of_cons in Hc as [->|Hc]); [..|by apply elem_of_nil in Hc];
      (eapply M2; [reflexivity|vm_compute; reflexivity]). }
  rewrite bind_unfold. cbv beta iota. rewrite Hsrc.
  destruct (source_files (fs w)) as [|s0 srcs] eqn:Hsf.
  { rewrite ret_unfold. simpl.
    split; [intros q d; by rewrite M1|]. split; [intros _ q; apply M1|].
    intros _ _ src_dir t f d Hfind. apply source_files_found in Hfind as [_ Hfind].
    by rewrite Hsf in Hfind. }
  rewrite copy_loops_flat.
  split; [|split].
  - intros q d Hq. apply (copy_loop_keeps (pairs_of _ _) q d w1). by rewrite M1.
  - intros Hnone. unfold source_files in Hsf. by rewrite Hnone in Hsf.
  - intros _ Hfault src_dir t f d Hfind Ht Hf Hs Hd.
    apply source_files_found in Hfind as [Hsd Hfind].
    rewrite Hsf in Hfind. rewrite Hfind.
    rewrite <-M1 in Hs.
    destruct (M4 t Ht) as (cp & Hcp & Hdir).
    unfold paths_to_create in Hsd, Ht. unfold whisper_file_names in Hf.
    repeat (apply elem_of_cons in Hsd as [->|Hsd]);
      try (by apply elem_of_nil in Hsd);
    repeat (apply elem_of_cons in Ht as [->|Ht]);
      try (by apply elem_of_nil in Ht);
    repeat (apply elem_of_cons in Hf as [->|Hf]);
      try (by apply elem_of_nil in Hf);
      vm_compute in Hcp; injection Hcp as <-;
      lazymatch goal with
      | Hsrc1 : FS.read ?s (fs w1) = Some d,
        Habs : FS.exists_ (Path.join ?t ?f) (fs w) = false |- _ =>
          assert (FS.exists_ (Path.join t f) (fs w1) = false) as Hd1
            by (etrans; [eapply M2; [reflexivity|vm_compute; reflexivity]|exact Habs]);
          lazymatch type of Hdir with
          | FS.isd ?cp _ = _ =>
              apply (copy_loop_lands_at _ t s (Path.join t f) d cp f w1 Hfault);
                [reflexivity|vm_compute; reflexivity|vm_compute; reflexivity
                |reflexivity|exact Hdir|exact Hsrc1|exact Hd1]
          end
      end.
Qed.

End WhisperCopies.

(** ** The repair utility on the sample worlds *)

Section RepairExamples.
Import TroubleshootingFixes Sample.

(** C8 as stated fails: the complete set of whisper files is in
    [models/whisper-tiny], but [models/whisper], which comes first and
    holds only a [config.json], is taken as the source; the model file
    reaches neither [models/whisper] nor [models/openai/whisper-tiny]. *)
Lemma incomplete_source_is_used :
  let r := fix_whisper_paths quiet partial_whisper in
  FS.read "models/whisper-tiny/config.json" (fs partial_whisper) = Some "c2"
  ∧ FS.read "models/whisper-tiny/preprocessor_config.json" (fs partial_whisper) = Some "p2"
  ∧ FS.read "models/whisper-tiny/pytorch_model.bin" (fs partial_whisper) = Some "m2"
  ∧ r.1 = Ok tt
  ∧ FS.read "models/openai/whisper-tiny/config.json" (fs r.2) = Some "c1"
  ∧ FS.exists_ "models/openai/whisper-tiny/pytorch_model.bin" (fs r.2) = false
  ∧ FS.exists_ "models/openai/whisper-tiny/preprocessor_config.json" (fs r.2) = false
  ∧ FS.exists_ "models/whisper/pytorch_model.bin" (fs r.2) = false.
Proof. by vm_compute. Qed.

Lemma fix_whisper_paths_copies_witness :
  let r := fix_whisper_paths quiet partial_whisper in
  r.1 = Ok tt
  ∧ FS.read "models/whisper/config.json" (fs partial_whisper) = Some "c1"
  ∧ FS.exists_ "models/openai/whisper-tiny/config.json" (fs partial_whisper) = false
  ∧ FS.read "models/openai/whisper-tiny/config.json" (fs r.2) = Some "c1".
Proof.
  intros r.
  split; [vm_compute; reflexivity|]. split; [vm_compute; reflexivity|].
  split; [vm_compute; reflexivity|].
  refine (proj2 (proj2 (fix_whisper_paths_copies quiet partial_whisper)) _ _
            "models/whisper" "models/openai/whisper-tiny" "config.json" "c1"
            _ _ _ _ _);
    [vm_compute; reflexivity|intros; reflexivity|vm_compute; reflexivity
    |unfold paths_to_create; rewrite !elem_of_cons; auto
    |unfold whisper_file_names; rewrite !elem_of_cons; auto
    |vm_compute; reflexivity|vm_compute; reflexivity].
Defined.

(** C9 as stated fails: started where there is no directory [/app],
    the script cannot write [/app/test_setup.py]; the exception leaves
    [main] and the exit status is 1. *)
Lemma missing_app_dir_exit_one :
  let r := script quiet "#!/usr/bin/env python3" empty_disk in
  r.1 = 1%Z
  ∧ head (trace r.2) = Some (Failed (OpOpen "/app/test_setup.py") FileNotFoundError).
Proof. by vm_compute. Qed.

(** With [/app] in place the same run exits with 0, although every model
    file is missing. *)
Example repair_exit_zero :
  (script quiet "#!/usr/bin/env python3" with_app_dir).1 = 0%Z.
Proof. by vm_compute. Qed.

End RepairExamples.

(** * What the primitives do to the disk *)

Section PrimitiveFacts.

Import FSFacts.

Context (E : Env).

Lemma syscall_ok {A} op (act : node → Res (A * node)) w a w' :
  syscall E op act w = (Ok a, w') →
  act (fs w) = Ok (a, fs w') ∧ trace w' = Done op :: trace w ∧ stdout w' = stdout w.
Proof.
  intros H. destruct (syscall_inv _ _ _ _ _ _ H) as [Hs [(e & He & _)|(a' & Ha & Hact & Ht)]].
  - discriminate.
  - injection Ha as <-. done.
Qed.

Lemma syscall_raise {A} op (act : node → Res (A * node)) w e w' :
  syscall E op act w = (Raise e, w') →
  fs w' = fs w ∧ trace w' = Failed op e :: trace w ∧ stdout w' = stdout w.
Proof.
  intros H. destruct (syscall_inv _ _ _ _ _ _ H) as [Hs [(e' & He & Hf & Ht)|(a' & Ha & _)]].
  - injection He as <-. done.
  - discriminate.
Qed.

Lemma write_whole_ok op p d w w' :
  write_whole E op p d w = (Ok tt, w') →
  ∃ cs, Path.resolve p = Some cs ∧ FS.put cs d (fs w) = Ok (fs w')
        ∧ trace w' = Done op :: trace w ∧ stdout w' = stdout w.
Proof.
  intros H. apply syscall_ok in H as (Hact & Ht & Hs).
  unfold on_path in Hact. destruct (Path.resolve p) as [cs|]; [|done].
  exists cs. destruct (FS.put cs d (fs w)) as [n'|]; [|done].
  cbn in Hact. injection Hact as <-. done.
Qed.

Lemma os_makedirs_ok p w w' :
  os_makedirs E p w = (Ok tt, w') →
  ∃ cs, Path.resolve p = Some cs ∧ FS.mkdirs cs (fs w) = Ok (fs w')
        ∧ trace w' = Done (OpMakedirs p) :: trace w ∧ stdout w' = stdout w.
Proof.
  intros H. apply syscall_ok in H as (Hact & Ht & Hs).
  unfold on_path in Hact. destruct (Path.resolve p) as [cs|]; [|done].
  exists cs. destruct (FS.mkdirs cs (fs w)) as [n'|]; [|done].
  cbn in Hact. injection Hact as <-. done.
Qed.

Lemma f_write_ok p data w w' :
  f_write E p data w = (Ok tt, w') →
  ∃ cs d, Path.resolve p = Some cs ∧ FS.read p (fs w) = Some d
          ∧ FS.put cs (d +:+ data) (fs w) = Ok (fs w')
          ∧ trace w' = Done (OpWrite p) :: trace w ∧ stdout w' = stdout w.
Proof.
  intros H. apply syscall_ok in H as (Hact & Ht & Hs).
  destruct (FS.read p (fs w)) as [d|]; [|done].
  unfold on_path in Hact. destruct (Path.resolve p) as [cs|]; [|done].
  exists cs, d. destruct (FS.put cs (d +:+ data) (fs w)) as [n'|]; [|done].
  cbn in Hact. injection Hact as <-. done.
Qed.

Lemma os_chmod_fs p w : fs (os_chmod E p w).2 = fs w.
Proof.
  destruct (os_chmod E p w) as [[a|e] w'] eqn:H; cbn.
  - apply syscall_ok in H as (Hact & _).
    destruct (FS.at_path p (fs w)); [|done]. by injection Hact.
  - by apply syscall_raise in H as (? & _).
Qed.

Lemma os_path_getsize_fs p w : fs (os_path_getsize E p w).2 = fs w.
Proof.
  destruct (os_path_getsize E p w) as [[a|e] w'] eqn:H; cbn.
  - apply syscall_ok in H as (Hact & _).
    destruct (FS.at_path p (fs w)) as [[?|?]|]; try done; by injection Hact.
  - by apply syscall_raise in H as (? & _).
Qed.

Lemma dirname_bare p : Str.has_slash p = false → Path.dirname p = "".
Proof.
  intros H. unfold Path.dirname.
  assert (Str.upto_last_slash p = "") as ->; [|done].
  destruct p as [|c p]; [done|]. cbn [Str.upto_last_slash]. by rewrite H.
Qed.

(** [os.makedirs("")] *)
Lemma os_makedirs_empty w :
  os_makedirs E "" w
  = (Raise (default FileNotFoundError (fault E (trace w) (OpMakedirs ""))),
     log (Failed (OpMakedirs "")
            (default FileNotFoundError (fault E (trace w) (OpMakedirs "")))) w).
Proof.
  unfold os_makedirs, syscall. by destruct (fault E (trace w) (OpMakedirs "")).
Qed.

End PrimitiveFacts.

(** * The test script of troubleshooting_fixes.py *)

Section TestScript.

Import TroubleshootingFixes FSFacts.

Context (E : Env).

(** X1.  When [create_test_script] returns, [/app/test_setup.py] holds
    exactly the script text, whatever was there before, and no other
    regular file has changed. *)
Theorem create_test_script_writes_text text w w' :
  create_test_script E text w = (Ok tt, w') →
  FS.read test_script_path (fs w') = Some text
  ∧ ∀ q, Path.resolve q ≠ Path.resolve test_script_path →
         FS.read q (fs w') = FS.read q (fs w).
Proof.
  unfold create_test_script. intros H.
  apply bind_ok_inv in H as ([] & w1 & Hopen & H).
  apply bind_ok_inv in H as ([] & w2 & Hwrite & H).
  apply write_whole_ok in Hopen as (cs & Hcs & Hput1 & _).
  apply f_write_ok in Hwrite as (cs' & d & Hcs' & Hrd & Hput2 & _).
  rewrite Hcs in Hcs'. injection Hcs' as <-.
  assert (Hfs : fs w' = fs w2).
  { rewrite <-(os_chmod_fs E test_script_path w2). by rewrite H. }
  rewrite Hfs.
  assert (d = "") as ->.
  { rewrite (put_read _ _ _ _ test_script_path Hput1) in Hrd.
    rewrite decide_True in Hrd by done. by injection Hrd. }
  split.
  - rewrite (put_read _ _ _ _ test_script_path Hput2).
    by rewrite decide_True.
  - intros q Hq.
    rewrite (put_read _ _ _ _ q Hput2), (put_read _ _ _ _ q Hput1).
    rewrite Hcs in Hq. by rewrite !decide_False.
Qed.

End TestScript.

(** * The scripts' external processes *)

Section ProcessFacts.

Context (E : Env).

Lemma subprocess_run_cases cmd check w :
  (∃ code w', subprocess_run E cmd check w = (Ok code, w')
              ∧ trace w' = Done (OpRun cmd) :: trace w ∧ stdout w' = stdout w)
  ∨ (∃ e w', subprocess_run E cmd check w = (Raise e, w')
             ∧ trace w' = Failed (OpRun cmd) e :: trace w ∧ stdout w' = stdout w
             ∧ (check = false → fault E (trace w) (OpRun cmd) = Some e)).
Proof.
  unfold subprocess_run.
  destruct (fault E (trace w) (OpRun cmd)) as [e|] eqn:Hf.
  { right. by eexists _, _. }
  destruct (process E (trace w) cmd (fs w)) as [code n'].
  destruct (check && negb (bool_decide (code = 0%Z))) eqn:Hc.
  - right. eexists _, _. split_and!; try done.
    intros ->. done.
  - left. by eexists _, _.
Qed.

Lemma calls_snoc new ev : calls (new ++ [ev]) = op_of ev :: calls new.
Proof. unfold calls. by rewrite reverse_snoc. Qed.

End ProcessFacts.

Section HfCli.

Import DownloadModels.

Context (E : Env).

(** X2.  [download_with_hf_cli] never raises.  It returns [True] exactly
    when pip and then hf were run to a zero exit status; when pip
    fails, hf is not started. *)
Theorem download_with_hf_cli_outcome w :
  let r := download_with_hf_cli E w in
  (r.1 = Ok true
   ∧ trace r.2 = Done (OpRun hf_download) :: Done (OpRun pip_install_hf) :: trace w)
  ∨ (r.1 = Ok false
     ∧ ((∃ e, trace r.2 = Failed (OpRun pip_install_hf) e :: trace w)
        ∨ (∃ e, trace r.2 = Failed (OpRun hf_download) e
                             :: Done (OpRun pip_install_hf) :: trace w))).
Proof.
  cbv zeta. unfold download_with_hf_cli. rewrite try_unfold, bind_unfold.
  fold pip_install_hf. fold hf_download.
  destruct (subprocess_run_cases E pip_install_hf true w)
    as [(c1 & w1 & -> & Ht1 & _)|(e1 & w1 & -> & Ht1 & _)].
  - rewrite bind_unfold.
    destruct (subprocess_run_cases E hf_download true w1)
      as [(c2 & w2 & -> & Ht2 & _)|(e2 & w2 & -> & Ht2 & _)].
    + left. cbn. by rewrite Ht2, Ht1.
    + right. cbn. split; [done|]. right. exists e2. by rewrite Ht2, Ht1.
  - right. cbn. split; [done|]. left. by exists e1.
Qed.

End HfCli.

Section Pip.

Import TroubleshootingFixes.

Context (E : Env).

Lemma install_one dep w :
  let body := try_only (λ e, bool_decide (e = CalledProcessError))
                       (pip E ["install"; dep] true;; mret tt)
                       (λ _, mret tt) in
  (∃ ev w1, body w = (Ok tt, w1) ∧ trace w1 = ev :: trace w
            ∧ op_of ev = pip_install E dep)
  ∨ (∃ e w1, body w = (Raise e, w1) ∧ e ≠ CalledProcessError
             ∧ fault E (trace w) (pip_install E dep) = Some e).
Proof.
  cbv zeta. unfold try_only. rewrite try_unfold, bind_unfold. unfold pip.
  destruct (subprocess_run E ([executable E; "-m"; "pip"] ++ ["install"; dep]) true w)
    as [[c|e] w1] eqn:Hrun.
  - left. exists (Done (pip_install E dep)), w1. split; [done|].
    destruct (subprocess_run_cases E ([executable E; "-m"; "pip"] ++ ["install"; dep]) true w)
      as [(c' & w' & Hrun' & Ht & _)|(e & w' & Hrun' & _)]; [|congruence].
    rewrite Hrun in Hrun'. injection Hrun' as _ <-. done.
  - destruct (decide (e = CalledProcessError)) as [->|Hne].
    + rewrite bool_decide_eq_true_2 by done. left.
      exists (Failed (pip_install E dep) CalledProcessError), w1. split; [done|].
      destruct (subprocess_run_cases E ([executable E; "-m"; "pip"] ++ ["install"; dep]) true w)
        as [(c' & w' & Hrun' & _)|(e & w' & Hrun' & Ht & _)]; [congruence|].
      rewrite Hrun in Hrun'. injection Hrun' as <- <-. done.
    + rewrite bool_decide_eq_false_2 by done. right. exists e, w1.
      split; [done|]. split; [done|].
      unfold subprocess_run in Hrun. unfold pip_install.
      destruct (fault E (trace w) _) as [e'|] eqn:Hfault.
      * by injection Hrun as <- _.
      * destruct (process E _ _ _) as [code n'].
        destruct (_ && _); [|done]. by injection Hrun as <- _.
Qed.

Lemma install_loop deps w :
  let r := for_ deps (λ _ dep,
             try_only (λ e, bool_decide (e = CalledProcessError))
                      (pip E ["install"; dep] true;; mret tt)
                      (λ _, mret tt)) tt w in
  match r.1 with
  | Ok _ => ∃ new, trace r.2 = new ++ trace w ∧ calls new = pip_install E <$> deps
  | Raise e =>
      e ≠ CalledProcessError
      ∧ ∃ h dep, dep ∈ deps ∧ fault E h (pip_install E dep) = Some e
  end.
Proof.
  cbv zeta. revert w. induction deps as [|dep deps IH]; intros w.
  { cbn. by exists []. }
  cbn [for_]. rewrite bind_unfold.
  destruct (install_one dep w) as [(ev & w1 & -> & Ht & Hev)|(e & w1 & -> & Hne & Hf)].
  - specialize (IH w1). destruct (for_ deps _ tt w1) as [[[]|e] w2]; cbn in *.
    + destruct IH as (new & Hnew & Hcalls).
      exists (new ++ [ev]). split.
      * rewrite Hnew, Ht. by rewrite <-app_assoc.
      * rewrite calls_snoc, Hcalls, Hev. done.
    + destruct IH as (Hne & h & dep' & Hin & Hf). split; [done|].
      exists h, dep'. split; [by right|done].
  - cbn. split; [done|]. exists (trace w), dep. split; [by left|done].
Qed.

(** X3.  [install_missing_dependencies] attempts the seven packages one
    after the other, whatever the exit status of the earlier
    installations: when it returns, the calls it made are the seven pip
    commands, in the order of the list.  It raises only what starting
    one of these commands raised, if that is not a
    [CalledProcessError]. *)
Theorem install_attempts_every_dependency w :
  let r := install_missing_dependencies E w in
  match r.1 with
  | Ok _ =>
      ∃ new, trace r.2 = new ++ trace w ∧ calls new = pip_install E <$> runtime_deps
  | Raise e =>
      e ≠ CalledProcessError
      ∧ ∃ h dep, dep ∈ runtime_deps ∧ fault E h (pip_install E dep) = Some e
  end.
Proof. apply install_loop. Qed.

(** X4.  [fix_xformers_warnings] never raises, and the exit status of the
    uninstallation is ignored: unless the uninstall command could not be
    started, the installation of xformers 0.0.20 is attempted next. *)
Theorem fix_xformers_warnings_outcome w :
  let r := fix_xformers_warnings E w in
  let uninstall := OpRun [executable E; "-m"; "pip"; "uninstall"; "-y"; "xformers"] in
  let install := OpRun [executable E; "-m"; "pip"; "install"; "xformers==0.0.20"; "--no-deps"] in
  r.1 = Ok tt
  ∧ ((∃ e, fault E (trace w) uninstall = Some e
           ∧ trace r.2 = Failed uninstall e :: trace w)
     ∨ (∃ ev, op_of ev = install ∧ trace r.2 = ev :: Done uninstall :: trace w)).
Proof.
  cbv zeta. unfold fix_xformers_warnings, pip. rewrite try_unfold, bind_unfold.
  destruct (subprocess_run_cases E
              ([executable E; "-m"; "pip"] ++ ["uninstall"; "-y"; "xformers"]) false w)
    as [(c1 & w1 & -> & Ht1 & _)|(e1 & w1 & -> & Ht1 & _ & Hf)].
  - rewrite bind_unfold.
    destruct (subprocess_run_cases E
                ([executable E; "-m"; "pip"] ++ ["install"; "xformers==0.0.20"; "--no-deps"])
                true w1)
      as [(c2 & w2 & -> & Ht2 & _)|(e2 & w2 & -> & Ht2 & _)].
    + cbn. split; [done|]. right. eexists (Done _). by rewrite Ht2, Ht1.
    + cbn. split; [done|]. right. eexists (Failed _ e2). by rewrite Ht2, Ht1.
  - cbn. split; [done|]. left. exists e1. split; [by apply Hf|done].
Qed.

End Pip.

(** * Directory creation and the model check of troubleshooting_fixes.py *)

Section Directories.

Import TroubleshootingFixes FSFacts.

Context (E : Env).

Lemma isd_ex cs n : FS.isd cs n = true → FS.ex cs n = true.
Proof. unfold FS.isd, FS.ex. by destruct (FS.lookup cs n) as [[]|]. Qed.

Lemma create_loop_ok ds w w1 :
  for_ ds (λ _ directory,
    present ← os_path_exists directory;
    if negb present then os_makedirs E directory else mret tt) tt w = (Ok tt, w1) →
  (∀ d, d ∈ ds → FS.exists_ d (fs w1) = true)
  ∧ (∀ q, FS.read q (fs w1) = FS.read q (fs w))
  ∧ FS.grows (fs w) (fs w1).
Proof.
  revert w. induction ds as [|d ds IH]; intros w H.
  { cbn in H. injection H as <-. split_and!; [by intros ? ?%elem_of_nil|done|].
    apply grows_refl. }
  cbn [for_] in H. apply bind_ok_inv in H as ([] & w0 & Hbody & H).
  destruct (IH _ H) as (Hex & Hrd & Hgrow).
  rewrite bind_unfold in Hbody. unfold os_path_exists at 1 in Hbody.
  destruct (FS.exists_ d (fs w)) eqn:Hd; cbn [negb] in Hbody.
  - rewrite ret_unfold in Hbody. injection Hbody as <-.
    split_and!; [|done|done].
    intros d' [->|Hin]%elem_of_cons; [by apply Hgrow|by apply Hex].
  - apply os_makedirs_ok in Hbody as (cs & Hcs & Hmk & _).
    split_and!.
    + intros d' [->|Hin]%elem_of_cons; [|by apply Hex].
      apply Hgrow. rewrite (exists_resolve _ _ _ Hcs).
      apply isd_ex. by eapply mkdirs_isd.
    + intros q. rewrite Hrd. by eapply mkdirs_read.
    + intros q Hq. apply Hgrow. by eapply mkdirs_grows.
Qed.

Lemma create_loop_again E' ds w :
  (∀ d, d ∈ ds → FS.exists_ d (fs w) = true) →
  for_ ds (λ _ directory,
    present ← os_path_exists directory;
    if negb present then os_makedirs E' directory else mret tt) tt w = (Ok tt, w).
Proof.
  induction ds as [|d ds IH]; intros H; [done|].
  cbn [for_]. rewrite bind_unfold, bind_unfold. unfold os_path_exists at 1.
  rewrite (H d) by by left. cbn [negb]. rewrite ret_unfold.
  apply IH. intros d' Hd'. apply H. by right.
Qed.

(** X5.  When [create_missing_directories] returns, each of the ten paths
    exists, everything that existed before still exists and no regular
    file has changed.  Running it again, in whatever environment, makes
    no call and changes nothing. *)
Theorem create_missing_directories_idempotent E' w w1 :
  create_missing_directories E w = (Ok tt, w1) →
  (∀ d, d ∈ directories → FS.exists_ d (fs w1) = true)
  ∧ (∀ q, FS.read q (fs w1) = FS.read q (fs w))
  ∧ FS.grows (fs w) (fs w1)
  ∧ create_missing_directories E' w1 = (Ok tt, w1).
Proof.
  unfold create_missing_directories. intros H.
  destruct (create_loop_ok _ _ _ H) as (Hex & Hrd & Hgrow).
  split_and!; try done. by apply create_loop_again.
Qed.

Lemma verify_pairs (files : list (string * string)) w b w' :
  (missing_files ← for_ files (λ (missing_files : list string) '(filepath, _),
      present ← os_path_exists filepath;
      if (present : bool) then os_path_getsize E filepath;; mret missing_files
      else mret (missing_files ++ [filepath])) [];
   match missing_files with
   | _ :: _ => mret false
   | [] => mret true
   end) w = (Ok b, w') →
  fs w' = fs w ∧ b = forallb (λ q, FS.exists_ q (fs w)) files.*1.
Proof.
  intros H. apply bind_ok_inv in H as (missing & w1 & Hloop & H).
  pose proof (verify_loop E files.*1 [] w) as Hv.
  rewrite for_fmap in Hv.
  erewrite for_ext in Hv; [rewrite Hloop in Hv|by intros ? [] ?].
  destruct Hv as [Hfs Hmissing]. rewrite app_nil_l in Hmissing.
  assert (Hw : w' = w1) by (destruct missing; by injection H).
  subst w'. split; [done|].
  destruct (forallb _ files.*1) eqn:Hall.
  - apply forallb_exists_filter in Hall. rewrite Hall in Hmissing. subst missing.
    by injection H.
  - destruct missing as [|m ms]; [|by injection H].
    symmetry in Hmissing. apply forallb_exists_filter in Hmissing. congruence.
Qed.

Lemma critical_files_required :
  Forall (λ x, x ∈ required_files.*1) DownloadModels.critical_files.
Proof. apply (bool_decide_unpack _). by vm_compute. Qed.

(** X6.  [verify_model_files] reads the disk and leaves it as it is.  When
    it returns, its value says whether all eight required files exist;
    if they do, the four critical files that download_models.py checks
    exist as well. *)
Theorem verify_model_files_value w b w' :
  verify_model_files E w = (Ok b, w') →
  fs w' = fs w
  ∧ b = forallb (λ q, FS.exists_ q (fs w)) required_files.*1
  ∧ (b = true →
     forallb (λ q, FS.exists_ q (fs w)) DownloadModels.critical_files = true).
Proof.
  unfold verify_model_files. intros H. apply verify_pairs in H as [Hfs Hb].
  split; [done|]. split; [done|].
  intros ->. symmetry in Hb. apply forallb_forall. intros q Hq.
  rewrite forallb_forall in Hb. apply Hb.
  pose proof critical_files_required as Hsub.
  rewrite Forall_forall in Hsub. apply list_elem_of_In, Hsub, list_elem_of_In, Hq.
Qed.

End Directories.

Section DirectoryExamples.

Import TroubleshootingFixes Sample Scenario.

Lemma create_test_script_writes_text_witness :
  create_test_script quiet "#!/usr/bin/env python3" with_app_dir
    = (Ok tt, (create_test_script quiet "#!/usr/bin/env python3" with_app_dir).2)
  ∧ FS.read test_script_path
      (fs (create_test_script quiet "#!/usr/bin/env python3" with_app_dir).2)
    = Some "#!/usr/bin/env python3".
Proof.
  split; [by vm_compute|].
  refine (proj1 (create_test_script_writes_text quiet _ with_app_dir _ _)).
  by vm_compute.
Defined.

(** A regular file named [output] is taken for the directory. *)
Lemma create_missing_directories_idempotent_witness :
  create_missing_directories quiet output_is_a_file
    = (Ok tt, (create_missing_directories quiet output_is_a_file).2)
  ∧ FS.read "output" (fs (create_missing_directories quiet output_is_a_file).2)
    = Some "notes"
  ∧ create_missing_directories no_pip
      (create_missing_directories quiet output_is_a_file).2
    = (Ok tt, (create_missing_directories quiet output_is_a_file).2).
Proof.
  split; [by vm_compute|]. split; [by vm_compute|].
  refine (proj2 (proj2 (proj2
    (create_missing_directories_idempotent quiet no_pip output_is_a_file _ _)))).
  by vm_compute.
Defined.

Lemma verify_model_files_value_witness :
  verify_model_files quiet empty_disk = (Ok false, empty_disk)
  ∧ fs empty_disk = fs empty_disk.
Proof.
  split; [by vm_compute|].
  refine (proj1 (verify_model_files_value quiet empty_disk false empty_disk _)).
  by vm_compute.
Defined.

End DirectoryExamples.

(** * One download *)

Section OneDownload.

Import DownloadModels FSFacts.

Context (E : Env).

Lemma app_nil_r_str (s : string) : s +:+ "" = s.
Proof. induction s as [|c s IH]; [done|]. by rewrite app_cons_str, IH. Qed.

Lemma concat_cons_str (x : string) xs :
  String.concat "" (x :: xs) = x +:+ String.concat "" xs.
Proof.
  destruct xs as [|y ys]; cbn [String.concat].
  - by rewrite app_nil_r_str.
  - by rewrite app_nil_str.
Qed.

Lemma requests_get_ok url w response w' :
  requests_get E url w = (Ok response, w') →
  response = http E (trace w) url ∧ w' = log (Done (OpGet url)) w.
Proof.
  unfold requests_get. destruct (fault E (trace w) (OpGet url)); [done|].
  by intros [= <- <-].
Qed.

Lemma requests_get_fs url w : fs (requests_get E url w).2 = fs w.
Proof. unfold requests_get. by destruct (fault E (trace w) (OpGet url)). Qed.

(** The chunks are appended in the order they arrive; empty ones are
    skipped. *)
Lemma write_chunks p chunks acc w w' :
  for_ chunks (λ _ chunk,
    if decide (chunk = "") then mret tt else f_write E p chunk) tt w = (Ok tt, w') →
  FS.read p (fs w) = Some acc →
  FS.read p (fs w') = Some (acc +:+ String.concat "" chunks)
  ∧ stdout w' = stdout w.
Proof.
  revert acc w. induction chunks as [|c chunks IH]; intros acc w H Hacc.
  { cbn in H. injection H as <-. by rewrite app_nil_r_str. }
  cbn [for_] in H. apply bind_ok_inv in H as ([] & w1 & Hc & H).
  rewrite concat_cons_str.
  destruct (decide (c = "")) as [->|Hne].
  - rewrite ret_unfold in Hc. injection Hc as <-.
    rewrite app_nil_str. by apply IH.
  - apply f_write_ok in Hc as (cs & d & Hcs & Hrd & Hput & _ & Hout).
    rewrite Hacc in Hrd. injection Hrd as <-.
    rewrite <-app_assoc_str, <-Hout. apply IH; [done|].
    rewrite (put_read _ _ _ _ p Hput). by rewrite decide_True.
Qed.

Lemma fetch_ok url p description w1 b w2 :
  fetch E url p description w1 = (Ok b, w2) →
  let response := http E (trace w1) url in
  b = true
  ∧ FS.read p (fs w2) = Some (String.concat "" (chunks response))
  ∧ status_ok response = true ∧ stream_error response = None
  ∧ is_Some (content_length response)
  ∧ stdout w2 = Downloaded description :: stdout w1.
Proof.
  unfold fetch. intros H.
  apply bind_ok_inv in H as (response & wa & Hget & H).
  apply requests_get_ok in Hget as [-> ->].
  apply bind_ok_inv in H as ([] & wb & Hstatus & H).
  destruct (status_ok (http E (trace w1) url)) eqn:Hst; [|done].
  rewrite ret_unfold in Hstatus. injection Hstatus as <-.
  apply bind_ok_inv in H as (len & wc & Hlen & H).
  destruct (content_length (http E (trace w1) url)) as [len'|] eqn:Hcl; [|done].
  cbn in Hlen. injection Hlen as _ <-.
  apply bind_ok_inv in H as ([] & wd & Hopen & H).
  apply write_whole_ok in Hopen as (cs & Hcs & Hput & _ & Hout1).
  apply bind_ok_inv in H as ([] & we & Hloop & H).
  eapply write_chunks in Hloop as [Hrd Hout2].
  2:{ rewrite (put_read _ _ _ _ p Hput). by rewrite decide_True. }
  apply bind_ok_inv in H as ([] & wf & Herr & H).
  destruct (stream_error (http E (trace w1) url)) as [e|] eqn:Hse; [done|].
  cbn in Herr. injection Herr as <-.
  cbn in H. injection H as <- <-. cbn.
  rewrite app_nil_str in Hrd. split_and!; try done.
  by rewrite Hout2, Hout1.
Qed.

(** Before the file is opened, [fetch] changes nothing on disk. *)
Lemma fetch_refused url p description w1 :
  status_ok (http E (trace w1) url) = false
  ∨ content_length (http E (trace w1) url) = None →
  ∃ e, (fetch E url p description w1).1 = Raise e
       ∧ fs (fetch E url p description w1).2 = fs w1.
Proof.
  intros Hresp. unfold fetch. rewrite bind_unfold.
  pose proof (requests_get_fs url w1) as Hfs.
  destruct (requests_get E url w1) as [[response|e] wa] eqn:Hget; [|by exists e].
  apply requests_get_ok in Hget as [-> ->]. rewrite bind_unfold.
  destruct (status_ok (http E (trace w1) url)) eqn:Hst; [|by exists HTTPError].
  rewrite ret_unfold, bind_unfold.
  destruct Hresp as [?|Hcl]; [done|]. rewrite Hcl. by exists ValueError.
Qed.


(** X8.  When [download_file] returns [True], the file holds the chunks
    of the response in the order they came, and nothing of what the file
    held before; the server had answered with a success status and the
    stream had ended without an error. *)
Theorem download_file_stores_stream url p description w w' :
  download_file E url p description w = (Ok true, w') →
  let response := http E (Done (OpMakedirs (Path.dirname p)) :: trace w) url in
  FS.read p (fs w') = Some (String.concat "" (chunks response))
  ∧ status_ok response = true
  ∧ stream_error response = None
  ∧ stdout w' = Downloaded description :: Downloading description p :: stdout w.
Proof.
  unfold download_file. intros H.
  apply bind_ok_inv in H as ([] & w0 & Hprint & H).
  cbn in Hprint. injection Hprint as <-.
  apply bind_ok_inv in H as ([] & w1 & Hmk & H).
  apply os_makedirs_ok in Hmk as (cs & _ & _ & Ht & Hout). cbn in Ht, Hout.
  rewrite try_unfold in H.
  destruct (fetch E url p description w1) as [[b|e] w2] eqn:Hfetch; [|done].
  injection H as -> ->.
  apply fetch_ok in Hfetch as (_ & Hrd & Hst & Hse & _ & Hout2).
  rewrite Ht in Hrd, Hst, Hse. cbv zeta. by rewrite Hout2, Hout.
Qed.

(** X9.  When the server answers with an error status, or with a
    [content-length] that is not a number, [download_file] does not
    return [True] and no regular file changes: a file that is already at
    the path is neither emptied nor replaced. *)
Theorem download_file_refused url p description w :
  let response := http E (Done (OpMakedirs (Path.dirname p)) :: trace w) url in
  status_ok response = false ∨ content_length response = None →
  let r := download_file E url p description w in
  r.1 ≠ Ok true ∧ ∀ q, FS.read q (fs r.2) = FS.read q (fs w).
Proof.
  cbv zeta. intros Hresp. unfold download_file.
  rewrite bind_unfold. cbn [print]. rewrite bind_unfold.
  destruct (os_makedirs E (Path.dirname p) _) as [[[]|e] w1] eqn:Hmk.
  - apply os_makedirs_ok in Hmk as (cs & _ & Hmk & Ht & _). cbn in Hmk, Ht.
    rewrite <-Ht in Hresp.
    destruct (fetch_refused url p description w1 Hresp) as (e & Hr & Hfs).
    rewrite try_unfold.
    destruct (fetch E url p description w1) as [[b|e'] w2]; [done|].
    cbn in Hfs. rewrite bind_unfold. cbn. split; [done|]. intros q. rewrite Hfs.
    by eapply mkdirs_read.
  - apply syscall_raise in Hmk as (Hfs & _). cbn in Hfs. cbn. split; [done|].
    intros q. by rewrite Hfs.
Qed.

(** X10.  A path without a directory part makes [download_file] raise
    before anything is requested: [os.makedirs] is called with the empty
    path, outside the [try], and raises ([FileNotFoundError], unless the
    call is made to fail otherwise). *)
Theorem download_file_bare_name url p description w :
  Str.has_slash p = false →
  let e := default FileNotFoundError (fault E (trace w) (OpMakedirs "")) in
  download_file E url p description w
  = (Raise e,
     log (Failed (OpMakedirs "") e)
         (mkWorld (fs w) (trace w) (Downloading description p :: stdout w))).
Proof.
  intros Hbare. cbv zeta. unfold download_file.
  rewrite bind_unfold. cbn [print]. rewrite bind_unfold.
  by rewrite (dirname_bare _ Hbare), os_makedirs_empty.
Qed.

End OneDownload.

(** * The provisioner as a whole *)

Section DownloadMain.

Import DownloadModels.

Context (E : Env).

Lemma fails_by_print Q l : fails_by Q (print l).
Proof. by intros w. Qed.

Lemma fails_by_try Q {A} (m : M A) h :
  (∀ e, fails_by Q (h e)) → fails_by Q (try_ m h).
Proof.
  intros Hh w. rewrite try_unfold. destruct (m w) as [[a|e] w']; [done|].
  apply Hh.
Qed.

Lemma download_file_fails_by url p description :
  fails_by (λ op _, download_escaping op) (download_file E url p description).
Proof.
  unfold download_file.
  apply fails_by_bind; [apply fails_by_print|]. intros _.
  apply fails_by_bind; [apply fails_by_syscall; intros _; left; by eexists|].
  intros _. apply fails_by_try. intros _.
  apply fails_by_bind; [apply fails_by_print|]. intros _. apply fails_by_ret.
Qed.

Lemma download_turn_fails_by url p description (success : bool) :
  fails_by (λ op _, download_escaping op)
    (present ← os_path_exists p;
     if negb present then
       ok ← download_file E url p description;
       if negb ok then mret false else mret success
     else mret success).
Proof.
  apply fails_by_bind; [apply fails_by_exists|]. intros present.
  apply fails_by_if; [|apply fails_by_ret].
  apply fails_by_bind; [apply download_file_fails_by|]. intros ok.
  apply fails_by_if; apply fails_by_ret.
Qed.

Lemma download_models_fails_by models :
  fails_by (λ op _, download_escaping op) (download_models E models).
Proof.
  unfold download_models. apply fails_by_for. intros success [p i] _.
  apply download_turn_fails_by.
Qed.

(** X11.  No failure of the network, of a process or of writing a file
    leaves [main] of download_models.py.  When [main] raises, the last
    call made is an [os.makedirs] or the [os.path.getsize] of a critical
    file, and the exception is the one this call raised. *)
Theorem download_main_escapes w :
  match main E w with
  | (Ok _, _) => True
  | (Raise e, w') =>
      ∃ op rest, trace w' = Failed op e :: rest ∧ download_escaping op
  end.
Proof.
  revert w. change (fails_by (λ op _, download_escaping op) (main E)).
  unfold main.
  apply fails_by_bind; [apply fails_by_try_ret|]. intros hf_success.
  apply fails_by_bind.
  { apply fails_by_if; [|apply fails_by_ret].
    apply fails_by_bind; [|intros _; apply fails_by_ret].
    unfold manual_download_musetalk.
    apply fails_by_bind; [apply fails_by_syscall; intros _; left; by eexists|].
    intros _. apply download_models_fails_by. }
  intros _. apply fails_by_bind; [apply download_models_fails_by|]. intros _.
  apply fails_by_bind.
  { unfold setup_whisper_models.
    apply fails_by_bind; [apply fails_by_syscall; intros _; left; by eexists|].
    intros _. apply fails_by_for. intros success [filename url] _.
    apply download_turn_fails_by. }
  intros _. apply fails_by_bind.
  { unfold verify_critical_files. apply fails_by_for. intros missing p Hp.
    apply fails_by_bind; [apply fails_by_exists|]. intros present.
    apply fails_by_if; [|apply fails_by_ret].
    apply fails_by_bind; [|intros _; apply fails_by_ret].
    apply fails_by_syscall. intros _. right. by exists p. }
  intros [|??]; apply fails_by_ret.
Qed.

(** ** Which files [main] tries to download *)

Section Lines.

Context (d p : string) (before : list line).

Lemma lines_quiet {A} (m : M A) : (∀ w, stdout (m w).2 = stdout w) → inv (no_new_download d p before) m.
Proof. intros H w Hw. unfold no_new_download. by rewrite H. Qed.

Lemma lines_syscall {A} op (act : node → Res (A * node)) : inv (no_new_download d p before) (syscall E op act).
Proof.
  apply lines_quiet. intros w.
  destruct (syscall E op act w) as [r w'] eqn:H.
  by apply syscall_inv in H as [? _].
Qed.

Lemma lines_run cmd check : inv (no_new_download d p before) (subprocess_run E cmd check).
Proof.
  apply lines_quiet. intros w.
  by destruct (subprocess_run_cases E cmd check w)
    as [(c & w' & -> & _ & ?)|(e & w' & -> & _ & ? & _)].
Qed.

Lemma lines_get url : inv (no_new_download d p before) (requests_get E url).
Proof.
  apply lines_quiet. intros w. unfold requests_get.
  by destruct (fault E (trace w) (OpGet url)).
Qed.

Lemma lines_print l : l ≠ Downloading d p → inv (no_new_download d p before) (print l).
Proof.
  intros Hl w Hw. unfold no_new_download. cbn. intros [?|?]%elem_of_cons; [done|by apply Hw].
Qed.

Lemma lines_download_file url filepath description :
  filepath ≠ p → inv (no_new_download d p before) (download_file E url filepath description).
Proof.
  intros Hp. unfold download_file.
  apply inv_bind; [apply lines_print; congruence|]. intros _.
  apply inv_bind; [apply lines_syscall|]. intros _.
  apply inv_try.
  - unfold fetch. apply inv_bind; [apply lines_get|]. intros response.
    apply inv_bind; [apply inv_if; [apply inv_ret|apply inv_raise]|]. intros _.
    apply inv_bind; [apply inv_lift|]. intros _.
    apply inv_bind; [apply lines_syscall|]. intros _.
    apply inv_bind.
    { apply inv_for. intros _ chunk _. destruct (decide (chunk = "")).
      - apply inv_ret.
      - apply lines_syscall. }
    intros _. apply inv_bind.
    { destruct (stream_error response); [apply inv_raise|apply inv_ret]. }
    intros _. apply inv_bind; [by apply lines_print|]. intros _. apply inv_ret.
  - intros _. apply inv_bind; [by apply lines_print|]. intros _. apply inv_ret.
Qed.

Lemma lines_turn url filepath description (success : bool) :
  filepath ≠ p →
  inv (no_new_download d p before) (present ← os_path_exists filepath;
         if negb present then
           ok ← download_file E url filepath description;
           if negb ok then mret false else mret success
         else mret success).
Proof.
  intros Hp. apply inv_bind; [by apply lines_quiet|]. intros present.
  apply inv_if; [|apply inv_ret].
  apply inv_bind; [by apply lines_download_file|]. intros ok.
  apply inv_if; apply inv_ret.
Qed.

Lemma lines_download_models models :
  p ∉ (models.*1) → inv (no_new_download d p before) (download_models E models).
Proof.
  intros Hp. unfold download_models. apply inv_for. intros success [q i] Hq.
  apply lines_turn. intros ->. apply Hp.
  apply list_elem_of_fmap. by exists (p, i).
Qed.

Lemma lines_whisper :
  p ∉ ((λ f, "models/whisper/" +:+ f) <$> whisper_files.*1) →
  inv (no_new_download d p before) (setup_whisper_models E).
Proof.
  intros Hp. unfold setup_whisper_models.
  apply inv_bind; [apply lines_syscall|]. intros _.
  apply inv_for. intros success [filename url] Hq.
  apply lines_turn. intros <-. apply Hp.
  apply list_elem_of_fmap. exists filename. split; [done|].
  apply list_elem_of_fmap. by exists (filename, url).
Qed.

Lemma lines_verify : inv (no_new_download d p before) (verify_critical_files E).
Proof.
  unfold verify_critical_files. apply inv_for. intros missing q _.
  apply inv_bind; [by apply lines_quiet|]. intros present.
  apply inv_if; [|apply inv_ret].
  apply inv_bind; [apply lines_syscall|]. intros _. apply inv_ret.
Qed.

Lemma lines_hf : inv (no_new_download d p before) (download_with_hf_cli E).
Proof.
  unfold download_with_hf_cli. apply inv_try; [|intros _; apply inv_ret].
  apply inv_bind; [apply lines_run|]. intros _.
  apply inv_bind; [apply lines_run|]. intros _. apply inv_ret.
Qed.

End Lines.

Lemma musetalk_paths_apart p :
  p ∈ musetalk_models.*1 →
  (p ∉ other_models.*1)
  ∧ (p ∉ (λ f, "models/whisper/" +:+ f) <$> whisper_files.*1).
Proof.
  intros Hp.
  assert (H : Forall (λ p, (p ∉ other_models.*1)
                       ∧ (p ∉ (λ f, "models/whisper/" +:+ f) <$> whisper_files.*1))
                     musetalk_models.*1).
  { apply (bool_decide_unpack _). by vm_compute. }
  rewrite Forall_forall in H. by apply H.
Qed.

(** X12.  When the HuggingFace CLI reports success, [main] does not fall
    back on the manual download: it calls [download_file] for neither of
    the two MuseTalk files, whether the CLI has left them on disk or
    not. *)
Theorem hf_success_skips_manual w w1 d p :
  download_with_hf_cli E w = (Ok true, w1) →
  p ∈ musetalk_models.*1 →
  Downloading d p ∉ stdout w →
  Downloading d p ∉ stdout (main E w).2.
Proof.
  unfold main. intros Hhf Hp Hnot Hin. apply Hnot. revert Hin.
  destruct (musetalk_paths_apart p Hp) as [Hother Hwhisper].
  rewrite bind_unfold, Hhf. cbn [negb]. rewrite bind_unfold, ret_unfold.
  assert (H1 : no_new_download d p (stdout w) w1).
  { pose proof (lines_hf d p (stdout w) w) as H. rewrite Hhf in H.
    apply H. by intros ?. }
  lazymatch goal with
  | |- _ ∈ stdout (?m w1).2 → _ =>
      assert (Hinv : inv (no_new_download d p (stdout w)) m)
  end.
  { apply inv_bind; [by apply lines_download_models|]. intros _.
    apply inv_bind; [by apply lines_whisper|]. intros _.
    apply inv_bind; [apply lines_verify|]. intros [|??]; apply inv_ret. }
  exact (Hinv w1 H1).
Qed.

End DownloadMain.

Section OneDownloadExamples.

Import DownloadModels Sample Scenario.

Lemma download_file_stores_stream_witness :
  download_file three_chunks "u" "models/dwpose/dw-ll_ucoco_384.pth" "DWPose model"
      stale_model
    = (Ok true,
       (download_file three_chunks "u" "models/dwpose/dw-ll_ucoco_384.pth"
          "DWPose model" stale_model).2)
  ∧ FS.read "models/dwpose/dw-ll_ucoco_384.pth" (fs stale_model) = Some "stale"
  ∧ FS.read "models/dwpose/dw-ll_ucoco_384.pth"
      (fs (download_file three_chunks "u" "models/dwpose/dw-ll_ucoco_384.pth"
             "DWPose model" stale_model).2)
    = Some "abcdef".
Proof.
  split; [by vm_compute|]. split; [by vm_compute|].
  refine (proj1 (download_file_stores_stream three_chunks "u"
                   "models/dwpose/dw-ll_ucoco_384.pth" "DWPose model" stale_model _ _)).
  by vm_compute.
Defined.

Lemma download_file_refused_witness :
  (status_ok (http not_found
      (Done (OpMakedirs (Path.dirname "models/dwpose/dw-ll_ucoco_384.pth"))
         :: trace stale_model) "u") = false
   ∨ content_length (http not_found
      (Done (OpMakedirs (Path.dirname "models/dwpose/dw-ll_ucoco_384.pth"))
         :: trace stale_model) "u") = None)
  ∧ (download_file not_found "u" "models/dwpose/dw-ll_ucoco_384.pth" "DWPose model"
       stale_model).1 ≠ Ok true
  ∧ ∀ q, FS.read q (fs (download_file not_found "u"
                          "models/dwpose/dw-ll_ucoco_384.pth" "DWPose model"
                          stale_model).2)
         = FS.read q (fs stale_model).
Proof.
  split; [by left|].
  refine (download_file_refused not_found "u" "models/dwpose/dw-ll_ucoco_384.pth"
            "DWPose model" stale_model _).
  by left.
Defined.

Lemma download_file_bare_name_witness :
  Str.has_slash "unet.pth" = false
  ∧ (download_file quiet "u" "unet.pth" "weights" empty_disk).1
    = Raise FileNotFoundError.
Proof.
  split; [by vm_compute|].
  exact (f_equal fst (download_file_bare_name quiet "u" "unet.pth" "weights"
                        empty_disk eq_refl)).
Defined.

(** The CLI exits with 0 and leaves nothing on disk. *)
Lemma hf_success_skips_manual_witness :
  download_with_hf_cli quiet empty_disk
    = (Ok true, (download_with_hf_cli quiet empty_disk).2)
  ∧ "models/musetalkV15/unet.pth" ∈ musetalk_models.*1
  ∧ (Downloading "MuseTalk 1.5 model weights (3.2GB)" "models/musetalkV15/unet.pth"
       ∉ stdout empty_disk)
  ∧ (Downloading "MuseTalk 1.5 model weights (3.2GB)" "models/musetalkV15/unet.pth"
       ∉ stdout (main quiet empty_disk).2)
  ∧ FS.exists_ "models/musetalkV15/unet.pth" (fs (main quiet empty_disk).2) = false
  ∧ (main quiet empty_disk).1 = Ok false.
Proof.
  assert (Hin : "models/musetalkV15/unet.pth" ∈ musetalk_models.*1).
  { apply (bool_decide_unpack _). by vm_compute. }
  assert (Hnot : (Downloading "MuseTalk 1.5 model weights (3.2GB)"
                    "models/musetalkV15/unet.pth") ∉ stdout empty_disk).
  { by intros ?%elem_of_nil. }
  split; [by vm_compute|]. split; [done|]. split; [done|].
  split; [|split; by vm_compute].
  refine (hf_success_skips_manual quiet empty_disk _ _ _ _ Hin Hnot).
  by vm_compute.
Defined.

End OneDownloadExamples.

(** * The inference orchestrator: config, command and delivery *)

Section Delivery.

Import MuseTalkInference FSFacts.

Context (E : Env).

Lemma getitem_merge kw k x :
  default_params !! k = Some x →
  getitem (merge default_params kw) k = Ok (default x (kw !! k)).
Proof.
  intros Hk. unfold getitem, merge. rewrite lookup_union, Hk.
  by destruct (kw !! k).
Qed.

(** The parameter look-ups of [prepare], resolved. *)
Lemma prepare_unfold v a o kw :
  prepare E v a o kw =
    (os_makedirs E config_dir;;
     write_whole E (OpSaveConfig config_path) config_path
       (yaml_of_config (config_of v a kw));;
     mret (command o (default (VStr "v15") (kw !! "version"))
                     (default (VInt 4) (kw !! "batch_size"))
                     (default (VInt 25) (kw !! "fps")))).
Proof.
  pose proof (getitem_merge kw "bbox_shift" (VInt 0) eq_refl) as H1.
  pose proof (getitem_merge kw "batch_size" (VInt 4) eq_refl) as H2.
  pose proof (getitem_merge kw "version" (VStr "v15") eq_refl) as H3.
  pose proof (getitem_merge kw "fps" (VInt 25) eq_refl) as H4.
  unfold prepare, create_config. cbv zeta. rewrite H1. cbn [res_bind].
  rewrite lift_ok_bind. cbv beta iota. rewrite H1, H2, H3, H4.
  reflexivity.
Qed.

Lemma prepare_command v a o kw w cmd w1 :
  prepare E v a o kw w = (Ok cmd, w1) →
  cmd = command o (default (VStr "v15") (kw !! "version"))
                  (default (VInt 4) (kw !! "batch_size"))
                  (default (VInt 25) (kw !! "fps")).
Proof.
  rewrite prepare_unfold. intros H.
  apply bind_ok_inv in H as ([] & wa & Hmk & H).
  apply bind_ok_inv in H as ([] & wb & Hsave & H).
  rewrite ret_unfold in H. by injection H as <- <-.
Qed.


Lemma run_inference_without_input v a o kw w :
  FS.exists_ v (fs w) = false ∨ FS.exists_ a (fs w) = false →
  run_inference E v a o kw w = (Ok false, w).
Proof.
  intros H. unfold run_inference. rewrite bind_unfold. unfold os_path_exists at 1.
  destruct (FS.exists_ v (fs w)) eqn:Hv; [|done].
  destruct H as [H|H]; [done|].
  change (negb true) with false. cbv iota.
  rewrite bind_unfold. unfold os_path_exists at 1. by rewrite H.
Qed.

Lemma shutil_copy_ok src dst w w' :
  shutil_copy E src dst w = (Ok tt, w') →
  let dst' := if FS.isdir dst (fs w) then Path.join dst (Path.basename src) else dst in
  ∃ d cs, FS.read src (fs w) = Some d
          ∧ Path.resolve dst' = Some cs
          ∧ FS.put cs d (fs w) = Ok (fs w')
          ∧ trace w' = Done (OpCopy src dst) :: trace w.
Proof.
  intros H. apply syscall_ok in H as (Hact & Ht & _). cbv zeta in *.
  destruct (bool_decide _ && FS.exists_ src (fs w)); [done|].
  unfold FS.read. destruct (FS.at_path src (fs w)) as [[d|es]|]; [|done|done].
  unfold on_path in Hact.
  destruct (Path.resolve _) as [cs|]; [|done].
  destruct (FS.put cs d (fs w)) as [n'|] eqn:Hput; [|done].
  cbn in Hact. injection Hact as <-. by exists d, cs.
Qed.

Lemma shutil_copy_same src dst d w :
  Path.resolve src = Path.resolve dst →
  FS.read dst (fs w) = Some d →
  ∃ e, shutil_copy E src dst w = (Raise e, log (Failed (OpCopy src dst) e) w).
Proof.
  intros Hres Hrd. unfold shutil_copy, syscall.
  destruct (fault E (trace w) (OpCopy src dst)) as [e|]; [by exists e|].
  rewrite (read_not_isdir _ _ _ Hrd).
  rewrite bool_decide_eq_true_2 by done.
  assert (FS.exists_ src (fs w) = true) as ->.
  { apply read_exists in Hrd. unfold FS.exists_, FS.at_path in *.
    by rewrite Hres. }
  by exists SameFileError.
Qed.

Lemma os_path_getsize_ok p w z w' :
  os_path_getsize E p w = (Ok z, w') →
  FS.exists_ p (fs w) = true ∧ fs w' = fs w
  ∧ trace w' = Done (OpGetsize p) :: trace w.
Proof.
  intros H. apply syscall_ok in H as (Hact & Ht & _).
  unfold FS.exists_.
  destruct (FS.at_path p (fs w)) as [[d|es]|]; [| |done];
    injection Hact as _ <-; split_and!; try done; by apply bool_decide_eq_true_2.
Qed.

(** What a result [True] says about the stages of the run. *)
Lemma run_inference_true v a o kw w w3 :
  run_inference E v a o kw w = (Ok true, w3) →
  ∃ cmd w1 first rest w2,
    FS.exists_ v (fs w) = true ∧ FS.exists_ a (fs w) = true
    ∧ prepare E v a o kw w = (Ok cmd, w1)
    ∧ produce E cmd o w1 = (Ok (first :: rest), w2)
    ∧ (shutil_copy E (select_target first (first :: rest)) o;;
       os_path_getsize E o;; mret true) w2 = (Ok true, w3).
Proof.
  intros H.
  destruct (FS.exists_ v (fs w)) eqn:Hv.
  2:{ rewrite run_inference_without_input in H by by left. done. }
  destruct (FS.exists_ a (fs w)) eqn:Ha.
  2:{ rewrite run_inference_without_input in H by by right. done. }
  destruct (prepare E v a o kw w) as [[cmd|e] w1] eqn:Hp.
  2:{ by rewrite (run_inference_prepare_raises _ _ _ _ _ _ _ _ Hv Ha Hp) in H. }
  rewrite (run_inference_after_prepare _ _ _ _ _ _ _ _ Hv Ha Hp) in H.
  rewrite try_unfold in H.
  destruct (@mbind M _ _ _ _ _ w1) as [[b|e] w3'] eqn:Hrun; [|done].
  injection H as -> ->.
  apply bind_ok_inv in Hrun as (files & w2 & Hprod & Hdel).
  destruct files as [|first rest]; [done|]. cbn [deliver] in Hdel.
  by exists cmd, w1, first, rest, w2.
Qed.

(** X14.  [run_inference] returns [True] only after it has copied one of
    the files that the scan of the output directory found, and after
    [os.path.getsize] has found something at the output path.  The copy
    is then at the output path, or inside it when the output path is a
    directory, and it holds what the selected file held; up to the scan,
    nothing was copied. *)
Theorem run_inference_delivers v a o kw w w3 :
  run_inference E v a o kw w = (Ok true, w3) →
  ∃ w2 target d new,
    trace w2 = new ++ trace w
    ∧ Forall before_copy new
    ∧ target ∈ scan (Path.dirname o) (fs w2)
    ∧ FS.read target (fs w2) = Some d
    ∧ trace w3 = Done (OpGetsize o) :: Done (OpCopy target o) :: trace w2
    ∧ FS.exists_ o (fs w3) = true
    ∧ FS.read (if FS.isdir o (fs w2)
               then Path.join o (Path.basename target) else o) (fs w3) = Some d.
Proof.
  intros H.
  apply run_inference_true in H
    as (cmd & w1 & first & rest & w2 & Hv & Ha & Hp & Hprod & Hdel).
  destruct (prepare_emits E v a o kw w) as (new1 & Hnew1 & Hall1).
  destruct (produce_emits E cmd o w1) as (new2 & Hnew2 & Hall2).
  rewrite Hp in Hnew1. rewrite Hprod in Hnew2. cbn in Hnew1, Hnew2.
  pose proof (produce_scan _ _ _ _ _ _ Hprod) as Hfiles.
  apply bind_ok_inv in Hdel as ([] & wc & Hcopy & Hdel).
  apply bind_ok_inv in Hdel as (z & wd & Hsize & Hret).
  rewrite ret_unfold in Hret. injection Hret as <-.
  apply shutil_copy_ok in Hcopy as (d & cs & Hrd & Hcs & Hput & Htc).
  apply os_path_getsize_ok in Hsize as (Hex & Hfs & Hts).
  exists w2, (select_target first (first :: rest)), d, (new2 ++ new1).
  split_and!.
  - by rewrite Hnew2, Hnew1, app_assoc.
  - by apply Forall_app.
  - rewrite <-Hfiles. apply select_target_elem. by left.
  - done.
  - by rewrite Hts, Htc.
  - by rewrite Hfs.
  - rewrite Hfs, (put_read _ _ _ _ _ Hput). by rewrite decide_True.
Qed.

(** X15.  When the file that is selected is the output path itself, the
    copy fails (with [SameFileError], unless the call is made to fail
    otherwise) and [run_inference] returns [False], although the result
    is in place; the disk is left as the scan found it. *)
Theorem run_inference_same_file v a o kw w cmd w1 first rest w2 d :
  FS.exists_ v (fs w) = true → FS.exists_ a (fs w) = true →
  prepare E v a o kw w = (Ok cmd, w1) →
  produce E cmd o w1 = (Ok (first :: rest), w2) →
  let target := select_target first (first :: rest) in
  Path.resolve target = Path.resolve o →
  FS.read o (fs w2) = Some d →
  ∃ e, run_inference E v a o kw w
       = (Ok false, log (Failed (OpCopy target o) e) w2).
Proof.
  intros Hv Ha Hp Hprod. cbv zeta. intros Hres Hrd.
  rewrite (run_inference_after_produce _ _ _ _ _ _ _ _ _ _ Hv Ha Hp Hprod).
  rewrite try_unfold. cbn [deliver]. rewrite bind_unfold.
  destruct (shutil_copy_same _ o d w2 Hres Hrd) as (e & ->).
  by exists e.
Qed.

(** X16.  [run_inference] does not create the output directory: when the
    directory part of the output path is not a directory once the config
    is saved, listing it fails, the inference process is not started and
    the result is [False]. *)
Theorem run_inference_without_output_dir v a o kw w cmd w1 :
  FS.exists_ v (fs w) = true → FS.exists_ a (fs w) = true →
  prepare E v a o kw w = (Ok cmd, w1) →
  FS.isdir (Path.dirname o) (fs w1) = false →
  ∃ e, run_inference E v a o kw w
       = (Ok false, log (Failed (OpListdir (Path.dirname o)) e) w1).
Proof.
  intros Hv Ha Hp Hdir.
  rewrite (run_inference_after_prepare _ _ _ _ _ _ _ _ Hv Ha Hp).
  rewrite try_unfold, bind_unfold. unfold produce. rewrite bind_unfold.
  unfold clean_old_outputs. rewrite bind_unfold.
  assert (Hls : ∃ e, os_listdir E (Path.dirname o) w1
                     = (Raise e, log (Failed (OpListdir (Path.dirname o)) e) w1)).
  { unfold os_listdir, syscall.
    destruct (fault E (trace w1) (OpListdir (Path.dirname o))) as [e|]; [by exists e|].
    unfold FS.isdir in Hdir.
    destruct (FS.at_path (Path.dirname o) (fs w1)) as [[d|es]|]; [|done|]; by eexists. }
  destruct Hls as [e ->]. by exists e.
Qed.

End Delivery.

(** * The command that is run, and the command line *)

Section CommandRun.

Import MuseTalkInference FSFacts.

Context (E : Env).

Lemma emits_bind_ok (P : event → Prop) {A B} (m : M A) (k : A → M B) (R : A → Prop) :
  (∀ w a w', m w = (Ok a, w') → R a) →
  emits P m → (∀ a, R a → emits P (k a)) → emits P (m ≫= k).
Proof.
  intros HR Hm Hk w. rewrite bind_unfold. destruct (Hm w) as (new & Ht & Hnew).
  destruct (m w) as [[a|e] w1] eqn:Hmw; simpl in *; [|eauto].
  destruct (Hk a (HR _ _ _ Hmw) w1) as (new' & Ht' & Hnew').
  exists (new' ++ new). rewrite Ht', Ht, (assoc_L (++)).
  split; [done|]. by apply Forall_app.
Qed.

Lemma runs_only_other args op :
  (∀ cmd, op ≠ OpRun cmd) →
  runs_only args (Done op) ∧ ∀ e, runs_only args (Failed op e).
Proof. intros H. split; [|intros e]; intros cmd Hcmd; by destruct (H cmd). Qed.

Lemma emits_call args {A} op (act : node → Res (A * node)) :
  (∀ cmd, op ≠ OpRun cmd) → emits (runs_only args) (syscall E op act).
Proof.
  intros H. destruct (runs_only_other args op H). by apply emits_syscall.
Qed.

Lemma run_command_emits cmd : emits (runs_only (strings_of cmd)) (run_command E cmd).
Proof.
  unfold run_command. fold (strings_of cmd).
  destruct (strings_of cmd) as [args|].
  - apply emits_subprocess_run; [|intros e]; intros c [= <-]; done.
  - apply (emits_pure _ (λ _, Raise TypeError)).
Qed.

Lemma run_inference_emits v a o kw :
  emits (runs_only (strings_of (command o (default (VStr "v15") (kw !! "version"))
                                          (default (VInt 4) (kw !! "batch_size"))
                                          (default (VInt 25) (kw !! "fps")))))
        (run_inference E v a o kw).
Proof.
  unfold run_inference. set (args := strings_of _).
  apply emits_bind; [apply (emits_pure _ (λ w, Ok (FS.exists_ v (fs w))))|].
  intros present_v. destruct (negb present_v); [apply emits_ret|].
  apply emits_bind; [apply (emits_pure _ (λ w, Ok (FS.exists_ a (fs w))))|].
  intros present_a. destruct (negb present_a); [apply emits_ret|].
  apply (emits_bind_ok _ _ _
           (λ cmd, cmd = command o (default (VStr "v15") (kw !! "version"))
                                   (default (VInt 4) (kw !! "batch_size"))
                                   (default (VInt 25) (kw !! "fps")))).
  { intros w cmd w1 Hp. by apply prepare_command in Hp. }
  { rewrite prepare_unfold.
    apply emits_bind; [by apply emits_call|]. intros _.
    apply emits_bind; [by apply emits_call|]. intros _. apply emits_ret. }
  intros cmd ->. apply emits_try; [|intros _; apply emits_ret].
  apply emits_bind.
  { unfold produce. apply emits_bind.
    { unfold clean_old_outputs. apply emits_bind; [by apply emits_call|].
      intros names. apply emits_for. intros _ f.
      destruct (is_old_output f); [|apply emits_ret].
      apply emits_try; [by apply emits_call|]. intros _. apply emits_ret. }
    intros _. apply emits_bind; [apply run_command_emits|]. intros _.
    apply (emits_pure _ (λ w, Ok (scan (Path.dirname o) (fs w)))). }
  intros [|first rest]; [apply emits_ret|]. cbn [deliver].
  apply emits_bind; [by apply emits_call|]. intros _.
  apply emits_bind; [by apply emits_call|]. intros _. apply emits_ret.
Qed.

End CommandRun.

Section NonStringVersion.

Import MuseTalkInference FSFacts.

Context (E : Env).

Lemma strings_of_non_string o x b f :
  (∀ s, x ≠ VStr s) → strings_of (command o x b f) = None.
Proof. intros Hx. destruct x as [z|s|r]; [done|by destruct (Hx s)|done]. Qed.

Lemma produce_needs_strings cmd o w1 files w2 :
  produce E cmd o w1 = (Ok files, w2) → is_Some (strings_of cmd).
Proof.
  unfold produce. intros H.
  apply bind_ok_inv in H as ([] & wa & _ & H).
  apply bind_ok_inv in H as (z & wb & Hrun & _).
  unfold run_command in Hrun. fold (strings_of cmd) in Hrun.
  by destruct (strings_of cmd).
Qed.

(** X17.  A [version] that is not a string makes the command unusable:
    [run_inference] starts no process and does not return [True]. *)
Theorem run_inference_non_string_version v a o kw x w :
  kw !! "version" = Some x → (∀ s, x ≠ VStr s) →
  let r := run_inference E v a o kw w in
  r.1 ≠ Ok true
  ∧ ∃ new, trace r.2 = new ++ trace w
           ∧ Forall (λ ev, ∀ cmd, op_of ev ≠ OpRun cmd) new.
Proof.
  intros Hkw Hx. cbv zeta.
  pose proof (strings_of_non_string o x (default (VInt 4) (kw !! "batch_size"))
                (default (VInt 25) (kw !! "fps")) Hx) as Hnone.
  assert (Hd : default (VStr "v15") (kw !! "version") = x) by by rewrite Hkw.
  split.
  - destruct (run_inference E v a o kw w) as [r w3] eqn:Hrun. cbn. intros ->.
    apply run_inference_true in Hrun
      as (cmd & w1 & first & rest & w2 & _ & _ & Hp & Hprod & _).
    apply prepare_command in Hp as ->.
    apply produce_needs_strings in Hprod as [args Hargs].
    rewrite Hd in Hargs. congruence.
  - destruct (run_inference_emits E v a o kw w) as (new & Hnew & Hall).
    exists new. split; [done|].
    rewrite Hd, Hnone in Hall.
    eapply Forall_impl; [exact Hall|]. intros ev Hev cmd Hcmd.
    by specialize (Hev cmd Hcmd).
Qed.

End NonStringVersion.

Section CommandLine.

Import MuseTalkInference InferenceMain FSFacts.

Context (E : Env).

Lemma kwargs_lookups a :
  kwargs a !! "version" = None
  ∧ kwargs a !! "batch_size" = Some (VInt (batch_size a))
  ∧ kwargs a !! "fps" = Some (VInt (fps a))
  ∧ kwargs a !! "bbox_shift"
    = Some (VInt (apply_presets (natural a) (subtle a) (bbox_shift a))).
Proof. unfold kwargs. split_and!; by simplify_map_eq. Qed.

Lemma strings_of_main a :
  strings_of (command (output a) (default (VStr "v15") (kwargs a !! "version"))
                      (default (VInt 4) (kwargs a !! "batch_size"))
                      (default (VInt 25) (kwargs a !! "fps")))
  = Some (command_line a).
Proof.
  destruct (kwargs_lookups a) as (-> & -> & -> & _). reflexivity.
Qed.

(** X18.  The process that [main] of musetalk_inference.py starts, if it
    starts one, is the inference module with the batch size and the
    frame rate of the command line, in decimal, and with version v15;
    [main] starts no other process. *)
Theorem main_starts_command_line a w :
  ∃ new, trace (main E a w).2 = new ++ trace w
         ∧ Forall (runs_only (Some (command_line a))) new.
Proof.
  revert w. change (emits (runs_only (Some (command_line a))) (main E a)).
  unfold main. apply emits_bind; [by apply emits_call|]. intros _.
  rewrite <-strings_of_main. apply run_inference_emits.
Qed.


(** X20.  An output path without a directory part stops [main] before
    anything is checked or run: [os.makedirs] is called with the empty
    path and raises ([FileNotFoundError], unless the call is made to fail
    otherwise), so the exit status is 1. *)
Theorem main_bare_output a w :
  Str.has_slash (output a) = false →
  let e := default FileNotFoundError (fault E (trace w) (OpMakedirs "")) in
  main E a w = (Raise e, log (Failed (OpMakedirs "") e) w)
  ∧ (script E a w).1 = 1%Z.
Proof.
  intros Hbare. cbv zeta.
  assert (Hmain : main E a w
                  = (Raise (default FileNotFoundError (fault E (trace w) (OpMakedirs ""))),
                     log (Failed (OpMakedirs "")
                            (default FileNotFoundError
                               (fault E (trace w) (OpMakedirs "")))) w)).
  { unfold main. by rewrite (dirname_bare _ Hbare), bind_unfold, os_makedirs_empty. }
  split; [done|]. unfold script. by rewrite Hmain.
Qed.

End CommandLine.

Section InferenceMoreExamples.

Import MuseTalkInference InferenceMain Sample Scenario.


Lemma run_inference_delivers_witness :
  run_inference renderer3 "in/v.mp4" "in/a.wav" "/app/output/lipsync_result.mp4"
      kw0 with_old_result
    = (Ok true,
       (run_inference renderer3 "in/v.mp4" "in/a.wav"
          "/app/output/lipsync_result.mp4" kw0 with_old_result).2)
  ∧ FS.read "/app/output/lipsync_result.mp4"
      (fs (run_inference renderer3 "in/v.mp4" "in/a.wav"
             "/app/output/lipsync_result.mp4" kw0 with_old_result).2)
    = Some "result"
  ∧ ∃ w2 target d new,
      trace w2 = new ++ trace with_old_result
      ∧ Forall before_copy new
      ∧ target ∈ scan (Path.dirname "/app/output/lipsync_result.mp4") (fs w2)
      ∧ FS.read target (fs w2) = Some d
      ∧ trace (run_inference renderer3 "in/v.mp4" "in/a.wav"
                 "/app/output/lipsync_result.mp4" kw0 with_old_result).2
        = Done (OpGetsize "/app/output/lipsync_result.mp4")
            :: Done (OpCopy target "/app/output/lipsync_result.mp4") :: trace w2
      ∧ FS.exists_ "/app/output/lipsync_result.mp4"
          (fs (run_inference renderer3 "in/v.mp4" "in/a.wav"
                 "/app/output/lipsync_result.mp4" kw0 with_old_result).2) = true
      ∧ FS.read (if FS.isdir "/app/output/lipsync_result.mp4" (fs w2)
                 then Path.join "/app/output/lipsync_result.mp4" (Path.basename target)
                 else "/app/output/lipsync_result.mp4")
          (fs (run_inference renderer3 "in/v.mp4" "in/a.wav"
                 "/app/output/lipsync_result.mp4" kw0 with_old_result).2)
        = Some d.
Proof.
  split; [by vm_compute|]. split; [by vm_compute|].
  refine (run_inference_delivers renderer3 "in/v.mp4" "in/a.wav"
            "/app/output/lipsync_result.mp4" kw0 with_old_result _ _).
  by vm_compute.
Defined.

(** The renderer writes its result where the caller wants the output. *)
Lemma run_inference_same_file_witness :
  ∃ cmd w1 first rest w2,
    FS.exists_ "in/v.mp4" (fs with_old_result) = true
    ∧ FS.exists_ "in/a.wav" (fs with_old_result) = true
    ∧ prepare renderer3 "in/v.mp4" "in/a.wav" "/app/output/lipsync_output.mp4"
        kw0 with_old_result = (Ok cmd, w1)
    ∧ produce renderer3 cmd "/app/output/lipsync_output.mp4" w1
      = (Ok (first :: rest), w2)
    ∧ Path.resolve (select_target first (first :: rest))
      = Path.resolve "/app/output/lipsync_output.mp4"
    ∧ FS.read "/app/output/lipsync_output.mp4" (fs w2) = Some "result"
    ∧ ∃ e, run_inference renderer3 "in/v.mp4" "in/a.wav"
             "/app/output/lipsync_output.mp4" kw0 with_old_result
           = (Ok false,
              log (Failed (OpCopy (select_target first (first :: rest))
                             "/app/output/lipsync_output.mp4") e) w2).
Proof.
  eexists _, _, _, _, _.
  split; [reflexivity|]. split; [reflexivity|].
  split; [vm_compute; reflexivity|]. split; [vm_compute; reflexivity|].
  split; [vm_compute; reflexivity|]. split; [vm_compute; reflexivity|].
  refine (run_inference_same_file renderer3
            "in/v.mp4" "in/a.wav" "/app/output/lipsync_output.mp4" kw0
            with_old_result _ _ _ _ _ "result" eq_refl eq_refl _ _ _ _);
    vm_compute; reflexivity.
Defined.

Lemma run_inference_non_string_version_witness :
  ({[ "version" := VFloat "1.5" ]} : gmap string pyval) !! "version"
    = Some (VFloat "1.5")
  ∧ (∀ s, VFloat "1.5" ≠ VStr s)
  ∧ (run_inference quiet "in/v.mp4" "in/a.wav" "/app/output/lipsync_result.mp4"
       {[ "version" := VFloat "1.5" ]} with_old_result).1 ≠ Ok true.
Proof.
  split; [by vm_compute|]. split; [done|].
  refine (proj1 (run_inference_non_string_version quiet "in/v.mp4" "in/a.wav"
                   "/app/output/lipsync_result.mp4" {[ "version" := VFloat "1.5" ]}
                   (VFloat "1.5") with_old_result _ _)); [by vm_compute|done].
Defined.

(** Called without [main], for an output directory that is not there. *)
Lemma run_inference_without_output_dir_witness :
  FS.exists_ "in/v.mp4" (fs with_task1_dir) = true
  ∧ FS.exists_ "in/a.wav" (fs with_task1_dir) = true
  ∧ prepare quiet "in/v.mp4" "in/a.wav" "/app/output/r.mp4" kw0 with_task1_dir
    = (Ok (command "/app/output/r.mp4" (VStr "v15") (VInt 4) (VInt 25)),
       (prepare quiet "in/v.mp4" "in/a.wav" "/app/output/r.mp4" kw0 with_task1_dir).2)
  ∧ FS.isdir (Path.dirname "/app/output/r.mp4")
      (fs (prepare quiet "in/v.mp4" "in/a.wav" "/app/output/r.mp4" kw0
             with_task1_dir).2) = false
  ∧ ∃ e, run_inference quiet "in/v.mp4" "in/a.wav" "/app/output/r.mp4" kw0
           with_task1_dir
         = (Ok false,
            log (Failed (OpListdir (Path.dirname "/app/output/r.mp4")) e)
                (prepare quiet "in/v.mp4" "in/a.wav" "/app/output/r.mp4" kw0
                   with_task1_dir).2).
Proof.
  split; [by vm_compute|]. split; [by vm_compute|].
  split; [by vm_compute|]. split; [by vm_compute|].
  refine (run_inference_without_output_dir quiet "in/v.mp4" "in/a.wav"
            "/app/output/r.mp4" kw0 with_task1_dir _ _ _ _ _ _); by vm_compute.
Defined.


Lemma main_bare_output_witness :
  Str.has_slash (output bare_output) = false
  ∧ main quiet bare_output with_old_result
    = (Raise FileNotFoundError,
       log (Failed (OpMakedirs "") FileNotFoundError) with_old_result).
Proof.
  split; [by vm_compute|].
  refine (proj1 (main_bare_output quiet bare_output with_old_result _)).
  by vm_compute.
Defined.

End InferenceMoreExamples.

(** * Paths made of a directory and a name *)

Section PathFacts.

Lemma split_from_nil cur :
  Path.split_from cur "" = if decide (cur = "" ∨ cur = ".") then [] else [cur].
Proof. done. Qed.

Lemma split_from_cons cur c s :
  Path.split_from cur (String c s) =
    if decide (c = Str.slash)
    then (if decide (cur = "" ∨ cur = ".")
          then Path.split_from "" s else cur :: Path.split_from "" s)
    else Path.split_from (cur +:+ String c "") s.
Proof. done. Qed.

Lemma split_from_app_slash cur x y :
  Path.split_from cur (x +:+ String Str.slash y)
  = Path.split_from cur x ++ Path.split_from "" y.
Proof.
  revert cur. induction x as [|c x IH]; intros cur.
  - rewrite app_nil_str, split_from_cons, split_from_nil, decide_True by done.
    by destruct (decide (cur = "" ∨ cur = ".")).
  - rewrite app_cons_str, !split_from_cons.
    destruct (decide (c = Str.slash)); [|apply IH].
    destruct (decide (cur = "" ∨ cur = ".")); by rewrite IH.
Qed.

Lemma split_from_name cur f :
  Str.has_slash f = false →
  Path.split_from cur f
  = if decide (cur +:+ f = "" ∨ cur +:+ f = ".") then [] else [cur +:+ f].
Proof.
  revert cur. induction f as [|c f IH]; intros cur Hf.
  - by rewrite app_nil_r_str, split_from_nil.
  - cbn [Str.has_slash] in Hf. destruct (decide (c = Str.slash)); [done|].
    rewrite split_from_cons, decide_False by done. rewrite IH by done.
    by rewrite app_assoc_str, app_cons_str, app_nil_str.
Qed.

Lemma split_name f : is_name f → Path.split_from "" f = [f].
Proof.
  intros (Hs & Hne & Hdot). rewrite split_from_name by done.
  rewrite app_nil_str. rewrite decide_False; [done|]. by intros [?|?].
Qed.

Lemma app_nonempty_str (a b : string) : a ≠ "" → a +:+ b ≠ "".
Proof. by destruct a. Qed.

(** A name joined to a directory resolves to the directory's components
    followed by the name. *)
Lemma resolve_join_name d f cd :
  is_name f → Path.resolve d = Some cd →
  Path.resolve (Path.join d f) = Some (cd ++ [f]).
Proof.
  intros Hf Hd. pose proof Hf as (Hs & Hne & Hdot).
  unfold Path.resolve in Hd. destruct (decide (d = "")) as [|Hdne]; [done|].
  injection Hd as <-. unfold Path.join.
  assert (Str.startswith "/" f = false) as ->.
  { destruct f as [|c f]; [done|]. cbn [Str.has_slash] in Hs. cbn.
    destruct (decide (c = Str.slash)); [done|].
    by rewrite decide_False by (intros Heq; by apply n). }
  rewrite decide_False by done.
  destruct (Str.endswith d "/") eqn:Hend.
  - apply endswith_slash_inv in Hend as [d0 ->].
    unfold Path.resolve. rewrite decide_False by by apply app_nonempty_str.
    f_equal. rewrite app_assoc_str, app_cons_str, app_nil_str.
    rewrite !split_from_app_slash, split_from_nil, decide_True by by left.
    by rewrite (right_id_L [] (++)), (split_name f).
  - unfold Path.resolve. rewrite decide_False by by apply app_nonempty_str.
    f_equal. rewrite app_cons_str, app_nil_str.
    by rewrite split_from_app_slash, (split_name f).
Qed.

End PathFacts.

(** * Cleaning the output directory *)

Section RemoveFacts.

Import FS FSFacts.

Lemma assoc_unbind_ne {A} k k' (l : list (string * A)) :
  k ≠ k' → assoc k' (unbind k l) = assoc k' l.
Proof.
  intros Hne. induction l as [|[k2 v2] l IH]; simpl; [done|].
  destruct (decide (k = k2)) as [->|Hne2]; simpl.
  - by rewrite decide_False.
  - destruct (decide (k' = k2)); [done|apply IH].
Qed.

Lemma assoc_None {A} k (l : list (string * A)) : k ∉ l.*1 → assoc k l = None.
Proof.
  induction l as [|[k2 v2] l IH]; simpl; [done|]. intros Hk.
  rewrite decide_False by (intros ->; apply Hk; by left).
  apply IH. intros Hin. apply Hk. by right.
Qed.

Lemma unbind_names {A} k (l : list (string * A)) x :
  x ∈ (unbind k l).*1 → x ∈ l.*1.
Proof.
  induction l as [|[k2 v2] l IH]; simpl; [done|].
  destruct (decide (k = k2)) as [->|Hne]; simpl.
  - intros ?. by right.
  - intros [->|Hin]%elem_of_cons; [by left|]. right. by apply IH.
Qed.

Lemma unbind_NoDup {A} k (l : list (string * A)) :
  NoDup l.*1 → NoDup (unbind k l).*1 ∧ assoc k (unbind k l) = None.
Proof.
  induction l as [|[k2 v2] l IH]; simpl; [done|].
  intros [Hk2 Hl]%NoDup_cons. destruct (decide (k = k2)) as [->|Hne]; simpl.
  - split; [done|]. by apply assoc_None.
  - destruct (IH Hl) as [IH1 IH2]. split.
    + apply NoDup_cons. split; [|done]. intros Hin. apply Hk2.
      by eapply unbind_names.
    + by rewrite decide_False.
Qed.

Lemma remove_inv c cs n n' :
  remove (c :: cs) n = Ok n' →
  ∃ es, n = Dir es ∧
    match cs with
    | [] => (∃ d, assoc c es = Some (File d)) ∧ n' = Dir (unbind c es)
    | _ :: _ => ∃ child child', assoc c es = Some child ∧
                  remove cs child = Ok child' ∧ n' = Dir (bind c child' es)
    end.
Proof.
  destruct n as [d0|es]; [done|]. intros H. exists es. split; [done|].
  simpl in *. destruct cs as [|c2 cs].
  - destruct (assoc c es) as [[?|?]|]; naive_solver.
  - destruct (assoc c es) as [child|]; [|done].
    destruct (remove (c2 :: cs) child) as [child'|] eqn:Hr; [|done].
    simpl in H. naive_solver.
Qed.

(** Removing a file leaves the other regular files as they are. *)
Lemma remove_rd cs n n' :
  remove cs n = Ok n' → ∀ q d, q ≠ cs → rd q n = Some d → rd q n' = Some d.
Proof.
  revert n n'. induction cs as [|c cs IH]; intros n n' H q d Hq Hrd; [done|].
  apply remove_inv in H as (es & -> & H).
  destruct q as [|c' q]; [done|].
  destruct cs as [|c2 cs].
  - destruct H as [[d0 Hc] ->]. unfold rd in *. rewrite lookup_dir_cons in *.
    destruct (decide (c' = c)) as [->|Hne].
    + rewrite Hc in Hrd. destruct q; [done|]. done.
    + by rewrite assoc_unbind_ne.
  - destruct H as (child & child' & Hc & Hrm & ->). unfold rd in *.
    rewrite lookup_bind_cons.
    destruct (decide (c' = c)) as [->|Hne]; [|done].
    rewrite lookup_dir_cons, Hc in Hrd.
    apply (IH _ _ Hrm q d); [congruence|done].
Qed.

Lemma remove_ok_file c cs n :
  is_Some (rd (c :: cs) n) → ∃ n', remove (c :: cs) n = Ok n'.
Proof.
  revert c n. induction cs as [|c2 cs IH]; intros c n [d Hd]; unfold rd in Hd.
  - destruct n as [?|es]; [done|]. rewrite lookup_dir_cons in Hd. simpl.
    destruct (assoc c es) as [[d0|?]|]; try done. by eexists.
  - destruct n as [?|es]; [done|]. rewrite lookup_dir_cons in Hd.
    change (remove (c :: c2 :: cs) (Dir es))
      with (match assoc c es with
            | None => Raise FileNotFoundError
            | Some child =>
                res_bind (remove (c2 :: cs) child) (λ child', Ok (Dir (bind c child' es)))
            end).
    destruct (assoc c es) as [child|]; [|done].
    change (Some child ≫= lookup (c2 :: cs)) with (lookup (c2 :: cs) child) in Hd.
    destruct (IH c2 child) as [child' ->]; [by exists d|].
    by eexists.
Qed.

Lemma lookup_app p q n : lookup (p ++ q) n = lookup p n ≫= lookup q.
Proof.
  revert n. induction p as [|c p IH]; intros n; [done|].
  destruct n as [?|es]; [done|]. rewrite <-app_comm_cons, !lookup_dir_cons.
  destruct (assoc c es) as [child|]; [apply IH|done].
Qed.

(** What removing the entry [g] of the directory at [cd] does there. *)
Lemma remove_entry cd g n n' :
  remove (cd ++ [g]) n = Ok n' →
  ∃ es, lookup cd n = Some (Dir es)
        ∧ is_Some (rd (cd ++ [g]) n)
        ∧ lookup cd n' = Some (Dir (unbind g es))
        ∧ ∀ f, f ≠ g → lookup (cd ++ [f]) n' = lookup (cd ++ [f]) n.
Proof.
  revert n n'. induction cd as [|c cd IH]; intros n n' H.
  - apply remove_inv in H as (es & -> & [[d Hd] ->]). exists es.
    split_and!; [done| |done|].
    + exists d. unfold rd. cbn [app]. by rewrite lookup_dir_cons, Hd.
    + intros f Hf. cbn [app]. by rewrite !lookup_dir_cons, assoc_unbind_ne.
  - rewrite <-app_comm_cons in H. apply remove_inv in H as (es & -> & H).
    destruct (cd ++ [g]) as [|c2 rest] eqn:Hrest; [by destruct cd|].
    destruct H as (child & child' & Hc & Hrm & ->).
    destruct (IH _ _ Hrm) as (es' & Hl & Hg & Hl' & Hsib). exists es'.
    split_and!.
    + by rewrite lookup_dir_cons, Hc.
    + unfold rd in *. by rewrite <-app_comm_cons, lookup_dir_cons, Hc, Hrest.
    + by rewrite lookup_bind_cons, decide_True.
    + intros f Hf. rewrite <-app_comm_cons, lookup_bind_cons, decide_True by done.
      rewrite lookup_dir_cons, Hc. by apply Hsib.
Qed.

End RemoveFacts.

Section Cleanup.

Import MuseTalkInference FS FSFacts.

Context (E : Env).

Lemma os_remove_cases p w :
  fs (os_remove E p w).2 = fs w
  ∨ ∃ cs, Path.resolve p = Some cs ∧ remove cs (fs w) = Ok (fs (os_remove E p w).2).
Proof.
  destruct (os_remove E p w) as [[[]|e] w'] eqn:H; cbn.
  - right. apply syscall_ok in H as (Hact & _). unfold on_path in Hact.
    destruct (Path.resolve p) as [cs|]; [|done]. exists cs. split; [done|].
    destruct (remove cs (fs w)) as [n'|]; [|done]. cbn in Hact. by injection Hact as <-.
  - left. by apply syscall_raise in H as (? & _).
Qed.

Lemma os_remove_file p cs w :
  fault E (trace w) (OpRemove p) = None →
  Path.resolve p = Some cs → cs ≠ [] → is_Some (rd cs (fs w)) →
  remove cs (fs w) = Ok (fs (os_remove E p w).2).
Proof.
  intros Hf Hcs Hne Hrd. unfold os_remove, syscall, on_path. rewrite Hf, Hcs.
  destruct cs as [|c cs]; [done|].
  by destruct (remove_ok_file c cs (fs w) Hrd) as [n' ->].
Qed.

(** One turn of the loop of lines 88-93. *)
Lemma clean_turn_cases output_dir f w :
  let r := (if is_old_output f
            then try_ (os_remove E (Path.join output_dir f)) (λ _, mret tt)
            else mret tt) w in
  r.1 = Ok tt
  ∧ (fs r.2 = fs w
     ∨ (is_old_output f = true
        ∧ ∃ cs, Path.resolve (Path.join output_dir f) = Some cs
                ∧ remove cs (fs w) = Ok (fs r.2))).
Proof.
  cbv zeta. destruct (is_old_output f); [|by split; [|left]].
  rewrite try_unfold.
  pose proof (os_remove_cases (Path.join output_dir f) w) as H.
  destruct (os_remove E (Path.join output_dir f) w) as [[[]|e] w']; cbn in *.
  - split; [done|]. destruct H as [?|?]; [by left|by right].
  - split; [done|]. destruct H as [?|?]; [by left|by right].
Qed.

Lemma clean_turn_removes output_dir f cs w :
  fault E (trace w) (OpRemove (Path.join output_dir f)) = None →
  is_old_output f = true →
  Path.resolve (Path.join output_dir f) = Some cs → cs ≠ [] →
  is_Some (rd cs (fs w)) →
  remove cs (fs w)
  = Ok (fs ((if is_old_output f
             then try_ (os_remove E (Path.join output_dir f)) (λ _, mret tt)
             else mret tt) w).2).
Proof.
  intros Hf -> Hcs Hne Hrd. rewrite try_unfold.
  pose proof (os_remove_file _ _ _ Hf Hcs Hne Hrd) as H.
  by destruct (os_remove E (Path.join output_dir f) w) as [[[]|e] w'].
Qed.

Lemma clean_loop_keeps output_dir names q d :
  (∀ f, f ∈ names → is_old_output f = true →
        Path.resolve q ≠ Path.resolve (Path.join output_dir f)) →
  inv (λ w, FS.read q (fs w) = Some d)
      (for_ names (λ _ f,
         if is_old_output f
         then try_ (os_remove E (Path.join output_dir f)) (λ _, mret tt)
         else mret tt) tt).
Proof.
  intros Hq. apply inv_for. intros _ f Hf w Hw.
  destruct (clean_turn_cases output_dir f w) as [_ [->|(Hold & cs & Hcs & Hrm)]];
    [done|].
  specialize (Hq f Hf Hold). rewrite Hcs in Hq.
  destruct (Path.resolve q) as [cq|] eqn:Hcq.
  2:{ by rewrite (read_unresolved _ _ Hcq) in Hw. }
  cbv beta in *. rewrite (read_resolve q cq) in Hw by done.
  rewrite (read_resolve q cq) by done.
  eapply remove_rd; [done| |done]. congruence.
Qed.

Lemma os_listdir_ok p es w names w1 :
  at_path p (fs w) = Some (Dir es) →
  os_listdir E p w = (Ok names, w1) → names = es.*1 ∧ fs w1 = fs w.
Proof.
  intros Hp H. apply syscall_ok in H as (Hact & _). rewrite Hp in Hact.
  by injection Hact as <- <-.
Qed.

Lemma at_path_resolve p n x : at_path p n = Some x →
  ∃ cs, Path.resolve p = Some cs ∧ lookup cs n = Some x.
Proof.
  unfold at_path. destruct (Path.resolve p) as [cs|]; [|done]. intros H. by exists cs.
Qed.

(** X21.  [clean_old_outputs] deletes nothing but entries of the output
    directory whose name ends in [.mp4] and does not contain [temp]:
    every other regular file keeps its content.  In particular the files
    of the directory with another name (scratch files, other formats)
    stay. *)
Theorem clean_old_outputs_keeps output_dir es w :
  FS.at_path output_dir (fs w) = Some (Dir es) →
  let w' := (clean_old_outputs E output_dir w).2 in
  (∀ q d, FS.read q (fs w) = Some d →
     (∀ f, f ∈ es.*1 → is_old_output f = true →
           Path.resolve q ≠ Path.resolve (Path.join output_dir f)) →
     FS.read q (fs w') = Some d)
  ∧ (Forall is_name es.*1 →
     ∀ f d, is_name f → is_old_output f = false →
       FS.read (Path.join output_dir f) (fs w) = Some d →
       FS.read (Path.join output_dir f) (fs w') = Some d).
Proof.
  unfold clean_old_outputs. intros Hdir. cbv zeta.
  assert (Hkeep : ∀ q d, FS.read q (fs w) = Some d →
            (∀ f, f ∈ es.*1 → is_old_output f = true →
                  Path.resolve q ≠ Path.resolve (Path.join output_dir f)) →
            FS.read q (fs ((os_listdir E output_dir ≫= λ names,
                 for_ names (λ _ f,
                   if is_old_output f
                   then try_ (os_remove E (Path.join output_dir f)) (λ _, mret tt)
                   else mret tt) tt) w).2) = Some d).
  { intros q d Hrd Hq. rewrite bind_unfold.
    destruct (os_listdir E output_dir w) as [[names|e] w1] eqn:Hls.
    - apply (os_listdir_ok _ _ _ _ _ Hdir) in Hls as [-> Hfs].
      apply (clean_loop_keeps output_dir es.*1 q d Hq). by rewrite Hfs.
    - apply syscall_raise in Hls as (Hfs & _). cbn. by rewrite Hfs. }
  split; [exact Hkeep|].
  intros Hnames f d Hf Hkeepf Hrd. apply Hkeep; [done|].
  intros g Hg Hold Heq.
  apply at_path_resolve in Hdir as (cd & Hcd & _).
  rewrite Forall_forall in Hnames.
  rewrite (resolve_join_name _ _ _ Hf Hcd) in Heq.
  rewrite (resolve_join_name _ _ _ (Hnames g Hg) Hcd) in Heq.
  injection Heq as Heq. apply app_inj_tail in Heq as [_ ->]. congruence.
Qed.

Lemma clean_loop_removes output_dir cd f names :
  (∀ h p, fault E h (OpRemove p) = None) →
  Path.resolve output_dir = Some cd →
  is_name f → is_old_output f = true →
  Forall is_name names → NoDup names →
  ∀ w es,
    lookup cd (fs w) = Some (Dir es) → NoDup es.*1 →
    let w' := (for_ names (λ _ f,
                 if is_old_output f
                 then try_ (os_remove E (Path.join output_dir f)) (λ _, mret tt)
                 else mret tt) tt w).2 in
    (f ∉ names → lookup (cd ++ [f]) (fs w') = lookup (cd ++ [f]) (fs w))
    ∧ (f ∈ names →
       rd (cd ++ [f]) (fs w') = None
       ∧ (is_Some (rd (cd ++ [f]) (fs w)) → lookup (cd ++ [f]) (fs w') = None)).
Proof.
  intros Hfault Hcd Hf Hold Hnames Hnd. cbv zeta.
  induction names as [|g names IH]; intros w es Hes Hes_nd.
  { split; [done|]. by intros ?%elem_of_nil. }
  apply Forall_cons in Hnames as [Hg Hnames]. apply NoDup_cons in Hnd as [Hgn Hnd].
  specialize (IH Hnames Hnd).
  cbn [for_]. rewrite bind_unfold.
  pose proof (clean_turn_cases output_dir g w) as [Hok Hturn].
  pose proof (clean_turn_removes output_dir g (cd ++ [g]) w (Hfault _ _)) as Hrm.
  pose proof (resolve_join_name _ _ _ Hg Hcd) as Hcg.
  destruct ((if is_old_output g
             then try_ (os_remove E (Path.join output_dir g)) (λ _, mret tt)
             else mret tt) w) as [r w1]. cbn in Hok, Hturn, Hrm.
  subst r.
  (* the directory after this turn *)
  assert (Hstep : (fs w1 = fs w)
                  ∨ (is_Some (rd (cd ++ [g]) (fs w))
                     ∧ lookup cd (fs w1) = Some (Dir (unbind g es))
                     ∧ ∀ f', f' ≠ g →
                         lookup (cd ++ [f']) (fs w1) = lookup (cd ++ [f']) (fs w))).
  { destruct Hturn as [?|(Hg_old & cs & Hcs & Hremove)]; [by left|]. right.
    rewrite Hcg in Hcs. injection Hcs as <-.
    apply remove_entry in Hremove as (es' & Hes' & Hfile & Hes1 & Hsib).
    rewrite Hes in Hes'. injection Hes' as <-. done. }
  assert (Hdir1 : ∃ es1, lookup cd (fs w1) = Some (Dir es1) ∧ NoDup es1.*1).
  { destruct Hstep as [->|(_ & Hes1 & _)]; [by exists es|].
    exists (unbind g es). split; [done|]. by apply unbind_NoDup. }
  destruct Hdir1 as (es1 & Hes1 & Hes1_nd).
  destruct (IH w1 es1 Hes1 Hes1_nd) as [IHout IHin].
  split.
  - intros Hfn. rewrite IHout by (intros ?; apply Hfn; by right).
    destruct Hstep as [->|(_ & _ & Hsib)]; [done|].
    apply Hsib. intros ->. apply Hfn. by left.
  - intros [->|Hin]%elem_of_cons.
    + (* the turn of [f] itself *)
      rewrite (proj1 (IH w1 es1 Hes1 Hes1_nd) Hgn).
      unfold rd at 1. rewrite (proj1 (IH w1 es1 Hes1 Hes1_nd) Hgn).
      destruct (rd (cd ++ [g]) (fs w)) as [d|] eqn:Hrd.
      * specialize (Hrm Hold Hcg (ltac:(by destruct cd)) (ltac:(by exists d))).
        apply remove_entry in Hrm as (es' & Hes' & _ & Hes1' & _).
        rewrite Hes in Hes'. injection Hes' as <-.
        assert (Hgone : lookup (cd ++ [g]) (fs w1) = None).
        { rewrite lookup_app, Hes1'.
          change (Some (Dir (unbind g es)) ≫= lookup [g])
            with (lookup [g] (Dir (unbind g es))).
          rewrite lookup_dir_cons.
          by rewrite (proj2 (unbind_NoDup g es Hes_nd)). }
        by rewrite Hgone.
      * split; [|by intros [??]].
        destruct Hstep as [->|([d Hd] & _)]; [exact Hrd|congruence].
    + (* [f] comes later *)
      destruct (IHin Hin) as [IH1 IH2]. split; [done|].
      intros Hsome. apply IH2.
      destruct Hstep as [->|(_ & _ & Hsib)]; [done|].
      unfold rd in *. rewrite Hsib; [done|]. intros ->. by apply Hgn.
Qed.

(** X22.  When no deletion is made to fail, [clean_old_outputs] leaves no
    regular file in the output directory under a name that ends in
    [.mp4] and does not contain [temp]: such a file, an earlier result
    at the output path included, no longer exists afterwards. *)
Theorem clean_old_outputs_removes output_dir es f w :
  (∀ h p, fault E h (OpRemove p) = None) →
  fault E (trace w) (OpListdir output_dir) = None →
  FS.at_path output_dir (fs w) = Some (Dir es) →
  NoDup es.*1 → Forall is_name es.*1 →
  f ∈ es.*1 → is_old_output f = true →
  let w' := (clean_old_outputs E output_dir w).2 in
  FS.read (Path.join output_dir f) (fs w') = None
  ∧ (is_Some (FS.read (Path.join output_dir f) (fs w)) →
     FS.exists_ (Path.join output_dir f) (fs w') = false).
Proof.
  unfold clean_old_outputs.
  intros Hfault Hls Hdir Hnd Hnames Hf Hold. cbv zeta.
  pose proof Hdir as (cd & Hcd & Hes)%at_path_resolve.
  assert (Hfn : is_name f) by (rewrite Forall_forall in Hnames; by apply Hnames).
  pose proof (resolve_join_name _ _ _ Hfn Hcd) as Hcf.
  rewrite bind_unfold.
  assert (Hlist : os_listdir E output_dir w
                  = (Ok es.*1, mkWorld (fs w) (Done (OpListdir output_dir) :: trace w)
                                       (stdout w))).
  { unfold os_listdir, syscall. by rewrite Hls, Hdir. }
  rewrite Hlist.
  destruct (clean_loop_removes output_dir cd f es.*1 Hfault Hcd Hfn Hold Hnames Hnd
              (mkWorld (fs w) (Done (OpListdir output_dir) :: trace w) (stdout w))
              es Hes Hnd) as [_ Hin].
  destruct (Hin Hf) as [Hrd Hex]. cbn [fs] in Hrd, Hex.
  rewrite !(read_resolve _ _ _ Hcf), (exists_resolve _ _ _ Hcf).
  split; [done|]. intros Hsome. unfold ex. by rewrite (Hex Hsome).
Qed.

End Cleanup.

Section CleanupExamples.

Import MuseTalkInference Sample Scenario.

(** The scratch file of an earlier run stays. *)
Lemma clean_old_outputs_keeps_witness :
  FS.at_path "/app/output" (fs used_output_dir) = Some (Dir output_listing)
  ∧ Forall is_name output_listing.*1
  ∧ is_name "b_temp.mp4"
  ∧ is_old_output "b_temp.mp4" = false
  ∧ FS.read (Path.join "/app/output" "b_temp.mp4") (fs used_output_dir)
    = Some "scratch"
  ∧ FS.read (Path.join "/app/output" "b_temp.mp4")
      (fs (clean_old_outputs quiet "/app/output" used_output_dir).2)
    = Some "scratch".
Proof.
  assert (Hnames : Forall is_name output_listing.*1).
  { unfold is_name. apply (bool_decide_unpack _). by vm_compute. }
  assert (Hname : is_name "b_temp.mp4").
  { unfold is_name. apply (bool_decide_unpack _). by vm_compute. }
  split; [by vm_compute|]. split; [done|]. split; [done|].
  split; [by vm_compute|]. split; [by vm_compute|].
  refine (proj2 (clean_old_outputs_keeps quiet "/app/output" output_listing
                   used_output_dir _) Hnames "b_temp.mp4" "scratch" Hname _ _);
    by vm_compute.
Defined.

(** The earlier result goes. *)
Lemma clean_old_outputs_removes_witness :
  (∀ h p, fault quiet h (OpRemove p) = None)
  ∧ fault quiet (trace used_output_dir) (OpListdir "/app/output") = None
  ∧ FS.at_path "/app/output" (fs used_output_dir) = Some (Dir output_listing)
  ∧ NoDup output_listing.*1
  ∧ Forall is_name output_listing.*1
  ∧ "lipsync_result.mp4" ∈ output_listing.*1
  ∧ is_old_output "lipsync_result.mp4" = true
  ∧ FS.read (Path.join "/app/output" "lipsync_result.mp4") (fs used_output_dir)
    = Some "old"
  ∧ FS.read (Path.join "/app/output" "lipsync_result.mp4")
      (fs (clean_old_outputs quiet "/app/output" used_output_dir).2)
    = None.
Proof.
  assert (Hnames : Forall is_name output_listing.*1).
  { unfold is_name. apply (bool_decide_unpack _). by vm_compute. }
  assert (Hnd : NoDup output_listing.*1).
  { apply (bool_decide_unpack _). by vm_compute. }
  assert (Hin : "lipsync_result.mp4" ∈ output_listing.*1).
  { apply (bool_decide_unpack _). by vm_compute. }
  split; [done|]. split; [done|]. split; [by vm_compute|].
  split; [done|]. split; [done|]. split; [done|].
  split; [by vm_compute|]. split; [by vm_compute|].
  refine (proj1 (clean_old_outputs_removes quiet "/app/output" output_listing
                   "lipsync_result.mp4" used_output_dir _ _ _ Hnd Hnames Hin _));
    [done|done|by vm_compute|by vm_compute].
Defined.

End CleanupExamples.

(** * Running the provisioner again *)

Section Rerun.

Import DownloadModels FSFacts.

Context (E : Env).

Lemma nothing_step {A} (m : M A) before t0 :
  (∀ w, FS.grows (fs w) (fs (m w).2) ∧ stdout (m w).2 = stdout w
        ∧ ∃ ev, trace (m w).2 = ev :: trace w ∧ ∀ url, op_of ev ≠ OpGet url) →
  inv (nothing_to_download before t0) m.
Proof.
  intros Hm w (Hfiles & Hout & new & Hnew & Hall).
  destruct (Hm w) as (Hgrow & Hout' & ev & Hev & Hop).
  split_and!.
  - intros p Hp. by apply Hgrow, Hfiles.
  - by rewrite Hout'.
  - exists (ev :: new). split; [by rewrite Hev, Hnew|]. by apply Forall_cons.
Qed.

Lemma nothing_makedirs p before t0 :
  inv (nothing_to_download before t0) (os_makedirs E p).
Proof.
  apply nothing_step. intros w.
  destruct (os_makedirs E p w) as [[[]|e] w'] eqn:H; cbn.
  - apply os_makedirs_ok in H as (cs & _ & Hmk & Ht & Hout).
    split_and!; [by eapply mkdirs_grows|done|]. by eexists.
  - apply syscall_raise in H as (Hfs & Ht & Hout). rewrite Hfs.
    split_and!; [apply grows_refl|done|]. by eexists.
Qed.

Lemma nothing_getsize p before t0 :
  inv (nothing_to_download before t0) (os_path_getsize E p).
Proof.
  apply nothing_step. intros w.
  pose proof (os_path_getsize_fs E p w) as Hfs.
  destruct (os_path_getsize E p w) as [[z|e] w'] eqn:H; cbn in *; rewrite Hfs.
  - apply syscall_ok in H as (_ & Ht & Hout).
    split_and!; [apply grows_refl|done|]. by eexists.
  - apply syscall_raise in H as (_ & Ht & Hout).
    split_and!; [apply grows_refl|done|]. by eexists.
Qed.

Lemma nothing_run cmd check before t0 :
  processes_keep_files E →
  inv (nothing_to_download before t0) (subprocess_run E cmd check).
Proof.
  intros Hkeep. apply nothing_step. intros w.
  assert (Hgrow : FS.grows (fs w) (fs (subprocess_run E cmd check w).2)).
  { unfold subprocess_run. destruct (fault E (trace w) (OpRun cmd)); [apply grows_refl|].
    pose proof (Hkeep (trace w) cmd (fs w)) as Hk.
    destruct (process E (trace w) cmd (fs w)) as [code n'].
    by destruct (check && _). }
  split; [done|].
  destruct (subprocess_run_cases E cmd check w)
    as [(c & w' & -> & Ht & Hout)|(e & w' & -> & Ht & Hout & _)]; cbn;
    (split; [done|]); by eexists.
Qed.

(** A file of the list is on disk: its turn does nothing. *)
Lemma nothing_turn url p description (success : bool) before t0 :
  p ∈ all_model_paths →
  inv (nothing_to_download before t0)
    (present ← os_path_exists p;
     if negb present then
       ok ← download_file E url p description;
       if negb ok then mret false else mret success
     else mret success).
Proof.
  intros Hp w Hw. rewrite bind_unfold. unfold os_path_exists at 1.
  destruct Hw as (Hfiles & Hrest). by rewrite (Hfiles p Hp).
Qed.

Lemma nothing_download_models models before t0 :
  models.*1 ⊆ all_model_paths →
  inv (nothing_to_download before t0) (download_models E models).
Proof.
  intros Hsub. unfold download_models. apply inv_for. intros success [p i] Hp.
  apply nothing_turn. apply Hsub. apply list_elem_of_fmap. by exists (p, i).
Qed.

Lemma model_paths_listed :
  musetalk_models.*1 ⊆ all_model_paths
  ∧ other_models.*1 ⊆ all_model_paths
  ∧ ((λ f, "models/whisper/" +:+ f.1) <$> whisper_files) ⊆ all_model_paths
  ∧ critical_files ⊆ all_model_paths.
Proof.
  unfold all_model_paths. split_and!.
  - intros p Hp. apply elem_of_app. by left.
  - intros p Hp. apply elem_of_app. right. apply elem_of_app. by left.
  - intros p Hp. apply elem_of_app. right. apply elem_of_app. by right.
  - apply (bool_decide_unpack _). by vm_compute.
Qed.

Lemma nothing_main before t0 :
  processes_keep_files E → inv (nothing_to_download before t0) (main E).
Proof.
  intros Hkeep. destruct model_paths_listed as (Hm & Ho & Hw & _). unfold main.
  apply inv_bind.
  { unfold download_with_hf_cli. apply inv_try; [|intros _; apply inv_ret].
    apply inv_bind; [by apply nothing_run|]. intros _.
    apply inv_bind; [by apply nothing_run|]. intros _. apply inv_ret. }
  intros hf. apply inv_bind.
  { apply inv_if; [|apply inv_ret].
    apply inv_bind; [|intros _; apply inv_ret].
    unfold manual_download_musetalk.
    apply inv_bind; [apply nothing_makedirs|]. intros _.
    by apply nothing_download_models. }
  intros _. apply inv_bind; [by apply nothing_download_models|]. intros _.
  apply inv_bind.
  { unfold setup_whisper_models.
    apply inv_bind; [apply nothing_makedirs|]. intros _.
    apply inv_for. intros success [filename url] Hf.
    apply nothing_turn. apply Hw. apply list_elem_of_fmap. by exists (filename, url). }
  intros _. apply inv_bind.
  { unfold verify_critical_files. apply inv_for. intros missing p _.
    apply inv_bind; [by intros w0 Hw0|]. intros present.
    apply inv_if; [|apply inv_ret].
    apply inv_bind; [apply nothing_getsize|]. intros _. apply inv_ret. }
  intros [|??]; apply inv_ret.
Qed.

(** X23.  A run of [main] of download_models.py on a disk that holds
    the ten model files, with tools that remove nothing, downloads
    nothing: [download_file] is not called, no request is made, the ten
    files are still there, and [main] does not return [False]. *)
Theorem main_nothing_to_download w :
  processes_keep_files E →
  (∀ p, p ∈ all_model_paths → FS.exists_ p (fs w) = true) →
  let r := main E w in
  r.1 ≠ Ok false
  ∧ stdout r.2 = stdout w
  ∧ (∀ p, p ∈ all_model_paths → FS.exists_ p (fs r.2) = true)
  ∧ ∃ new, trace r.2 = new ++ trace w
           ∧ Forall (λ ev, ∀ url, op_of ev ≠ OpGet url) new.
Proof.
  intros Hkeep Hfiles. cbv zeta.
  assert (H0 : nothing_to_download (stdout w) (trace w) w).
  { split_and!; [done..|]. by exists []. }
  apply (nothing_main _ _ Hkeep) in H0 as (Hfiles' & Hout & Hnew).
  split_and!; [|done..].
  pose proof (main_value E w) as Hval.
  destruct (main E w) as [[b|e] w']; [|done]. cbn [fst snd] in *.
  assert (b = true) as ->; [|done].
  rewrite Hval. apply forallb_forall. intros p Hp. apply Hfiles'.
  apply model_paths_listed. by apply list_elem_of_In.
Qed.

End Rerun.

(** * The exit status of the inference process *)

Section ExitCode.

Import MuseTalkInference.

Context (E : Env) (f : Z → Z).

Lemma bind_ext {A B} (m : M A) (k1 k2 : A → M B) w :
  (∀ a w', k1 a w' = k2 a w') → (m ≫= k1) w = (m ≫= k2) w.
Proof.
  intros H. rewrite !bind_unfold. by destruct (m w) as [[a|e] w'].
Qed.

Lemma run_command_exit_code {B} cmd (k : M B) w :
  (run_command (with_exit_code f E) cmd;; k) w = (run_command E cmd;; k) w.
Proof.
  rewrite !bind_unfold. unfold run_command.
  destruct (mapM _ cmd) as [args|]; [|done].
  unfold subprocess_run. cbn [fault process with_exit_code].
  destruct (fault E (trace w) (OpRun args)); [done|].
  by destruct (process E (trace w) args (fs w)) as [c n'].
Qed.

(** X24.  [run_inference] never looks at the exit status of the inference
    process: whatever status the process reports, the result and every
    effect of the call are the same. *)
Theorem run_inference_ignores_exit_code v a o kw w :
  run_inference (with_exit_code f E) v a o kw w = run_inference E v a o kw w.
Proof.
  unfold run_inference.
  apply bind_ext. intros present_v w1. destruct (negb present_v); [done|].
  apply bind_ext. intros present_a w2. destruct (negb present_a); [done|].
  change (prepare (with_exit_code f E) v a o kw) with (prepare E v a o kw).
  apply bind_ext. intros cmd w3. rewrite !try_unfold.
  change (deliver (with_exit_code f E)) with (deliver E).
  assert (Hprod : ∀ w, produce (with_exit_code f E) cmd o w = produce E cmd o w).
  { intros w0. unfold produce.
    change (clean_old_outputs (with_exit_code f E)) with (clean_old_outputs E).
    apply bind_ext. intros _ w4. apply run_command_exit_code. }
  by rewrite !bind_unfold, Hprod.
Qed.

End ExitCode.

Section RerunExamples.

Import DownloadModels Sample Scenario.

Lemma main_nothing_to_download_witness :
  processes_keep_files quiet
  ∧ (∀ p, p ∈ all_model_paths → FS.exists_ p (fs provisioned) = true)
  ∧ (main quiet provisioned).1 ≠ Ok false
  ∧ stdout (main quiet provisioned).2 = stdout provisioned.
Proof.
  assert (Hkeep : processes_keep_files quiet) by (intros h cmd n; apply FSFacts.grows_refl).
  assert (Hfiles : ∀ p, p ∈ all_model_paths → FS.exists_ p (fs provisioned) = true).
  { apply Forall_forall. apply (bool_decide_unpack _). by vm_compute. }
  split; [done|]. split; [done|].
  pose proof (main_nothing_to_download quiet provisioned Hkeep Hfiles) as H.
  split; [exact (proj1 H)|exact (proj1 (proj2 H))].
Defined.

End RerunExamples.
